(** * Pet Door Monitor: a shallow embedding of [app.py] and [mock_camera.py]

    The development follows the Python sources function by function.
    Global variables of [app.py] ([CONFIG], [last_detection_time],
    [detection_active], [background_frame]) and the storage directory are the
    fields of one [world] record that is threaded through a small
    state-and-exception monad.  Everything the program obtains from outside
    during one pass of the monitoring loop (the camera, the clocks, the YOLO
    model, the outcome of disk writes and removals) is supplied by a
    [tick_env] record.

    Numbers.  Python [int] values are [Z].  A finite Python [float] is
    modelled by the rational number it denotes ([Q]), so comparisons are
    exact.  Where an operation on [int]s yields a float, the IEEE-754
    binary64 rounding is modelled: the product in
    [int(len(all_files) * 0.2)] ([float_mul]), the quotient
    [total_size / (1024 ** 3)] ([usage_gb]), the quotient
    [1 / CONFIG['fps']] ([frame_delay]), the percentage
    [(motion_pixels / frame_pixels) * 100] ([detect_motion]) and [float(n)]
    in [handle_config] ([py_float]).  The difference of two readings of
    [time.time()] is taken exactly ([in_cooldown]).  Non-finite floats are
    outside the model: the JSON literals [NaN] and [Infinity] are no values
    of [json], and the clock and the model return finite numbers. *)

From Stdlib Require Import ZArith QArith Qround Qpower Qabs String Ascii List Lia Lqa.
From Stdlib Require Import Permutation Sorted.
From stdpp Require Import base gmap strings list fin_maps sorting.

Open Scope Z_scope.

(* ===================================================================== *)
(** * Part I.  Definitions                                                *)
(* ===================================================================== *)

(** ** Python exceptions (all are subclasses of [Exception]) *)

Inductive exn : Type :=
| RuntimeError (msg : string)
| ZeroDivisionError
| ValueError
| TypeError
| KeyError
| OSError
| OverflowError
| CvError.

(** ** [datetime] and its two textual forms *)

Record datetime : Type := mk_datetime {
  year : Z; month : Z; day : Z;
  hour : Z; minute : Z; second : Z; microsecond : Z
}.

(** The field ranges of a [datetime] object, with years of four digits. *)
Definition datetime_ok (d : datetime) : bool :=
  (1000 <=? year d) && (year d <=? 9999) &&
  (1 <=? month d) && (month d <=? 12) &&
  (1 <=? day d) && (day d <=? 31) &&
  (0 <=? hour d) && (hour d <=? 23) &&
  (0 <=? minute d) && (minute d <=? 59) &&
  (0 <=? second d) && (second d <=? 59) &&
  (0 <=? microsecond d) && (microsecond d <=? 999999).

(** Two readings of the clock fall in the same one-second interval. *)
Definition same_second (a b : datetime) : Prop :=
  year a = year b /\ month a = month b /\ day a = day b /\
  hour a = hour b /\ minute a = minute b /\ second a = second b.

Definition digit (n : Z) : ascii := ascii_of_nat (48 + Z.to_nat n).

Definition dec2 (n : Z) : string :=
  String (digit (n / 10)) (String (digit (n mod 10)) EmptyString).

Definition dec4 (n : Z) : string :=
  String (digit (n / 1000)) (String (digit (n / 100 mod 10))
    (String (digit (n / 10 mod 10)) (String (digit (n mod 10)) EmptyString))).

Definition dec6 (n : Z) : string :=
  String (digit (n / 100000)) (String (digit (n / 10000 mod 10))
    (String (digit (n / 1000 mod 10)) (String (digit (n / 100 mod 10))
      (String (digit (n / 10 mod 10)) (String (digit (n mod 10)) EmptyString))))).

(** [timestamp.strftime('%Y%m%d_%H%M%S')]: the identifier of an entry. *)
Definition strftime_id (d : datetime) : string :=
  dec4 (year d) +:+ dec2 (month d) +:+ dec2 (day d) +:+ "_" +:+
  dec2 (hour d) +:+ dec2 (minute d) +:+ dec2 (second d).

(** [timestamp.strftime('%Y%m%d_%H%M%S.jpg')] *)
Definition strftime_jpg (d : datetime) : string := strftime_id d +:+ ".jpg".

(** [timestamp.isoformat()] *)
Definition isoformat (d : datetime) : string :=
  dec4 (year d) +:+ "-" +:+ dec2 (month d) +:+ "-" +:+ dec2 (day d) +:+ "T" +:+
  dec2 (hour d) +:+ ":" +:+ dec2 (minute d) +:+ ":" +:+ dec2 (second d) +:+
  (if microsecond d =? 0 then "" else "." +:+ dec6 (microsecond d)).

(** ** Paths below [CONFIG['storage_path']]

    A path is the pair of the directory (relative to the storage root, [""]
    for the root itself) and the file name: [os.path.join(root, file)],
    [storage_path / category / filename]. *)

Definition path : Type := string * string.

(** [name.endswith(suffix)] *)
Fixpoint endswith (name suffix : string) : bool :=
  if String.eqb name suffix then true
  else match name with
       | EmptyString => false
       | String _ rest => endswith rest suffix
       end.

(** [name.rfind('.')]: [index] is the position of the head of [name]. *)
Fixpoint rfind_dot (name : string) (index : nat) : option nat :=
  match name with
  | EmptyString => None
  | String c rest =>
      match rfind_dot rest (S index) with
      | Some i => Some i
      | None => if Ascii.eqb c "."%char then Some index else None
      end
  end.

(** [PurePath.stem]: the name without its last suffix; a leading or a
    trailing dot does not start a suffix. *)
Definition stem (name : string) : string :=
  match rfind_dot name 0 with
  | Some i =>
      if (Nat.ltb 0 i) && (Nat.ltb i (String.length name - 1))
      then substring 0 i name else name
  | None => name
  end.

(** [filepath.with_suffix(suffix)] *)
Definition with_suffix (p : path) (suffix : string) : path :=
  (fst p, stem (snd p) +:+ suffix).

(** ** Detections *)

(** The dictionaries built by [detect_pets]:
    [{'type': ..., 'confidence': ..., 'bbox': ...}]. *)
Record pet : Type := mk_pet {
  type : string;
  confidence : Q;
  bbox : list Q
}.

(** Python's [any(... for p in pets)]. *)
Definition any {A : Type} (f : A -> bool) (l : list A) : bool := existsb f l.

(** The category chosen at the head of [save_detection]. *)
Definition category_of (pets : list pet) : string :=
  match pets with
  | [] => "unknown"
  | _ :: _ =>
      if any (fun p => String.eqb (type p) "cat") pets then "cats"
      else if any (fun p => String.eqb (type p) "dog") pets then "dogs"
      else "unknown"
  end.

(** The metadata dictionary dumped next to each image. *)
Record metadata : Type := mk_metadata {
  md_timestamp : string;
  md_category : string;
  md_detections : list pet;
  md_filename : string
}.

(** ** Floating point: the binary64 product behind [int(len * 0.2)]

    [binary64 x] rounds a rational to the nearest double (ties to even),
    for values in the normal range. *)

(** [floor (log2 x)] for a positive rational. *)
Definition ilog2 (x : Q) : Z :=
  let d := Z.log2 (Qnum x) - Z.log2 (Zpos (Qden x)) in
  if Qle_bool (Qpower 2 d) x then d else d - 1.

Definition round_half_even (x : Q) : Z :=
  let f := Qfloor x in
  match Qcompare (x - inject_Z f) (1 # 2) with
  | Lt => f
  | Gt => f + 1
  | Eq => if Z.even f then f else f + 1
  end.

Definition binary64_pos (x : Q) : Q :=
  let e := ilog2 x - 52 in
  inject_Z (round_half_even (x / Qpower 2 e)) * Qpower 2 e.

Definition binary64 (x : Q) : Q :=
  match Qcompare x 0 with
  | Eq => 0
  | Gt => binary64_pos x
  | Lt => - binary64_pos (- x)
  end.

(** [float(n)] for an [int], and the product of two floats. *)
Definition float_of_int (n : Z) : Q := binary64 (inject_Z n).
Definition float_mul (a b : Q) : Q := binary64 (a * b).

(** [a < b] on floats. *)
Definition Qlt_bool (a b : Q) : bool := negb (Qle_bool b a).

(** Rounding over the whole range of finite doubles: below [2^-1022] the
    doubles are the multiples of [2^-1074], so that a value of magnitude at
    most [2^-1075] rounds to zero. *)
Definition binary64_full (x : Q) : Q :=
  if Qlt_bool (Qabs x) (Qpower 2 (-1022))
  then inject_Z (round_half_even (x * Qpower 2 1074)) / Qpower 2 1074
  else binary64 x.

(** [float(n)] as Python evaluates it: an [int] whose nearest double would
    be [2^1024] or beyond raises [OverflowError]. *)
Definition float_of_int_checked (n : Z) : option Q :=
  let x := float_of_int n in
  if Qlt_bool (Qabs x) (Qpower 2 1024) then Some x else None.

(** [1 / n] for an [int] [n] other than 0: the quotient of two [int]s is
    the nearest double of the exact quotient, and here its magnitude is at
    most 1.  For [n <= -2^1075] the result is [-0.0] and for [n >= 2^1075] it
    is [0.0]; both are the rational 0. *)
Definition frame_delay (n : Z) : Q := binary64_full (1 / inject_Z n).

(** [int(x)] for a float: truncation toward zero. *)
Definition int_of_float (x : Q) : Z :=
  if Qle_bool 0 x then Qfloor x else Qceiling x.

(** The literal [0.2]. *)
Definition float_0_2 : Q := binary64 (2 # 10).

(** [int(len(all_files) * 0.2)] *)
Definition files_to_delete_of (len : nat) : nat :=
  Z.to_nat (int_of_float (float_mul (float_of_int (Z.of_nat len)) float_0_2)).

(** ** [CONFIG] *)

Record config : Type := mk_config {
  fps : Z;
  resolution : Z * Z;
  storage_path : string;
  high_water_mark_gb : Z;
  detection_confidence : Q;
  motion_threshold : Z;
  cooldown_seconds : Z
}.

(** The dictionary literal at the top of [app.py]. *)
Definition CONFIG0 : config := {|
  fps := 2;
  resolution := (1280, 720);
  storage_path := "~/pet-door-data";
  high_water_mark_gb := 10;
  detection_confidence := 5 # 10;
  motion_threshold := 30;
  cooldown_seconds := 5
|}.

Definition set_fps (v : Z) (c : config) : config :=
  {| fps := v; resolution := resolution c; storage_path := storage_path c;
     high_water_mark_gb := high_water_mark_gb c;
     detection_confidence := detection_confidence c;
     motion_threshold := motion_threshold c;
     cooldown_seconds := cooldown_seconds c |}.

Definition set_high_water_mark_gb (v : Z) (c : config) : config :=
  {| fps := fps c; resolution := resolution c; storage_path := storage_path c;
     high_water_mark_gb := v;
     detection_confidence := detection_confidence c;
     motion_threshold := motion_threshold c;
     cooldown_seconds := cooldown_seconds c |}.

Definition set_detection_confidence (v : Q) (c : config) : config :=
  {| fps := fps c; resolution := resolution c; storage_path := storage_path c;
     high_water_mark_gb := high_water_mark_gb c;
     detection_confidence := v;
     motion_threshold := motion_threshold c;
     cooldown_seconds := cooldown_seconds c |}.

(** ** The OpenCV operations used by the program

    Images are kept abstract: [frame] is a colour array as returned by the
    camera, [gray] a single-channel array.  The operations are the calls
    made in [detect_motion] and [monitoring_loop]. *)

Class CV2 (frame gray : Type) : Type := {
  (** [cv2.cvtColor(frame, cv2.COLOR_RGB2BGR)] *)
  cvtColor_RGB2BGR : frame -> frame;
  (** [cv2.cvtColor(frame, cv2.COLOR_BGR2GRAY)] *)
  cvtColor_BGR2GRAY : frame -> gray;
  (** [cv2.GaussianBlur(gray, (k, k), 0)] *)
  GaussianBlur : gray -> Z -> gray;
  absdiff : gray -> gray -> gray;
  (** [cv2.threshold(src, thresh, maxval, cv2.THRESH_BINARY)[1]] *)
  threshold_binary : gray -> Z -> Z -> gray;
  (** [cv2.addWeighted(src1, alpha, src2, beta, gamma)] *)
  addWeighted : gray -> Q -> gray -> Q -> Q -> gray;
  countNonZero : gray -> Z;
  (** [frame.shape[0]] and [frame.shape[1]] *)
  shape0 : frame -> Z;
  shape1 : frame -> Z
}.

(** ** YOLO results, as [detect_pets] reads them *)

(** One detection box: [int(box.cls[0])], [float(box.conf[0])],
    [box.xyxy[0].tolist()]. *)
Record box : Type := mk_box {
  cls : Z;
  conf : Q;
  xyxy : list Q
}.

(** One element of [results]: [result.boxes] and the [result.names]
    dictionary from class ids to class names. *)
Record yolo_result : Type := mk_yolo_result {
  boxes : list box;
  names : gmap Z string
}.

(** ** Results of fallible calls *)

Inductive result (A : Type) : Type :=
| Ok (a : A)
| Raise (ex : exn).
Arguments Ok {A} a.
Arguments Raise {A} ex.

(** What a write to the disk did.
    - [Written]: the file now holds the content, with the given size and
      modification time.
    - [NotWritten]: nothing was written and no exception was raised
      ([cv2.imwrite] returning [False]).
    - [WriteRaised]: an exception was raised before the file was created or
      changed ([open(meta_filepath, 'w')] raising).
    - [WriteTruncated]: the file was created, or an existing file was cut to
      length 0, and it holds only a part of the content, possibly none, when
      the exception was raised ([open(meta_filepath, 'w')] returned and
      [json.dump] or the closing of the file raised). *)
Inductive write_outcome : Type :=
| Written (size : Z) (mtime : Q)
| NotWritten
| WriteRaised (ex : exn)
| WriteTruncated (size : Z) (mtime : Q) (ex : exn).

(** The exception that a write raised, if it raised one. *)
Definition outcome_raised (o : write_outcome) : option exn :=
  match o with
  | Written _ _ | NotWritten => None
  | WriteRaised ex | WriteTruncated _ _ ex => Some ex
  end.

(** JSON values, as the program looks at them: the value of a key of a
    request body or of a metadata file.  Numbers are finite; of an array or
    an object nothing but its kind is looked at. *)
Inductive json : Type :=
| JNull
| JBool (b : bool)
| JInt (n : Z)
| JFloat (x : Q)
| JString (s : string)
| JArray
| JObject.

(** What the program prints, and its calls of [time.sleep]. *)
Inductive event : Type :=
| Sleep (seconds : Q)
| PrintCleaningUp (usage : Q)
| PrintErrorDeleting (p : path) (ex : exn)
| PrintCleanupComplete (usage : Q)
| PrintSaved (category filename : string) (n : nat)
| PrintLoopError (ex : exn).

Section Program.
Context {frame gray : Type} {cv : CV2 frame gray}.

(** ** The storage directory *)

(** What a file holds, as far as the program can tell: an image, the
    metadata dictionary that [save_detection] dumps, another JSON object
    (of which [get_detections] reads the ['timestamp'] key only, here with
    the value of that key, if the object has it), a JSON document that is
    not an object, or bytes that are no JSON document. *)
Inductive file_body : Type :=
| Jpeg (img : frame)
| JsonDoc (md : metadata)
| JsonObject (timestamp : option json)
| JsonOther
| Blob.

(** [st_size] is [os.path.getsize], [st_mtime] is [os.path.getmtime]. *)
Record file : Type := mk_file {
  st_size : Z;
  st_mtime : Q;
  body : file_body
}.

(** ** Global state *)

Record world : Type := mk_world {
  CONFIG : config;
  last_detection_time : Q;
  detection_active : bool;
  background_frame : option gray;
  storage : gmap path file;
  trace : list event
}.

(** The globals as the module initialises them, over a given directory. *)
Definition world0 (s : gmap path file) : world := {|
  CONFIG := CONFIG0;
  last_detection_time := 0;
  detection_active := true;
  background_frame := None;
  storage := s;
  trace := []
|}.

Definition with_CONFIG (c : config) (w : world) : world :=
  {| CONFIG := c; last_detection_time := last_detection_time w;
     detection_active := detection_active w;
     background_frame := background_frame w;
     storage := storage w; trace := trace w |}.

Definition with_last_detection_time (t : Q) (w : world) : world :=
  {| CONFIG := CONFIG w; last_detection_time := t;
     detection_active := detection_active w;
     background_frame := background_frame w;
     storage := storage w; trace := trace w |}.

Definition with_detection_active (b : bool) (w : world) : world :=
  {| CONFIG := CONFIG w; last_detection_time := last_detection_time w;
     detection_active := b;
     background_frame := background_frame w;
     storage := storage w; trace := trace w |}.

Definition with_background_frame (g : option gray) (w : world) : world :=
  {| CONFIG := CONFIG w; last_detection_time := last_detection_time w;
     detection_active := detection_active w;
     background_frame := g;
     storage := storage w; trace := trace w |}.

Definition with_storage (s : gmap path file) (w : world) : world :=
  {| CONFIG := CONFIG w; last_detection_time := last_detection_time w;
     detection_active := detection_active w;
     background_frame := background_frame w;
     storage := s; trace := trace w |}.

Definition with_trace (t : list event) (w : world) : world :=
  {| CONFIG := CONFIG w; last_detection_time := last_detection_time w;
     detection_active := detection_active w;
     background_frame := background_frame w;
     storage := storage w; trace := t |}.

(** ** What one pass of the loop obtains from outside *)

Record tick_env : Type := mk_tick_env {
  (** [camera.capture_array()] *)
  capture_array : result frame;
  (** [time.time()] *)
  time_time : Q;
  (** [model(frame, conf=...)] *)
  model_call : frame -> Q -> result (list yolo_result);
  (** [datetime.now()] *)
  datetime_now : datetime;
  (** [cv2.imwrite(str(filepath), frame)]; its return value is not looked
      at by the program *)
  imwrite_outcome : write_outcome;
  (** [with open(meta_filepath, 'w') as f: json.dump(metadata, f, indent=2)] *)
  json_dump_outcome : write_outcome;
  (** [os.remove(p)]: [Some ex] when the removal raises [ex] *)
  os_remove_raises : path -> option exn
}.

(** ** The state-and-exception monad

    The world reached when an exception is raised is kept: assignments to
    globals and files written before the exception stay. *)

Definition M (A : Type) : Type := world -> result A * world.

Definition ret {A : Type} (a : A) : M A := fun w => (Ok a, w).

Definition raise {A : Type} (ex : exn) : M A := fun w => (Raise ex, w).

Definition bind {A B : Type} (m : M A) (k : A -> M B) : M B :=
  fun w =>
    match m w with
    | (Ok a, w') => k a w'
    | (Raise ex, w') => (Raise ex, w')
    end.

(** [try: m except Exception as ex: handler ex] *)
Definition try_except {A : Type} (m : M A) (handler : exn -> M A) : M A :=
  fun w =>
    match m w with
    | (Ok a, w') => (Ok a, w')
    | (Raise ex, w') => handler ex w'
    end.

Definition gets {A : Type} (f : world -> A) : M A := fun w => (Ok (f w), w).

Definition modify (f : world -> world) : M unit := fun w => (Ok tt, f w).

Definition of_result {A : Type} (r : result A) : M A := fun w => (r, w).

Notation "'let*' x ':=' m 'in' k" := (bind m (fun x => k))
  (at level 10, x name, m at level 100, k at level 200).
Notation "m '>>' k" := (bind m (fun _ => k))
  (at level 100, k at level 200, right associativity).

(** [for x in l: body x] *)
Fixpoint for_each {A : Type} (l : list A) (body_of : A -> M unit) : M unit :=
  match l with
  | [] => ret tt
  | x :: rest => body_of x >> for_each rest body_of
  end.

Definition print (ev : event) : M unit :=
  modify (fun w => with_trace (trace w ++ [ev]) w).

(** [time.sleep(seconds)] *)
Definition time_sleep (seconds : Q) : M unit :=
  if Qle_bool 0 seconds then print (Sleep seconds) else raise ValueError.

(** [time.sleep(1 / CONFIG['fps'])] *)
Definition sleep_one_frame : M unit :=
  let* c := gets CONFIG in
  if fps c =? 0 then raise ZeroDivisionError
  else time_sleep (frame_delay (fps c)).

(** ** [get_storage_usage_gb] *)

(** [os.walk(CONFIG['storage_path'])], flattened: every file below the
    storage root with its path.  The order in which the files come is the
    order of [map_to_list]. *)
Definition os_walk (s : gmap path file) : list (path * file) := map_to_list s.

(** The sum of [os.path.getsize] over the walk, and its value in GiB:
    [total_size / (1024 ** 3)], the quotient of two [int]s, which is the
    double nearest to the exact quotient.  From [2^53] bytes on the double
    differs from the exact quotient.  The sizes are those of files (an
    [off_t] each), so the quotient is far below the largest double and the
    division cannot raise [OverflowError]; a total of 0 gives 0.0 and every
    other total a quotient of magnitude at least [2^-30], in the normal
    range. *)
Definition total_size (s : gmap path file) : Z :=
  foldl (fun acc pf => acc + st_size (snd pf)) 0 (os_walk s).

Definition usage_gb (s : gmap path file) : Q :=
  binary64 (inject_Z (total_size s) / inject_Z (1024 ^ 3))%Q.

Definition get_storage_usage_gb : M Q :=
  let* s := gets storage in
  ret (usage_gb s).

(** ** [cleanup_old_files] *)

(** The list [all_files] of [(filepath, os.path.getmtime(filepath))] for the
    names that end in [.jpg]. *)
Definition jpg_files (s : gmap path file) : list (path * Q) :=
  omap (fun pf : path * file =>
          if endswith (snd (fst pf)) ".jpg"
          then Some (fst pf, st_mtime (snd pf)) else None)
       (os_walk s).

(** [all_files.sort(key=lambda x: x[1])]: a stable sort, ascending. *)
Fixpoint insert_by_mtime (x : path * Q) (l : list (path * Q)) : list (path * Q) :=
  match l with
  | [] => [x]
  | y :: rest =>
      if Qle_bool (snd x) (snd y) then x :: y :: rest
      else y :: insert_by_mtime x rest
  end.

Definition sort_by_mtime (l : list (path * Q)) : list (path * Q) :=
  foldr insert_by_mtime [] l.

(** [os.remove(p)] *)
Definition os_remove (e : tick_env) (p : path) : M unit :=
  match os_remove_raises e p with
  | Some ex => raise ex
  | None =>
      let* s := gets storage in
      match s !! p with
      | None => raise OSError
      | Some _ => modify (fun w => with_storage (delete p (storage w)) w)
      end
  end.

(** The batch that a cleanup pass tries to remove:
    [all_files[:files_to_delete]] after the sort. *)
Definition cleanup_batch (s : gmap path file) : list (path * Q) :=
  let all_files := sort_by_mtime (jpg_files s) in
  take (files_to_delete_of (length all_files)) all_files.

Definition cleanup_old_files (e : tick_env) : M unit :=
  let* current_usage := get_storage_usage_gb in
  let* c := gets CONFIG in
  if Qle_bool current_usage (inject_Z (high_water_mark_gb c)) then ret tt
  else
    print (PrintCleaningUp current_usage) >>
    let* s := gets storage in
    for_each (cleanup_batch s)
      (fun x => try_except (os_remove e (fst x))
                  (fun ex => print (PrintErrorDeleting (fst x) ex))) >>
    let* new_usage := get_storage_usage_gb in
    print (PrintCleanupComplete new_usage).

(** ** [detect_motion]

    [(motion_pixels / frame_pixels) * 100]: the quotient of the two [int]s
    is a double, and so is its product with 100: 7 changed pixels of 100
    give 7.000000000000001. *)

Definition detect_motion (frame_bgr : frame) : M bool :=
  let gray0 := cvtColor_BGR2GRAY frame_bgr in
  let gray1 := GaussianBlur gray0 21 in
  let* bg := gets background_frame in
  match bg with
  | None =>
      modify (with_background_frame (Some gray1)) >>
      ret false
  | Some background =>
      let frame_delta := absdiff background gray1 in
      let thresh := threshold_binary frame_delta 25 255 in
      modify (with_background_frame
                (Some (addWeighted background (9 # 10) gray1 (1 # 10) 0))) >>
      let motion_pixels := countNonZero thresh in
      let frame_pixels := shape0 frame_bgr * shape1 frame_bgr in
      if frame_pixels =? 0 then raise ZeroDivisionError
      else
        let motion_percent :=
          binary64_full
            (binary64_full (inject_Z motion_pixels / inject_Z frame_pixels)
             * 100)%Q in
        let* c := gets CONFIG in
        ret (Qlt_bool (inject_Z (motion_threshold c)) motion_percent)
  end.

(** ** [detect_pets] *)

(** The body of the inner loop: one box of one result. *)
Definition detect_pets_box (r : yolo_result) (b : box)
    (detected_pets : list pet) : M (list pet) :=
  let class_id := cls b in
  match names r !! class_id with
  | None => raise KeyError
  | Some class_name =>
      let confidence_ := conf b in
      if String.eqb class_name "cat" || String.eqb class_name "dog"
      then ret (detected_pets ++
                  [{| type := class_name; confidence := confidence_;
                      bbox := xyxy b |}])
      else ret detected_pets
  end.

Fixpoint detect_pets_boxes (r : yolo_result) (bs : list box)
    (detected_pets : list pet) : M (list pet) :=
  match bs with
  | [] => ret detected_pets
  | b :: rest =>
      let* acc := detect_pets_box r b detected_pets in
      detect_pets_boxes r rest acc
  end.

Fixpoint detect_pets_results (results : list yolo_result)
    (detected_pets : list pet) : M (list pet) :=
  match results with
  | [] => ret detected_pets
  | r :: rest =>
      let* acc := detect_pets_boxes r (boxes r) detected_pets in
      detect_pets_results rest acc
  end.

Definition detect_pets (e : tick_env) (frame_bgr : frame) : M (list pet) :=
  let* c := gets CONFIG in
  let* results := of_result (model_call e frame_bgr (detection_confidence c)) in
  detect_pets_results results [].

(** ** [save_detection] *)

(** A write to the disk with the outcome that the environment reports.  A
    file that was cut short holds no document that can be read back. *)
Definition write_file (outcome : write_outcome) (p : path) (b : file_body) : M unit :=
  match outcome with
  | Written size mtime =>
      modify (fun w =>
        with_storage
          (<[p := {| st_size := size; st_mtime := mtime; body := b |}]> (storage w)) w)
  | NotWritten => ret tt
  | WriteRaised ex => raise ex
  | WriteTruncated size mtime ex =>
      modify (fun w =>
        with_storage
          (<[p := {| st_size := size; st_mtime := mtime; body := Blob |}]>
             (storage w)) w) >>
      raise ex
  end.

Definition save_detection (e : tick_env) (frame_bgr : frame) (pets : list pet)
    : M path :=
  let timestamp := datetime_now e in
  let category := category_of pets in
  let filename := strftime_jpg timestamp in
  let filepath : path := (category, filename) in
  write_file (imwrite_outcome e) filepath (Jpeg frame_bgr) >>
  let meta_filepath := with_suffix filepath ".json" in
  let metadata_ :=
    {| md_timestamp := isoformat timestamp; md_category := category;
       md_detections := pets; md_filename := filename |} in
  write_file (json_dump_outcome e) meta_filepath (JsonDoc metadata_) >>
  print (PrintSaved category filename (length pets)) >>
  ret filepath.

(** ** [monitoring_loop] *)

(** The debounce test of the loop:
    [current_time - last_detection_time < CONFIG['cooldown_seconds']].
    [last_detection_time] is 0 or an earlier reading of [time.time()];
    the difference of two readings of the clock that are less than a factor
    of two apart, and the difference with 0, are exact in doubles, so the
    difference is taken exactly. *)
Definition in_cooldown (current_time last : Q) (c : config) : bool :=
  Qlt_bool (current_time - last) (inject_Z (cooldown_seconds c)).

(** The [try] block of the loop body. *)
Definition try_block (e : tick_env) : M unit :=
  let* frame_rgb := of_result (capture_array e) in
  let frame_bgr := cvtColor_RGB2BGR frame_rgb in
  let* motion := detect_motion frame_bgr in
  if motion then
    let current_time := time_time e in
    let* last := gets last_detection_time in
    let* c := gets CONFIG in
    if in_cooldown current_time last c
    then sleep_one_frame            (* continue *)
    else
      let* pets := detect_pets e frame_bgr in
      (if negb (Nat.eqb (length pets) 0) || true then
         save_detection e frame_bgr pets >>
         modify (with_last_detection_time current_time) >>
         cleanup_old_files e
       else ret tt) >>
      sleep_one_frame
  else sleep_one_frame.

(** One pass through the body of [while True]. *)
Definition iteration (e : tick_env) : M unit :=
  let* active := gets detection_active in
  if negb active then time_sleep 1    (* continue *)
  else
    try_except (try_block e)
      (fun ex => print (PrintLoopError ex) >> time_sleep 1).

(** The loop, run over the environments of its successive passes.  An
    exception that escaped a pass would end the loop. *)
Fixpoint monitoring_loop (envs : list tick_env) : M unit :=
  match envs with
  | [] => ret tt
  | e :: rest => iteration e >> monitoring_loop rest
  end.

(** ** The REST handlers that change the state *)

(** [toggle_detection] *)
Definition toggle_detection : M bool :=
  modify (fun w => with_detection_active (negb (detection_active w)) w) >>
  gets detection_active.

(** [delete_detection]: [true] for the success response, [false] for the
    response with status 500. *)
Definition delete_detection (e : tick_env) (category image_id : string) : M bool :=
  let img_path : path := (category, image_id +:+ ".jpg") in
  let meta_path : path := (category, image_id +:+ ".json") in
  try_except
    ((let* s := gets storage in
      if bool_decide (is_Some (s !! img_path)) then os_remove e img_path
      else ret tt) >>
     (let* s := gets storage in
      if bool_decide (is_Some (s !! meta_path)) then os_remove e meta_path
      else ret tt) >>
     ret true)
    (fun _ => ret false).

Inductive http_method : Type := GET | POST.

Section Conversions.
(** [int(s)] and [float(s)] for a string [s]; [None] when Python raises
    [ValueError]. *)
Variable int_of_str : string -> option Z.
Variable float_of_str : string -> option Q.

(** [int(v)] *)
Definition py_int (v : json) : result Z :=
  match v with
  | JInt n => Ok n
  | JBool b => Ok (if b then 1 else 0)
  | JFloat x => Ok (int_of_float x)
  | JString s =>
      match int_of_str s with Some n => Ok n | None => Raise ValueError end
  | JNull | JArray | JObject => Raise TypeError
  end.

(** [float(v)] *)
Definition py_float (v : json) : result Q :=
  match v with
  | JInt n =>
      match float_of_int_checked n with
      | Some x => Ok x
      | None => Raise OverflowError
      end
  | JBool b => Ok (if b then 1 else 0)%Q
  | JFloat x => Ok x
  | JString s =>
      match float_of_str s with Some x => Ok x | None => Raise ValueError end
  | JNull | JArray | JObject => Raise TypeError
  end.

(** The values of the [CONFIG] dictionary, as far as the JSON provider of
    Flask tells them apart: it has rules for numbers and for tuples, and
    raises [TypeError] for an object it has no rule for.  [storage_path] is
    a [pathlib.Path], for which it has none. *)
Inductive config_value : Type :=
| CInt (n : Z)
| CFloat (x : Q)
| CPair (a b : Z)
| CPath (p : string).

Definition CONFIG_items (c : config) : list (string * config_value) :=
  [ ("fps", CInt (fps c));
    ("resolution", CPair (fst (resolution c)) (snd (resolution c)));
    ("storage_path", CPath (storage_path c));
    ("high_water_mark_gb", CInt (high_water_mark_gb c));
    ("detection_confidence", CFloat (detection_confidence c));
    ("motion_threshold", CInt (motion_threshold c));
    ("cooldown_seconds", CInt (cooldown_seconds c)) ].

Definition serialisable (v : config_value) : bool :=
  match v with
  | CInt _ | CFloat _ | CPair _ _ => true
  | CPath _ => false
  end.

(** [jsonify(...)] on a response that holds these items: the items that
    are sent, or the [TypeError] of the first value without a rule. *)
Definition jsonify (items : list (string * config_value))
    : result (list (string * config_value)) :=
  if forallb (fun kv => serialisable (snd kv)) items then Ok items
  else Raise TypeError.

(** [handle_config]; [data] is [request.json].  The result is the
    configuration sent in the response; an exception that leaves the
    handler is the response with status 500. *)
Definition handle_config (method : http_method) (data : gmap string json)
    : M (list (string * config_value)) :=
  match method with
  | GET =>
      let* c := gets CONFIG in
      of_result (jsonify (CONFIG_items c))
  | POST =>
      (match data !! "fps" with
       | Some v =>
           let* n := of_result (py_int v) in
           modify (fun w => with_CONFIG (set_fps n (CONFIG w)) w)
       | None => ret tt
       end) >>
      (match data !! "high_water_mark_gb" with
       | Some v =>
           let* n := of_result (py_int v) in
           modify (fun w => with_CONFIG (set_high_water_mark_gb n (CONFIG w)) w)
       | None => ret tt
       end) >>
      (match data !! "detection_confidence" with
       | Some v =>
           let* x := of_result (py_float v) in
           modify (fun w => with_CONFIG (set_detection_confidence x (CONFIG w)) w)
       | None => ret tt
       end) >>
      let* c := gets CONFIG in
      of_result (jsonify (CONFIG_items c))
  end.

(** ** The REST handlers that read the directory *)

(** [get_image]: the file that is sent, or [None] for the 404 response. *)
Definition get_image (category filename : string) : M (option file) :=
  let filepath : path := (category, filename) in
  let* s := gets storage in
  ret (s !! filepath).

(** What [json.load] returns for a file that [get_detections] appends: the
    metadata dictionary of [save_detection], or another JSON object, of
    which only the value under ['timestamp'] is read. *)
Inductive document : Type :=
| DocMetadata (md : metadata)
| DocObject (timestamp : option json).

(** [x['timestamp']]; [None] when the key is missing. *)
Definition doc_timestamp (d : document) : option json :=
  match d with
  | DocMetadata md => Some (JString (md_timestamp md))
  | DocObject timestamp => timestamp
  end.

(** One element of the list built by [get_detections]: the loaded
    dictionary with the two keys that the handler adds, ['id'] and
    ['image_url']. *)
Record listed : Type := mk_listed {
  listed_data : document;
  listed_id : string;
  listed_image_url : string
}.

(** The response of [get_detections]. *)
Record listing : Type := mk_listing {
  detections : list listed;
  total : nat
}.

(** [dir_path.glob('*.json')]: the files of the directory [dir_name] whose
    name ends in [.json].  A directory that does not exist is skipped by the
    handler and has no such files. *)
Definition glob_json (s : gmap path file) (dir_name : string)
    : list (path * file) :=
  map_to_list
    (filter (fun pf : path * file =>
               fst (fst pf) = dir_name /\ endswith (snd (fst pf)) ".json" = true)
            s).

(** The [try] block of the inner loop up to the [append]: [json.load(f)]
    raises a [ValueError] for bytes that are no JSON document, and the
    assignment [data['id'] = ...] raises [TypeError] for a document that is
    not an object. *)
Definition json_load (f : file) : result document :=
  match body f with
  | JsonDoc md => Ok (DocMetadata md)
  | JsonObject timestamp => Ok (DocObject timestamp)
  | JsonOther => Raise TypeError
  | Jpeg _ | Blob => Raise ValueError
  end.

(** The body of the inner loop for one metadata file: the entry that is
    appended, or nothing when reading it raised. *)
Definition listed_of (dir_name : string) (pf : path * file) : option listed :=
  match json_load (snd pf) with
  | Ok data =>
      let meta_stem := stem (snd (fst pf)) in
      Some {| listed_data := data;
              listed_id := meta_stem;
              listed_image_url :=
                "/api/image/" +:+ dir_name +:+ "/" +:+ meta_stem +:+ ".jpg" |}
  | Raise _ => None
  end.

(** The line printed by the [except] branch for one metadata file. *)
Definition read_error_of (pf : path * file) : option (path * exn) :=
  match json_load (snd pf) with
  | Ok _ => None
  | Raise ex => Some (fst pf, ex)
  end.

(** The sort key [x['timestamp']] of an entry, and the key when it is a
    string. *)
Definition timestamp_key (x : listed) : option json :=
  doc_timestamp (listed_data x).

Definition string_key (x : listed) : option string :=
  match timestamp_key x with
  | Some (JString s) => Some s
  | _ => None
  end.

Definition timestamp_string (x : listed) : string := default "" (string_key x).

(** The order that [sort(..., reverse=True)] gives to entries whose keys
    are strings: a stable sort, descending. *)
Fixpoint insert_by_timestamp (x : listed) (l : list listed) : list listed :=
  match l with
  | [] => [x]
  | y :: rest =>
      if String.leb (timestamp_string y) (timestamp_string x)
      then x :: y :: rest
      else y :: insert_by_timestamp x rest
  end.

Definition sort_by_timestamp (l : list listed) : list listed :=
  foldr insert_by_timestamp [] l.

(** What Python makes of a list of two or more entries whose keys are not
    all strings: it orders numbers and raises [TypeError] where two keys
    cannot be compared.  Left open. *)
Variable sort_other : list listed -> result (list listed).

(** [detections.sort(key=lambda x: x['timestamp'], reverse=True)].  The
    keys are computed first, for every entry, so that an entry without the
    key raises [KeyError] whatever the length of the list. *)
Definition sort_detections (l : list listed) : result (list listed) :=
  if forallb (fun x => bool_decide (is_Some (timestamp_key x))) l then
    if forallb (fun x => bool_decide (is_Some (string_key x))) l
    then Ok (sort_by_timestamp l)
    else match l with
         | [] | [_] => Ok l
         | _ :: _ :: _ => sort_other l
         end
  else Raise KeyError.

(** [l[:limit]] *)
Definition slice_to {A : Type} (l : list A) (limit : Z) : list A :=
  if 0 <=? limit then take (Z.to_nat limit) l
  else take (length l - Z.to_nat (- limit)) l.

(** [int(request.args.get('limit', 100))] *)
Definition limit_arg (limit : option string) : result Z :=
  match limit with
  | None => Ok 100
  | Some text => py_int (JString text)
  end.

(** The directories that [get_detections] visits. *)
Definition listed_dirs (category : string) : list string :=
  if String.eqb category "all" then ["cats"; "dogs"; "unknown"]
  else [category].

(** The list [detections] before the sort. *)
Definition collect_detections (s : gmap path file) (dirs : list string)
    : list listed :=
  concat (map (fun dir_name => omap (listed_of dir_name) (glob_json s dir_name))
              dirs).

(** [get_detections] on the directory [s]; [category] and [limit] are the
    query arguments, [None] when absent.  The second component holds the
    files for which "Error reading" is printed.  The handler reads the
    directory and changes nothing; an exception that leaves it is the
    response with status 500. *)
Definition get_detections (category limit : option string)
    (s : gmap path file) : result listing * list (path * exn) :=
  let category_ := default "all" category in
  match limit_arg limit with
  | Raise ex => (Raise ex, [])
  | Ok limit_ =>
      let dirs := listed_dirs category_ in
      let found := collect_detections s dirs in
      let printed :=
        concat (map (fun dir_name => omap read_error_of (glob_json s dir_name))
                    dirs) in
      match sort_detections found with
      | Raise ex => (Raise ex, printed)
      | Ok sorted =>
          (Ok {| detections := slice_to sorted limit_;
                 total := length found |},
           printed)
      end
  end.

End Conversions.

End Program.

Arguments file_body frame : clear implicits.
Arguments file frame : clear implicits.
Arguments world frame gray : clear implicits.
Arguments tick_env frame : clear implicits.
Arguments M frame gray A : clear implicits.

(** ** Definitions used to state the properties *)

(** The category as the specification words it: cats if any detection is a
    cat, else dogs if any is a dog, else unknown. *)
Definition spec_category (pets : list pet) : string :=
  if decide (Exists (fun p => type p = "cat") pets) then "cats"
  else if decide (Exists (fun p => type p = "dog") pets) then "dogs"
  else "unknown".

(** Descending order of the timestamps of two listed entries. *)
Definition timestamp_ge (x y : listed) : Prop :=
  String.leb (timestamp_string y) (timestamp_string x) = true.

(** The entry that [get_detections] makes of the metadata [md] stored
    under the name [n] of the directory [dir_name]. *)
Definition entry_of (dir_name n : string) (md : metadata) : listed :=
  {| listed_data := DocMetadata md;
     listed_id := stem n;
     listed_image_url :=
       "/api/image/" +:+ dir_name +:+ "/" +:+ stem n +:+ ".jpg" |}.

(** No character of the name is a dot. *)
Fixpoint no_dot (s : string) : bool :=
  match s with
  | EmptyString => true
  | String c rest => negb (Ascii.eqb c ".") && no_dot rest
  end.

(** The detection that [detect_pets] makes of one box: none for a class
    other than cat and dog. *)
Definition pet_of_box (r : yolo_result) (b : box) : option pet :=
  match names r !! cls b with
  | Some class_name =>
      if String.eqb class_name "cat" || String.eqb class_name "dog"
      then Some {| type := class_name; confidence := conf b; bbox := xyxy b |}
      else None
  | None => None
  end.

Definition pets_of_results (results : list yolo_result) : list pet :=
  concat (map (fun r => omap (pet_of_box r) (boxes r)) results).

(** The class of every box is a key of the [names] of its result. *)
Definition class_known (r : yolo_result) (b : box) : Prop :=
  is_Some (names r !! cls b).

Definition classes_known (results : list yolo_result) : Prop :=
  Forall (fun r => Forall (class_known r) (boxes r)) results.

(** Every box that the model returned has at least the given confidence. *)
Definition model_honours (c : Q) (results : list yolo_result) : Prop :=
  Forall (fun r => Forall (fun b => (c <= conf b)%Q) (boxes r)) results.

(** The specification gives no ranges for the three settings.  These are
    the widest ones under which the values make sense to the loop: a
    positive frame rate (the loop sleeps [1 / fps] seconds), a mark that is
    not negative, and a confidence between 0 and 1. *)
Definition fps_in_range (n : Z) : bool := 1 <=? n.
Definition high_water_mark_in_range (n : Z) : bool := 0 <=? n.
Definition confidence_in_range (x : Q) : bool := Qle_bool 0 x && Qle_bool x 1.

Section Specification.
Context {frame gray : Type}.

(** The directory after the removals of a batch: a path whose removal
    raises stays. *)
Definition remove_all (e : tick_env frame) (batch : list path)
    (s : gmap path (file frame)) : gmap path (file frame) :=
  foldl (fun acc p =>
           match os_remove_raises e p with
           | Some _ => acc
           | None => delete p acc
           end) s batch.

(** The globals other than the directory and the printed output are the
    same in both worlds. *)
Definition same_globals (w w' : world frame gray) : Prop :=
  CONFIG w' = CONFIG w /\
  last_detection_time w' = last_detection_time w /\
  detection_active w' = detection_active w /\
  background_frame w' = background_frame w.

(** Only [background_frame] may differ between the two worlds. *)
Definition same_but_background (w w' : world frame gray) : Prop :=
  CONFIG w' = CONFIG w /\
  last_detection_time w' = last_detection_time w /\
  detection_active w' = detection_active w /\
  storage w' = storage w /\
  trace w' = trace w.

(** The printed output of [w'] is that of [w] with lines added. *)
Definition trace_grows (w w' : world frame gray) : Prop :=
  exists evs, trace w' = trace w ++ evs.

(** One of the two writes of [save_detection] raises. *)
Definition write_raises (e : tick_env frame) : Prop :=
  is_Some (outcome_raised (imwrite_outcome e)) \/
  is_Some (outcome_raised (json_dump_outcome e)).

(** Ascending order of modification times. *)
Definition mtime_le (a b : path * Q) : Prop := (snd a <= snd b)%Q.

(** The storage usage exceeds the high-water mark. *)
Definition over_mark (w : world frame gray) : bool :=
  negb (Qle_bool (usage_gb (storage w))
                 (inject_Z (high_water_mark_gb (CONFIG w)))).

End Specification.

(** ** [mock_camera.py] *)

Module mock_camera.

(** The random numbers drawn by one [MockBox()]. *)
Record box_draw : Type := mk_box_draw {
  draw_cls : Z;      (* np.random.choice([15, 16]) *)
  draw_conf : Q;     (* np.random.uniform(0.5, 0.95) *)
  draw_x1 : Z;       (* np.random.randint(0, 1000) *)
  draw_y1 : Z;       (* np.random.randint(0, 600) *)
  draw_dx : Z;       (* np.random.randint(100, 300) *)
  draw_dy : Z        (* np.random.randint(100, 300) *)
}.

(** The random numbers drawn by one iteration over [MockBoxes]. *)
Record draws : Type := mk_draws {
  num_detections : nat;           (* np.random.choice([0, 0, 0, 1, 2]) *)
  box_draws : nat -> box_draw     (* the draws of the i-th MockBox() *)
}.

(** The draws are values that the random generators can return. *)
Definition box_draw_ok (d : box_draw) : bool :=
  ((draw_cls d =? 15) || (draw_cls d =? 16)) &&
  Qle_bool (5 # 10) (draw_conf d) && Qlt_bool (draw_conf d) (95 # 100) &&
  (0 <=? draw_x1 d) && (draw_x1 d <? 1000) &&
  (0 <=? draw_y1 d) && (draw_y1 d <? 600) &&
  (100 <=? draw_dx d) && (draw_dx d <? 300) &&
  (100 <=? draw_dy d) && (draw_dy d <? 300).

Definition draws_ok (d : draws) : bool :=
  (Nat.leb (num_detections d) 2) &&
  forallb (fun i => box_draw_ok (box_draws d i)) (seq 0 (num_detections d)).

Definition MockBox (d : box_draw) : box :=
  let x1 := draw_x1 d in
  let y1 := draw_y1 d in
  let x2 := x1 + draw_dx d in
  let y2 := y1 + draw_dy d in
  {| cls := draw_cls d; conf := draw_conf d;
     xyxy := [inject_Z x1; inject_Z y1; inject_Z x2; inject_Z y2] |}.

(** [MockBoxes.__iter__] *)
Definition MockBoxes (d : draws) : list box :=
  map (fun i => MockBox (box_draws d i)) (seq 0 (num_detections d)).

Definition MockResult (d : draws) : yolo_result :=
  {| boxes := MockBoxes d;
     names := <[15 := "cat"]> (<[16 := "dog"]> ∅) |}.

(** [MockYOLO.__call__(frame, conf=0.5)]: neither argument is used. *)
Definition MockYOLO {F : Type} (d : draws) (frame_ : F) (conf_ : Q)
    : result (list yolo_result) :=
  Ok [MockResult d].

(** [Picamera2.capture_array] *)
Definition capture_array {F : Type} (running : bool) (image : F) : result F :=
  if running then Ok image else Raise (RuntimeError "Camera not started").

(** The [Picamera2] object: its [running] attribute. *)
Record Picamera2 : Type := mk_Picamera2 { running : bool }.

(** [Picamera2()] *)
Definition Picamera2_new : Picamera2 := {| running := false |}.

Definition start (c : Picamera2) : Picamera2 := {| running := true |}.

Definition stop (c : Picamera2) : Picamera2 := {| running := false |}.

(** The frame size fixed in [capture_array]. *)
Definition height : Z := 720.
Definition width : Z := 1280.

(** The random numbers drawn by one [capture_array()]. *)
Record image_draw : Type := mk_image_draw {
  noise : Z -> Z -> Z -> Z;   (* np.random.randint(0, 50, (height, width, 3)) *)
  chance : Q;                 (* np.random.random() *)
  rect_x : Z;                 (* np.random.randint(0, width - 200) *)
  rect_y : Z                  (* np.random.randint(0, height - 200) *)
}.

(** The draws are values that the random generators can return. *)
Definition image_draw_ok (d : image_draw) : Prop :=
  (forall y x ch, 0 <= noise d y x ch < 50) /\
  (0 <= chance d)%Q /\ (chance d < 1)%Q /\
  0 <= rect_x d < width - 200 /\
  0 <= rect_y d < height - 200.

(** The colour [[200, 150, 100]] of the rectangle. *)
Definition rect_colour (ch : Z) : Z :=
  if ch =? 0 then 200 else if ch =? 1 then 150 else 100.

(** The array that [capture_array] builds: the value at row [y], column
    [x] and channel [ch].  The sum [image + noise] is a sum of unsigned
    bytes. *)
Definition capture_image (d : image_draw) (y x ch : Z) : Z :=
  let image := 0 in
  let image := (image + noise d y x ch) mod 256 in
  if Qlt_bool (7 # 10) (chance d)
     && (rect_y d <=? y) && (y <? rect_y d + 100)
     && (rect_x d <=? x) && (x <? rect_x d + 150)
  then rect_colour ch
  else image.

(** [Picamera2.capture_array] on a camera object. *)
Definition Picamera2_capture_array (c : Picamera2) (d : image_draw)
    : result (Z -> Z -> Z -> Z) :=
  capture_array (running c) (capture_image d).

End mock_camera.

(** ** [init_camera], with the camera of [mock_camera.py]

    The value returned and the global [camera] after the call.  None of
    the calls on the mock camera raises, so the [except] branch is not
    taken. *)
Definition init_camera : bool * mock_camera.Picamera2 :=
  let camera := mock_camera.Picamera2_new in
  let camera := mock_camera.start camera in
  (true, camera).

(** ** Test doubles and example data *)

(** A stand-in for OpenCV on one-row images: a frame is a row of
    intensities, conversions keep it, the blur is the identity. *)
Definition cv_rows : CV2 (list Z) (list Z) := {|
  cvtColor_RGB2BGR := fun f => f;
  cvtColor_BGR2GRAY := fun f => f;
  GaussianBlur := fun g _ => g;
  absdiff := fun a b => zip_with (fun x y => Z.abs (x - y)) a b;
  threshold_binary := fun g t maxval => map (fun x => if t <? x then maxval else 0) g;
  addWeighted := fun a alpha b beta gamma =>
    zip_with (fun x y =>
      Qfloor (alpha * inject_Z x + beta * inject_Z y + gamma + (1 # 2))) a b;
  countNonZero := fun g =>
    Z.of_nat (length (List.filter (fun x => negb (x =? 0)) g));
  shape0 := fun _ => 1;
  shape1 := fun f => Z.of_nat (length f)
|}.

(** Draws of one [capture_array()]: noise of 7 everywhere and a rectangle
    at column 300, row 200. *)
Definition rect_draw : mock_camera.image_draw := {|
  mock_camera.noise := fun _ _ _ => 7;
  mock_camera.chance := 9 # 10;
  mock_camera.rect_x := 300;
  mock_camera.rect_y := 200
|}.

(** The clock at 2024-01-01 12:mm:ss.uuuuuu. *)
Definition noon (mm ss us : Z) : datetime :=
  {| year := 2024; month := 1; day := 1;
     hour := 12; minute := mm; second := ss; microsecond := us |}.

(** An environment in which every stage works: the camera returns [f], the
    mock model draws [d], both writes succeed with the given sizes, and
    every removal succeeds. *)
Definition env_ok (f : list Z) (now : Q) (stamp : datetime)
    (d : mock_camera.draws) (image_size : Z) : tick_env (list Z) := {|
  capture_array := mock_camera.capture_array true f;
  time_time := now;
  model_call := mock_camera.MockYOLO d;
  datetime_now := stamp;
  imwrite_outcome := Written image_size now;
  json_dump_outcome := Written 300 now;
  os_remove_raises := fun _ => None
|}.

Definition no_draws : mock_camera.draws := {|
  mock_camera.num_detections := 0;
  mock_camera.box_draws := fun _ =>
    mock_camera.mk_box_draw 15 (6 # 10) 0 0 100 100
|}.

(** One cat with confidence 0.625. *)
Definition one_cat : mock_camera.draws := {|
  mock_camera.num_detections := 1;
  mock_camera.box_draws := fun _ =>
    mock_camera.mk_box_draw 15 (5 # 8) 10 20 100 150
|}.

(** The same environment with a model that raises. *)
Definition env_model_raises (f : list Z) (now : Q) (stamp : datetime)
    : tick_env (list Z) := {|
  capture_array := mock_camera.capture_array true f;
  time_time := now;
  model_call := fun _ _ => Raise (RuntimeError "inference failed");
  datetime_now := stamp;
  imwrite_outcome := Written 1000 now;
  json_dump_outcome := Written 300 now;
  os_remove_raises := fun _ => None
|}.

(** The initial globals over a directory of one-row images. *)
Definition rows_world (s : gmap path (file (list Z))) : world (list Z) (list Z) :=
  world0 s.

(** A bright frame in front of a dark background: every pixel differs
    from the background by more than the threshold of 25. *)
Definition bright : list Z := [200; 200; 200; 200].

Definition dark_world : world (list Z) (list Z) :=
  with_background_frame (Some [0; 0; 0; 0]) (rows_world ∅).

(** A pass at time 100 whose model call raises, and passes at times 100,
    100.5 and 104 in which every stage works. *)
Definition pass_model_raises : tick_env (list Z) :=
  env_model_raises bright 100 (noon 0 0 0).

Definition pass_100 : tick_env (list Z) :=
  env_ok bright 100 (noon 0 0 0) one_cat 1000.

Definition pass_100_5 : tick_env (list Z) :=
  env_ok bright (201 # 2) (noon 0 0 500000) one_cat 1000.

Definition pass_104 : tick_env (list Z) :=
  env_ok bright 104 (noon 0 4 0) one_cat 1000.

(** A pass at time 100 in which [cv2.imwrite] returns [False] and the
    metadata is written. *)
Definition pass_imwrite_false : tick_env (list Z) := {|
  capture_array := capture_array pass_100;
  time_time := time_time pass_100;
  model_call := model_call pass_100;
  datetime_now := datetime_now pass_100;
  imwrite_outcome := NotWritten;
  json_dump_outcome := json_dump_outcome pass_100;
  os_remove_raises := os_remove_raises pass_100
|}.

(** The same world after the frame rate has been set to 0. *)
Definition stalled_world : world (list Z) (list Z) :=
  with_CONFIG (set_fps 0 CONFIG0) dark_world.

(** A pass whose frame differs from the dark background by at most 20 in
    every pixel. *)
Definition pass_still : tick_env (list Z) :=
  env_ok [10; 0; 20; 5] 100 (noon 0 0 0) one_cat 1000.

(** Conversions of strings that accept nothing, for the examples that post
    numbers only. *)
Definition no_int : string -> option Z := fun _ => None.
Definition no_float : string -> option Q := fun _ => None.

(** A sort of keys that are not all strings which raises, for the examples
    whose keys are strings. *)
Definition no_sort : list listed -> result (list listed) :=
  fun _ => Raise TypeError.

(** A request that sets the three settings to a negative frame rate, a
    negative mark and a confidence of 7.5. *)
Definition bad_request : gmap string json :=
  <["fps" := JInt (-3)]>
    (<["high_water_mark_gb" := JInt (-1)]>
       (<["detection_confidence" := JFloat (15 # 2)]> ∅)).

(** A request with a frame rate of 5 and a mark that is not a number. *)
Definition partial_request : gmap string json :=
  <["fps" := JInt 5]> (<["high_water_mark_gb" := JString "ten"]> ∅).

(** A request that raises the confidence threshold to 0.75. *)
Definition threshold_request : gmap string json :=
  {["detection_confidence" := JFloat (3 # 4)]}.

(** Two writes in the second 12:00:00, at .1 s and at .9 s. *)
Definition first_write : tick_env (list Z) :=
  env_ok [1] 100 (noon 0 0 100000) no_draws 1000.

Definition second_write : tick_env (list Z) :=
  env_ok [2] (1009 # 10) (noon 0 0 900000) no_draws 2000.

(** A write whose image is stored and whose metadata file is opened and
    left empty when the dump raises. *)
Definition write_json_truncated : tick_env (list Z) := {|
  capture_array := capture_array first_write;
  time_time := time_time first_write;
  model_call := model_call first_write;
  datetime_now := datetime_now first_write;
  imwrite_outcome := imwrite_outcome first_write;
  json_dump_outcome := WriteTruncated 0 100 OSError;
  os_remove_raises := os_remove_raises first_write
|}.

(** The directory after the first of the two writes. *)
Definition one_pair : gmap path (file (list Z)) :=
  storage (snd (save_detection first_write ([1] : list Z) [] (rows_world ∅))).

(** The metadata of that entry and the file that holds it. *)
Definition one_pair_meta : metadata :=
  {| md_timestamp := isoformat (noon 0 0 100000);
     md_category := "unknown";
     md_detections := [];
     md_filename := "20240101_120000.jpg" |}.

Definition one_pair_meta_file : file (list Z) :=
  {| st_size := 300; st_mtime := 100; body := JsonDoc one_pair_meta |}.

(** Removals in which the metadata file of that entry cannot be removed. *)
Definition env_meta_locked : tick_env (list Z) := {|
  capture_array := capture_array first_write;
  time_time := time_time first_write;
  model_call := model_call first_write;
  datetime_now := datetime_now first_write;
  imwrite_outcome := imwrite_outcome first_write;
  json_dump_outcome := json_dump_outcome first_write;
  os_remove_raises := fun p =>
    if decide (p = ("unknown", "20240101_120000.json")) then Some OSError
    else None
|}.

(** An environment for a cleanup pass in which every removal succeeds. *)
Definition env_quiet : tick_env (list Z) :=
  env_ok ([] : list Z) 1704114000 (noon 59 0 0) no_draws 0.

(** The same, except that the removal of the oldest image raises. *)
Definition env_locked : tick_env (list Z) := {|
  capture_array := capture_array env_quiet;
  time_time := time_time env_quiet;
  model_call := model_call env_quiet;
  datetime_now := datetime_now env_quiet;
  imwrite_outcome := imwrite_outcome env_quiet;
  json_dump_outcome := json_dump_outcome env_quiet;
  os_remove_raises := fun p =>
    if decide (p = ("unknown", "20240101_120000.jpg")) then Some OSError
    else None
|}.

(** Ten writes, one per minute from 12:00:00, each image of 1.2 GiB: the
    directory holds ten pairs and 12 GiB. *)
Definition ten_writes : list (tick_env (list Z)) :=
  map (fun i : nat =>
         env_ok ([Z.of_nat i] : list Z) (inject_Z (1704110400 + 60 * Z.of_nat i))
                (noon (Z.of_nat i) 0 0) no_draws 1288490189)
      (seq 0 10).

(** Five writes of 3 GiB each in the night in which the local clock is set
    back from 02:00 to 01:00: the readings of [datetime.now()] are 01:30,
    01:40, 01:50, 01:05 and 01:15 while the modification times ascend. *)
Definition night (mm : Z) : datetime :=
  {| year := 2024; month := 11; day := 3;
     hour := 1; minute := mm; second := 0; microsecond := 0 |}.

Definition night_writes : list (tick_env (list Z)) :=
  [ env_ok ([1] : list Z) 1730615400 (night 30) no_draws 3221225472;
    env_ok ([2] : list Z) 1730616000 (night 40) no_draws 3221225472;
    env_ok ([3] : list Z) 1730616600 (night 50) no_draws 3221225472;
    env_ok ([4] : list Z) 1730617500 (night 5) no_draws 3221225472;
    env_ok ([5] : list Z) 1730618100 (night 15) no_draws 3221225472 ].

Definition night_pairs : gmap path (file (list Z)) :=
  storage (snd (for_each night_writes
                  (fun e => bind (save_detection e ([0] : list Z) []) (fun _ => ret tt))
                  (rows_world ∅))).

(** The first four of these entries: 12 GiB in four images. *)
Definition four_pairs : gmap path (file (list Z)) :=
  storage (snd (for_each (take 4 night_writes)
                  (fun e => bind (save_detection e ([0] : list Z) []) (fun _ => ret tt))
                  (rows_world ∅))).

Definition ten_pairs : gmap path (file (list Z)) :=
  storage (snd (for_each ten_writes
                  (fun e => bind (save_detection e ([0] : list Z) []) (fun _ => ret tt))
                  (rows_world ∅))).

(* ===================================================================== *)
(** * Part II.  Properties                                                *)
(* ===================================================================== *)

(** Unfolds the operations of the monad and projects the fields of
    updated worlds. *)
Ltac run :=
  unfold sleep_one_frame, time_sleep, print, bind, try_except, gets, modify,
    ret, raise, of_result in *;
  cbn [fst snd storage CONFIG last_detection_time detection_active
       background_frame trace with_trace with_storage with_CONFIG
       with_last_detection_time with_background_frame
       with_detection_active] in *.

(** ** The float product [len * 0.2] *)

Section Floats.
Local Open Scope Q_scope.

Lemma round_half_even_lower (x : Q) (m : Z) :
  inject_Z m <= x -> (m <= round_half_even x)%Z.
Proof.
  intros H. apply Qfloor_resp_le in H. rewrite Qfloor_Z in H.
  unfold round_half_even. cbv zeta.
  destruct (Qcompare _ _); [destruct (Z.even _)|..]; lia.
Qed.

Lemma round_half_even_upper (x : Q) :
  inject_Z (round_half_even x) <= x + (1 # 2).
Proof.
  unfold round_half_even. cbv zeta.
  pose proof (Qfloor_le x) as Hf.
  destruct (Qcompare (x - inject_Z (Qfloor x)) (1 # 2)) eqn:Hc.
  - apply Qeq_alt in Hc.
    destruct (Z.even _); [lra|].
    rewrite inject_Z_plus. change (inject_Z 1) with 1. lra.
  - lra.
  - apply Qgt_alt in Hc.
    rewrite inject_Z_plus. change (inject_Z 1) with 1. lra.
Qed.

Lemma pow2_pos (e : Z) : 0 < Qpower 2 e.
Proof. apply Qpower_0_lt. reflexivity. Qed.

Lemma binary64_pos_upper (x : Q) :
  binary64_pos x <= x + Qpower 2 (ilog2 x - 52) * (1 # 2).
Proof.
  unfold binary64_pos.
  set (P := Qpower 2 (ilog2 x - 52)).
  pose proof (pow2_pos (ilog2 x - 52)) as HP. fold P in HP.
  pose proof (round_half_even_upper (x / P)) as Hr.
  apply (Qmult_le_compat_r _ _ P) in Hr; [|lra].
  assert (Heq : (x / P + (1 # 2)) * P == x + P * (1 # 2)) by (field; lra).
  rewrite Heq in Hr. exact Hr.
Qed.

Lemma binary64_pos_lower (x : Q) (m : Z) :
  inject_Z m * Qpower 2 (ilog2 x - 52) <= x ->
  inject_Z m * Qpower 2 (ilog2 x - 52) <= binary64_pos x.
Proof.
  unfold binary64_pos.
  set (P := Qpower 2 (ilog2 x - 52)).
  pose proof (pow2_pos (ilog2 x - 52)) as HP. fold P in HP.
  intros H.
  apply Qmult_le_compat_r; [|lra].
  rewrite <- Zle_Qle. apply round_half_even_lower.
  apply Qle_shift_div_l; assumption.
Qed.

Lemma ilog2_lower (x : Q) : 0 < x -> Qpower 2 (ilog2 x) <= x.
Proof.
  intros Hx. unfold ilog2.
  destruct (Qle_bool _ x) eqn:Hb; [by apply Qle_bool_iff|].
  destruct x as [p q]. simpl Qnum. simpl Qden.
  assert (Hp : (0 < p)%Z).
  { unfold Qlt in Hx. simpl in Hx. lia. }
  set (a := Z.log2 p). set (b := Z.log2 (Z.pos q)).
  assert (Ha : (0 <= a)%Z) by apply Z.log2_nonneg.
  assert (Hb' : (0 <= b)%Z) by apply Z.log2_nonneg.
  destruct (Z.log2_spec p Hp) as [Hpa _]. fold a in Hpa.
  destruct (Z.log2_spec (Z.pos q) eq_refl) as [_ Hqb]. fold b in Hqb.
  replace (a - b - 1)%Z with (a - (b + 1))%Z by lia.
  rewrite Qpower_minus by discriminate.
  change (2 : Q) with (inject_Z 2).
  rewrite <- !Zpower_Qpower by lia.
  rewrite (Qmake_Qdiv p q).
  assert (H1 : 0 < inject_Z (2 ^ (b + 1))).
  { replace 0 with (inject_Z 0) by reflexivity. rewrite <- Zlt_Qlt. lia. }
  assert (H2 : 0 < inject_Z (Z.pos q)).
  { replace 0 with (inject_Z 0) by reflexivity. rewrite <- Zlt_Qlt. lia. }
  apply Qle_shift_div_l; [assumption|].
  assert (Heq : inject_Z (2 ^ a) / inject_Z (2 ^ (b + 1)) * inject_Z (Z.pos q)
                == inject_Z (2 ^ a * Z.pos q) / inject_Z (2 ^ (b + 1))).
  { rewrite inject_Z_mult. field. lra. }
  rewrite Heq. apply Qle_shift_div_r; [assumption|].
  rewrite <- inject_Z_mult, <- Zle_Qle.
  replace (Z.succ b) with (b + 1)%Z in Hqb by lia.
  nia.
Qed.

Lemma ilog2_lt (x : Q) (k : Z) : 0 < x -> x < Qpower 2 k -> (ilog2 x < k)%Z.
Proof.
  intros Hx Hk.
  apply (Qpower_lt_compat_l_inv 2); [|reflexivity].
  eapply Qle_lt_trans; [apply ilog2_lower, Hx|exact Hk].
Qed.

(** Rounding a positive value below [2^31]: integers below the value stay
    below the result, and the result exceeds the value by at most [2^-23]. *)
Lemma binary64_bounds (x : Q) (k : Z) :
  0 < x -> x < inject_Z (2 ^ 31) -> inject_Z k <= x ->
  inject_Z k <= binary64 x /\ binary64 x <= x + (1 # 8388608).
Proof.
  intros Hx Hlt Hk.
  assert (Hl : (ilog2 x < 31)%Z).
  { apply ilog2_lt; [assumption|]. exact Hlt. }
  unfold binary64. apply Qgt_alt in Hx as Hc. rewrite Hc.
  set (e := (ilog2 x - 52)%Z).
  assert (He : (e <= -22)%Z) by (unfold e; lia).
  pose proof (pow2_pos e) as HP.
  split.
  - assert (Hm : inject_Z (k * 2 ^ (- e)) * Qpower 2 e == inject_Z k).
    { rewrite inject_Z_mult, Zpower_Qpower by lia.
      rewrite Qpower_opp. change (inject_Z 2) with (2 : Q). field. lra. }
    rewrite <- Hm. apply binary64_pos_lower. fold e. rewrite Hm. exact Hk.
  - pose proof (binary64_pos_upper x) as Hu. fold e in Hu.
    assert (Hle : Qpower 2 e <= Qpower 2 (-22)).
    { apply Qpower_le_compat_l; [lia|discriminate]. }
    assert (H22 : Qpower 2 (-22) == 1 # 4194304) by reflexivity.
    lra.
Qed.

Lemma float_0_2_value : float_0_2 == 3602879701896397 # 18014398509481984.
Proof. vm_compute. reflexivity. Qed.

Lemma files_to_delete_of_fifth (len : nat) :
  (Z.of_nat len < 2 ^ 31)%Z -> files_to_delete_of len = (len / 5)%nat.
Proof.
  intros Hlen. unfold files_to_delete_of.
  set (n := Z.of_nat len).
  assert (Hn : (0 <= n < 2 ^ 31)%Z) by (unfold n; lia).
  replace (len / 5)%nat with (Z.to_nat (n / 5)).
  2:{ unfold n. rewrite <- (Nat2Z.id (len / 5)). f_equal.
      rewrite Nat2Z.inj_div. reflexivity. }
  f_equal.
  destruct (Z.eq_dec n 0%Z) as [H0 | Hn0]; [rewrite H0; reflexivity|].
  set (k := (n / 5)%Z).
  assert (Hk : (5 * k <= n < 5 * k + 5)%Z).
  { unfold k. pose proof (Z.div_mod n 5). pose proof (Z.mod_pos_bound n 5). lia. }
  assert (HnQ : 1 <= inject_Z n /\ inject_Z n <= 2147483647).
  { split.
    - replace 1 with (inject_Z 1) by reflexivity. rewrite <- Zle_Qle. lia.
    - replace 2147483647 with (inject_Z 2147483647) by reflexivity.
      rewrite <- Zle_Qle. lia. }
  assert (HkQ : 5 * inject_Z k <= inject_Z n /\ inject_Z n <= 5 * inject_Z k + 4).
  { split.
    - replace 5 with (inject_Z 5) by reflexivity.
      rewrite <- inject_Z_mult, <- Zle_Qle. lia.
    - replace 5 with (inject_Z 5) by reflexivity.
      replace 4 with (inject_Z 4) by reflexivity.
      rewrite <- inject_Z_mult, <- inject_Z_plus, <- Zle_Qle. lia. }
  assert (Hk0 : 0 <= inject_Z k).
  { replace 0 with (inject_Z 0) by reflexivity. rewrite <- Zle_Qle. lia. }
  (* float(len) *)
  destruct (binary64_bounds (inject_Z n) n) as [Ha1 Ha2].
  { lra. } { change (inject_Z (2 ^ 31)) with 2147483648. lra. } { lra. }
  fold (float_of_int n) in Ha1, Ha2.
  set (a := float_of_int n) in *.
  (* float(len) * 0.2 *)
  pose proof float_0_2_value as Hc.
  set (x := a * float_0_2).
  assert (Hx : x == a * (3602879701896397 # 18014398509481984)).
  { unfold x. rewrite Hc. reflexivity. }
  destruct (binary64_bounds x k) as [Hy1 Hy2].
  { lra. } { change (inject_Z (2 ^ 31)) with 2147483648. lra. } { lra. }
  change (float_mul a float_0_2) with (binary64 x).
  set (y := binary64 x) in *.
  unfold int_of_float.
  assert (Hy0 : 0 <= y) by lra.
  apply Qle_bool_iff in Hy0. rewrite Hy0.
  apply Z.le_antisymm.
  - apply Z.lt_succ_r. rewrite Zlt_Qlt.
    eapply Qle_lt_trans; [apply Qfloor_le|].
    unfold Z.succ. rewrite inject_Z_plus. change (inject_Z 1) with 1. lra.
  - apply Qfloor_resp_le in Hy1. rewrite Qfloor_Z in Hy1. exact Hy1.
Qed.
End Floats.

(** ** Categories *)

Section StorageFacts.
Context {frame gray : Type} {cv : CV2 frame gray}.

Lemma any_Exists {A : Type} (f : A -> bool) (l : list A) :
  any f l = true <-> Exists (fun x => f x = true) l.
Proof.
  unfold any. rewrite existsb_exists, Exists_exists.
  split; intros (x & Hx & Hfx); exists x; split; auto; by apply list_elem_of_In.
Qed.

Lemma any_type (name : string) (pets : list pet) :
  any (fun p => String.eqb (type p) name) pets = true
  <-> Exists (fun p => type p = name) pets.
Proof.
  rewrite any_Exists, !Exists_exists.
  split; intros (p & Hp & H); exists p; split; auto; by apply String.eqb_eq.
Qed.

Lemma category_of_spec (pets : list pet) : category_of pets = spec_category pets.
Proof.
  unfold spec_category.
  destruct pets as [|p pets].
  - reflexivity.
  - unfold category_of.
    destruct (any _ (p :: pets)) eqn:Hcat.
    + apply any_type in Hcat. by rewrite decide_True.
    + rewrite decide_False.
      2:{ intros H. apply any_type in H. congruence. }
      destruct (any (fun q => String.eqb (type q) "dog") (p :: pets)) eqn:Hdog.
      * apply any_type in Hdog. by rewrite decide_True.
      * rewrite decide_False; [reflexivity|].
        intros H. apply any_type in H. congruence.
Qed.

Lemma save_detection_path (e : tick_env frame) (f : frame) (pets : list pet)
    (w : world frame gray) (p : path) :
  fst (save_detection e f pets w) = Ok p ->
  p = (category_of pets, strftime_jpg (datetime_now e)).
Proof.
  unfold save_detection, bind, write_file, print, modify, raise, ret.
  destruct (imwrite_outcome e); destruct (json_dump_outcome e); simpl; congruence.
Qed.

(** C8.  The category that [save_detection] assigns is cats if any
    detection has type cat, else dogs if any has type dog, else unknown; the
    empty list gives unknown.  The path that [save_detection] returns lies
    in the directory of that category. *)
Theorem category_priority (e : tick_env frame) (f : frame) (pets : list pet)
    (w : world frame gray) :
  category_of pets = spec_category pets /\
  category_of [] = "unknown" /\
  match fst (save_detection e f pets w) with
  | Ok p => fst p = spec_category pets
  | Raise _ => True
  end.
Proof.
  split; [apply category_of_spec|]. split; [reflexivity|].
  destruct (fst (save_detection e f pets w)) as [p|ex] eqn:H; [|exact I].
  apply save_detection_path in H. subst p. apply category_of_spec.
Qed.

(** ** The monad *)

Lemma same_globals_refl (w : world frame gray) : same_globals w w.
Proof. by repeat split. Qed.

Lemma same_globals_trans (w1 w2 w3 : world frame gray) :
  same_globals w1 w2 -> same_globals w2 w3 -> same_globals w1 w3.
Proof.
  unfold same_globals. intros (?&?&?&?) (?&?&?&?). repeat split; congruence.
Qed.

(** ** Sorting by modification time *)

Lemma insert_by_mtime_perm (x : path * Q) (l : list (path * Q)) :
  Permutation (insert_by_mtime x l) (x :: l).
Proof.
  induction l as [|y l IH]; simpl; [reflexivity|].
  destruct (Qle_bool _ _); [reflexivity|].
  rewrite IH. apply perm_swap.
Qed.

Lemma sort_by_mtime_perm (l : list (path * Q)) :
  Permutation (sort_by_mtime l) l.
Proof.
  induction l as [|x l IH]; simpl; [reflexivity|].
  rewrite insert_by_mtime_perm. by rewrite IH.
Qed.

Lemma sort_by_mtime_length (l : list (path * Q)) :
  length (sort_by_mtime l) = length l.
Proof. apply Permutation_length, sort_by_mtime_perm. Qed.

Lemma insert_by_mtime_sorted (x : path * Q) (l : list (path * Q)) :
  StronglySorted mtime_le l -> StronglySorted mtime_le (insert_by_mtime x l).
Proof.
  induction l as [|y l IH]; simpl; intros Hl.
  - repeat constructor.
  - apply StronglySorted_cons in Hl as [Hy Hl].
    destruct (Qle_bool (snd x) (snd y)) eqn:Hxy.
    + apply Qle_bool_iff in Hxy.
      apply StronglySorted_cons. split.
      * constructor; [exact Hxy|].
        eapply Forall_impl; [exact Hy|].
        intros z Hz. unfold mtime_le in *. lra.
      * by apply StronglySorted_cons.
    + assert (Hyx : (snd y <= snd x)%Q).
      { destruct (Qlt_le_dec (snd y) (snd x)) as [H|H]; [lra|].
        apply Qle_bool_iff in H. congruence. }
      apply StronglySorted_cons. split; [|by apply IH].
      rewrite (insert_by_mtime_perm x l). by constructor.
Qed.

Lemma sort_by_mtime_sorted (l : list (path * Q)) :
  StronglySorted mtime_le (sort_by_mtime l).
Proof.
  induction l as [|x l IH]; simpl; [constructor|].
  by apply insert_by_mtime_sorted.
Qed.

(** An entry that is at most as recent as every entry of the list goes in
    front of it (the order of equal times is kept). *)
Lemma insert_by_mtime_head (x : path * Q) (l : list (path * Q)) :
  Forall (mtime_le x) l -> insert_by_mtime x l = x :: l.
Proof.
  destruct l as [|y l]; simpl; [done|].
  intros H. apply Forall_cons in H as [H _].
  apply Qle_bool_iff in H. by rewrite H.
Qed.

(** ** The files that [cleanup_old_files] enumerates *)

Lemma elem_of_jpg_files (s : gmap path (file frame)) (p : path) (t : Q) :
  (p, t) ∈ jpg_files s <->
  exists f, s !! p = Some f /\ endswith (snd p) ".jpg" = true /\ t = st_mtime f.
Proof.
  unfold jpg_files, os_walk. rewrite list_elem_of_omap. split.
  - intros ([q f] & Hin & Heq). simpl in Heq.
    destruct (endswith (snd q) ".jpg") eqn:He; [|discriminate].
    injection Heq as <- <-. apply elem_of_map_to_list in Hin. eauto.
  - intros (f & Hs & He & ->). exists (p, f). split.
    + by apply elem_of_map_to_list.
    + simpl. by rewrite He.
Qed.

Lemma jpg_files_path_inj (s : gmap path (file frame)) (x y : path * Q) :
  x ∈ jpg_files s -> y ∈ jpg_files s -> fst x = fst y -> x = y.
Proof.
  destruct x as [p t], y as [q u]. simpl. intros Hx Hy <-.
  apply elem_of_jpg_files in Hx as (f & Hf & _ & ->).
  apply elem_of_jpg_files in Hy as (g & Hg & _ & ->).
  congruence.
Qed.

Lemma cleanup_batch_subset (s : gmap path (file frame)) (x : path * Q) :
  x ∈ cleanup_batch s -> x ∈ jpg_files s.
Proof.
  unfold cleanup_batch. intros H.
  rewrite <- (sort_by_mtime_perm (jpg_files s)).
  rewrite <- (take_drop (files_to_delete_of (length (sort_by_mtime (jpg_files s))))
                        (sort_by_mtime (jpg_files s))).
  apply elem_of_app. by left.
Qed.

Lemma cleanup_batch_oldest (s : gmap path (file frame)) (x y : path * Q) :
  x ∈ cleanup_batch s -> y ∈ jpg_files s -> y ∉ cleanup_batch s ->
  mtime_le x y.
Proof.
  unfold cleanup_batch.
  set (l := sort_by_mtime (jpg_files s)).
  set (k := files_to_delete_of (length l)).
  intros Hx Hy Hny.
  pose proof (sort_by_mtime_sorted (jpg_files s)) as Hs. fold l in Hs.
  rewrite <- (take_drop k l) in Hs.
  eapply StronglySorted_app_1_elem_of; [exact Hs|exact Hx|].
  assert (Hyl : y ∈ l) by (unfold l; by rewrite sort_by_mtime_perm).
  rewrite <- (take_drop k l) in Hyl.
  apply elem_of_app in Hyl as [?|?]; [contradiction|done].
Qed.

Lemma cleanup_batch_length (s : gmap path (file frame)) :
  Z.of_nat (length (jpg_files s)) < 2 ^ 31 ->
  length (cleanup_batch s) = (length (jpg_files s) / 5)%nat.
Proof.
  intros H. unfold cleanup_batch.
  rewrite sort_by_mtime_length, files_to_delete_of_fifth by exact H.
  rewrite length_take, sort_by_mtime_length.
  apply Nat.min_l. apply Nat.Div0.div_le_upper_bound. lia.
Qed.

Lemma bind_ok {A B : Type} (m : M frame gray A) (k : A -> M frame gray B)
    (w w1 : world frame gray) (a : A) :
  m w = (Ok a, w1) -> bind m k w = k a w1.
Proof. intros H. unfold bind. by rewrite H. Qed.

Lemma bind_raise {A B : Type} (m : M frame gray A) (k : A -> M frame gray B)
    (w w1 : world frame gray) (ex : exn) :
  m w = (Raise ex, w1) -> bind m k w = (Raise ex, w1).
Proof. intros H. unfold bind. by rewrite H. Qed.

(** ** Removals *)

Lemma remove_all_lookup_other (e : tick_env frame) (batch : list path)
    (s : gmap path (file frame)) (p : path) :
  p ∉ batch -> remove_all e batch s !! p = s !! p.
Proof.
  revert s. induction batch as [|q batch IH]; intros s Hp; [done|].
  apply not_elem_of_cons in Hp as [Hne Hp]. simpl.
  rewrite IH by done.
  destruct (os_remove_raises e q); [done|]. by apply lookup_delete_ne.
Qed.

Lemma remove_all_lookup_raises (e : tick_env frame) (batch : list path)
    (s : gmap path (file frame)) (p : path) (ex : exn) :
  os_remove_raises e p = Some ex -> remove_all e batch s !! p = s !! p.
Proof.
  intros Hex. revert s. induction batch as [|q batch IH]; intros s; [done|].
  simpl. rewrite IH.
  destruct (os_remove_raises e q) eqn:Hq; [done|].
  apply lookup_delete_ne. congruence.
Qed.

Lemma remove_all_lookup_None (e : tick_env frame) (batch : list path)
    (s : gmap path (file frame)) (p : path) :
  s !! p = None -> remove_all e batch s !! p = None.
Proof.
  revert s. induction batch as [|q batch IH]; intros s Hs; [done|].
  simpl. apply IH.
  destruct (os_remove_raises e q); [done|].
  rewrite lookup_delete. by case_decide.
Qed.

Lemma remove_all_lookup_removed (e : tick_env frame) (batch : list path)
    (s : gmap path (file frame)) (p : path) :
  p ∈ batch -> os_remove_raises e p = None -> remove_all e batch s !! p = None.
Proof.
  intros Hp Hok. revert s.
  induction batch as [|q batch IH]; intros s; [by apply elem_of_nil in Hp|].
  simpl. destruct (decide (p = q)) as [->|Hne].
  - rewrite Hok. apply remove_all_lookup_None, lookup_delete_eq.
  - apply IH. apply elem_of_cons in Hp as [?|?]; [contradiction|done].
Qed.

(** The loop over the batch: it never raises, leaves the globals alone and
    turns the directory into [remove_all]. *)
Lemma for_each_removals (e : tick_env frame) (batch : list (path * Q))
    (w : world frame gray) :
  let r := for_each batch
             (fun x => try_except (os_remove e (fst x))
                         (fun ex => print (PrintErrorDeleting (fst x) ex))) w in
  fst r = Ok tt /\
  storage (snd r) = remove_all e (map fst batch) (storage w) /\
  same_globals w (snd r).
Proof.
  revert w. induction batch as [|x batch IH]; intros w.
  - simpl. repeat split; reflexivity.
  - cbn [for_each map remove_all foldl]. cbv zeta.
    destruct (try_except (os_remove e (fst x))
                (fun ex => print (PrintErrorDeleting (fst x) ex)) w)
      as [r1 w1] eqn:Hstep.
    assert (H1 : r1 = Ok tt /\
                 storage w1 = match os_remove_raises e (fst x) with
                              | Some _ => storage w
                              | None => delete (fst x) (storage w)
                              end /\
                 same_globals w w1).
    { unfold try_except, os_remove in Hstep.
      destruct (os_remove_raises e (fst x)) as [ex|].
      - run. injection Hstep as <- <-. repeat split; reflexivity.
      - run. destruct (storage w !! fst x) eqn:Hl; run;
          injection Hstep as <- <-; repeat split; try reflexivity.
        simpl. symmetry. by apply delete_id. }
    destruct H1 as (-> & Hs1 & Hg1).
    rewrite (bind_ok _ _ _ _ _ Hstep).
    specialize (IH w1). cbv zeta in IH. destruct IH as (Hr & Hs & Hg).
    split; [exact Hr|]. split.
    + rewrite Hs, Hs1. reflexivity.
    + eapply same_globals_trans; eassumption.
Qed.

(** ** [cleanup_old_files] *)

Lemma cleanup_below_mark (e : tick_env frame) (w : world frame gray) :
  over_mark w = false -> cleanup_old_files e w = (Ok tt, w).
Proof.
  unfold over_mark, cleanup_old_files, get_storage_usage_gb. intros H.
  apply negb_false_iff in H. run. by rewrite H.
Qed.

Lemma cleanup_above_mark (e : tick_env frame) (w : world frame gray) :
  over_mark w = true ->
  fst (cleanup_old_files e w) = Ok tt /\
  storage (snd (cleanup_old_files e w))
  = remove_all e (map fst (cleanup_batch (storage w))) (storage w) /\
  same_globals w (snd (cleanup_old_files e w)).
Proof.
  unfold over_mark, cleanup_old_files, get_storage_usage_gb. intros H.
  apply negb_true_iff in H. run. rewrite H.
  set (w0 := with_trace (trace w ++ [PrintCleaningUp (usage_gb (storage w))]) w).
  pose proof (for_each_removals e (cleanup_batch (storage w)) w0) as Hloop.
  cbv zeta in Hloop.
  destruct (for_each (cleanup_batch (storage w)) _ w0) as [r w1].
  cbn [fst snd] in Hloop. destruct Hloop as (-> & Hs & Hg).
  cbn [fst snd storage with_trace]. split; [reflexivity|]. split; [exact Hs|].
  destruct Hg as (?&?&?&?). repeat split; assumption.
Qed.

Lemma cleanup_never_raises (e : tick_env frame) (w : world frame gray) :
  fst (cleanup_old_files e w) = Ok tt.
Proof.
  destruct (over_mark w) eqn:H.
  - by apply cleanup_above_mark.
  - by rewrite cleanup_below_mark.
Qed.

Lemma cleanup_same_globals (e : tick_env frame) (w : world frame gray) :
  same_globals w (snd (cleanup_old_files e w)).
Proof.
  destruct (over_mark w) eqn:H.
  - by apply cleanup_above_mark.
  - rewrite cleanup_below_mark by done. apply same_globals_refl.
Qed.

Lemma string_length_app (s t : string) :
  String.length (s +:+ t) = (String.length s + String.length t)%nat.
Proof. induction s as [|c s IH]; simpl; [reflexivity|]. by rewrite IH. Qed.

(** A name made by [with_suffix(".json")] does not end in [.jpg]. *)
Lemma endswith_json_not_jpg (s : string) : endswith (s +:+ ".json") ".jpg" = false.
Proof.
  induction s as [|c s IH]; [reflexivity|].
  change (String c s +:+ ".json") with (String c (s +:+ ".json")).
  cbn [endswith]. rewrite IH.
  destruct (String.eqb_spec (String c (s +:+ ".json")) ".jpg") as [Heq|]; [|reflexivity].
  apply (f_equal String.length) in Heq. simpl in Heq.
  rewrite string_length_app in Heq. simpl in Heq. lia.
Qed.

Lemma cleanup_batch_ends_jpg (s : gmap path (file frame)) (x : path * Q) :
  x ∈ cleanup_batch s -> endswith (snd (fst x)) ".jpg" = true.
Proof.
  intros H. apply cleanup_batch_subset in H. destruct x as [p t].
  by apply elem_of_jpg_files in H as (f & _ & He & _).
Qed.

(** A cleanup pass keeps every file whose name does not end in [.jpg]. *)
Lemma cleanup_keeps_other_names (e : tick_env frame) (w : world frame gray) (p : path) :
  endswith (snd p) ".jpg" = false ->
  storage (snd (cleanup_old_files e w)) !! p = storage w !! p.
Proof.
  intros Hp. destruct (over_mark w) eqn:Hover.
  - destruct (cleanup_above_mark e w Hover) as (_ & -> & _).
    apply remove_all_lookup_other.
    intros Hin. apply list_elem_of_fmap in Hin as (x & -> & Hx).
    apply cleanup_batch_ends_jpg in Hx. congruence.
  - by rewrite cleanup_below_mark.
Qed.

(** ** What a cleanup pass prints *)

Lemma trace_grows_refl (w : world frame gray) : trace_grows w w.
Proof. exists []. by rewrite app_nil_r. Qed.

Lemma trace_grows_trans (w1 w2 w3 : world frame gray) :
  trace_grows w1 w2 -> trace_grows w2 w3 -> trace_grows w1 w3.
Proof.
  intros [a Ha] [b Hb]. exists (a ++ b). by rewrite Hb, Ha, app_assoc.
Qed.

Lemma trace_grows_elem (w w' : world frame gray) (ev : event) :
  trace_grows w w' -> ev ∈ trace w -> ev ∈ trace w'.
Proof. intros [evs ->] H. apply elem_of_app. by left. Qed.

(** One removal of the loop over the batch. *)
Lemma removal_step (e : tick_env frame) (x : path * Q) (w : world frame gray) :
  exists w1 evs,
    try_except (os_remove e (fst x))
      (fun ex => print (PrintErrorDeleting (fst x) ex)) w = (Ok tt, w1) /\
    trace w1 = trace w ++ evs /\
    (forall ex, os_remove_raises e (fst x) = Some ex ->
       PrintErrorDeleting (fst x) ex ∈ evs).
Proof.
  unfold try_except, os_remove.
  destruct (os_remove_raises e (fst x)) as [ex|].
  - run. eexists _, _. split; [reflexivity|]. split; [reflexivity|].
    intros ex' [= <-]. set_solver.
  - run. destruct (storage w !! fst x) eqn:Hl; run.
    + eexists _, []. split; [reflexivity|]. split; [|discriminate].
      cbn [trace with_storage]. by rewrite app_nil_r.
    + eexists _, _. split; [reflexivity|]. split; [reflexivity|discriminate].
Qed.

(** The lines printed by the loop over the batch: every removal that
    raised has its line. *)
Lemma for_each_removals_trace (e : tick_env frame) (batch : list (path * Q))
    (w : world frame gray) :
  exists evs,
    trace (snd (for_each batch
                  (fun x => try_except (os_remove e (fst x))
                              (fun ex => print (PrintErrorDeleting (fst x) ex))) w))
    = trace w ++ evs /\
    (forall x ex, x ∈ batch -> os_remove_raises e (fst x) = Some ex ->
       PrintErrorDeleting (fst x) ex ∈ evs).
Proof.
  revert w. induction batch as [|y batch IH]; intros w.
  - exists []. split; [cbn; by rewrite app_nil_r|]. by intros x ex ?%elem_of_nil.
  - cbn [for_each]. destruct (removal_step e y w) as (w1 & evs1 & Hstep & Ht1 & Hp1).
    rewrite (bind_ok _ _ _ _ _ Hstep).
    destruct (IH w1) as (evs & Ht & Hp). exists (evs1 ++ evs). split.
    + by rewrite Ht, Ht1, app_assoc.
    + intros x ex Hx Hex. apply elem_of_app.
      apply elem_of_cons in Hx as [->|Hx]; [left; by apply Hp1|right; by eapply Hp].
Qed.

(** The lines of a pass above the mark: the first line, the lines of the
    loop over the batch, the last line. *)
Lemma cleanup_above_mark_trace (e : tick_env frame) (w : world frame gray) :
  over_mark w = true ->
  exists evs,
    trace (snd (cleanup_old_files e w))
    = trace w ++ [PrintCleaningUp (usage_gb (storage w))] ++ evs ++
      [PrintCleanupComplete (usage_gb (storage (snd (cleanup_old_files e w))))] /\
    (forall x ex, x ∈ cleanup_batch (storage w) ->
       os_remove_raises e (fst x) = Some ex ->
       PrintErrorDeleting (fst x) ex ∈ evs).
Proof.
  unfold over_mark, cleanup_old_files, get_storage_usage_gb. intros H.
  apply negb_true_iff in H. run. rewrite H.
  set (w0 := with_trace (trace w ++ [PrintCleaningUp (usage_gb (storage w))]) w).
  destruct (for_each_removals_trace e (cleanup_batch (storage w)) w0)
    as (evs & Ht & Hp).
  pose proof (for_each_removals e (cleanup_batch (storage w)) w0) as Hloop.
  cbv zeta in Hloop.
  destruct (for_each (cleanup_batch (storage w)) _ w0) as [r w1].
  cbn [fst snd] in Hloop, Ht. destruct Hloop as (-> & _).
  cbn [fst snd trace with_trace storage].
  exists evs. split; [|exact Hp].
  rewrite Ht. unfold w0. cbn [trace with_trace]. by rewrite <- !app_assoc.
Qed.

Lemma cleanup_trace_grows (e : tick_env frame) (w : world frame gray) :
  trace_grows w (snd (cleanup_old_files e w)).
Proof.
  destruct (over_mark w) eqn:Hover.
  - destruct (cleanup_above_mark_trace e w Hover) as (evs & Ht & _).
    eexists. exact Ht.
  - rewrite cleanup_below_mark by done. apply trace_grows_refl.
Qed.

(** C4 (as amended).  At or below the high-water mark a cleanup pass does
    nothing; the usage compared with the mark is the double that
    [get_storage_usage_gb] returns.  Above it, the pass takes the [.jpg]
    files under the storage root in ascending order of modification time and
    tries to remove the first [len / 5] of them (the value of
    [int(len * 0.2)]): every image of that batch is at most as recent as
    every image outside it, an image of the batch is gone unless its removal
    raised, in which case it stays and the error is printed between the two
    lines of the pass, and every image outside the batch is left as it was
    together with its metadata file. *)
Theorem cleanup_removes_oldest_fifth (e : tick_env frame) (w : world frame gray) :
  Z.of_nat (length (jpg_files (storage w))) < 2 ^ 31 ->
  let w' := snd (cleanup_old_files e w) in
  let all_files := jpg_files (storage w) in
  let batch := cleanup_batch (storage w) in
  (over_mark w = false -> cleanup_old_files e w = (Ok tt, w)) /\
  (over_mark w = true ->
     length batch = (length all_files / 5)%nat /\
     (forall x, x ∈ batch -> x ∈ all_files) /\
     (forall x y, x ∈ batch -> y ∈ all_files -> y ∉ batch -> mtime_le x y) /\
     (forall x, x ∈ batch ->
        storage w' !! fst x =
          match os_remove_raises e (fst x) with
          | None => None
          | Some _ => storage w !! fst x
          end) /\
     (forall y, y ∈ all_files -> y ∉ batch ->
        storage w' !! fst y = storage w !! fst y /\
        storage w' !! with_suffix (fst y) ".json"
        = storage w !! with_suffix (fst y) ".json") /\
     (exists evs,
        trace w'
        = trace w ++ [PrintCleaningUp (usage_gb (storage w))] ++ evs ++
          [PrintCleanupComplete (usage_gb (storage w'))] /\
        forall x ex, x ∈ batch -> os_remove_raises e (fst x) = Some ex ->
          PrintErrorDeleting (fst x) ex ∈ evs)).
Proof.
  intros Hlen w' all_files batch. split; [apply cleanup_below_mark|].
  intros Hover.
  destruct (cleanup_above_mark e w Hover) as (_ & Hs & _). fold w' batch in Hs.
  split; [by apply cleanup_batch_length|].
  split; [apply cleanup_batch_subset|].
  split; [apply cleanup_batch_oldest|].
  split; [|split; [|by apply cleanup_above_mark_trace]].
  - intros x Hx. rewrite Hs.
    destruct (os_remove_raises e (fst x)) as [ex|] eqn:Hr.
    + by eapply remove_all_lookup_raises.
    + apply remove_all_lookup_removed; [|exact Hr].
      by apply list_elem_of_fmap_2.
  - intros y Hy Hny. split.
    + rewrite Hs. apply remove_all_lookup_other.
      intros Hin. apply list_elem_of_fmap in Hin as (x & Heq & Hx).
      apply Hny.
      rewrite (jpg_files_path_inj (storage w) y x); auto.
      by apply cleanup_batch_subset.
    + apply cleanup_keeps_other_names. apply endswith_json_not_jpg.
Qed.
End StorageFacts.

(** ** Runs on the example directories *)

Lemma cleanup_removes_oldest_fifth_witness :
  length (cleanup_batch ten_pairs) = (length (jpg_files ten_pairs) / 5)%nat.
Proof.
  refine (proj1 (proj2 (cleanup_removes_oldest_fifth
                          env_quiet (rows_world ten_pairs) _) _)).
  - vm_compute. reflexivity.
  - vm_compute. reflexivity.
Defined.

(** C4 as stated fails.  (1) Ten pairs holding 12 GiB against the mark of
    10 GiB, where the removal of the oldest image raises: the pass removes
    one image, not [floor(10 * 0.2) = 2].  (2) Five pairs written while the
    local clock was set back: the pass removes the image with the smallest
    modification time, and the entry with the earliest capture timestamp
    stays. *)
Lemma cleanup_exactly_oldest_counterexample :
  (let w := rows_world ten_pairs in
   let w' := snd (cleanup_old_files env_locked w) in
   over_mark w = true /\
   length (jpg_files (storage w)) = 10%nat /\
   length (jpg_files (storage w')) = 9%nat) /\
  (let w := rows_world night_pairs in
   let w' := snd (cleanup_old_files env_quiet w) in
   over_mark w = true /\
   length (jpg_files (storage w)) = 5%nat /\
   storage w' !! ("unknown", "20241103_013000.jpg") = None /\
   storage w' !! ("unknown", "20241103_010500.jpg")
   = storage w !! ("unknown", "20241103_010500.jpg") /\
   storage w !! ("unknown", "20241103_010500.jpg") <> None).
Proof.
  vm_compute. repeat apply conj; try reflexivity. discriminate.
Qed.

(** C1 at a failing input: ten pairs holding 12 GiB against the mark of
    10 GiB.  After the cleanup pass the images of the two oldest entries are
    gone and their metadata files are still there, unchanged; the other
    sixteen files are kept.  [delete_detection] on the same directory
    removes both files of an entry. *)
Theorem cleanup_leaves_metadata_of_removed_images :
  let w := rows_world ten_pairs in
  let w' := snd (cleanup_old_files env_quiet w) in
  let w'' := snd (delete_detection env_quiet "unknown" "20240101_120000" w) in
  over_mark w = true /\
  storage w' !! ("unknown", "20240101_120000.jpg") = None /\
  storage w' !! ("unknown", "20240101_120000.json")
  = storage w !! ("unknown", "20240101_120000.json") /\
  storage w !! ("unknown", "20240101_120000.json") <> None /\
  storage w' !! ("unknown", "20240101_120100.jpg") = None /\
  storage w' !! ("unknown", "20240101_120100.json") <> None /\
  size (storage w') = 18%nat /\
  storage w'' !! ("unknown", "20240101_120000.jpg") = None /\
  storage w'' !! ("unknown", "20240101_120000.json") = None.
Proof.
  vm_compute. repeat apply conj; try reflexivity; discriminate.
Qed.

Section WriterFacts.
Context {frame gray : Type} {cv : CV2 frame gray}.

(** ** File names made by [save_detection] *)

Lemma digit_inj (a b : Z) :
  0 <= a <= 9 -> 0 <= b <= 9 -> digit a = digit b -> a = b.
Proof.
  intros Ha Hb H. unfold digit in H.
  apply (f_equal nat_of_ascii) in H.
  rewrite !nat_ascii_embedding in H by lia. lia.
Qed.

Lemma digit_not_dot (a : Z) : 0 <= a <= 9 -> Ascii.eqb (digit a) "." = false.
Proof.
  intros Ha. apply Ascii.eqb_neq. intros H.
  change "."%char with (ascii_of_nat 46) in H. unfold digit in H.
  apply (f_equal nat_of_ascii) in H.
  rewrite !nat_ascii_embedding in H by lia. lia.
Qed.

Lemma rfind_dot_jpg (s : string) (i : nat) :
  no_dot s = true -> rfind_dot (s +:+ ".jpg") i = Some (i + String.length s)%nat.
Proof.
  revert i. induction s as [|c s IH]; intros i H.
  - cbn. f_equal. lia.
  - cbn in H. apply andb_true_iff in H as [_ H].
    change (String c s +:+ ".jpg") with (String c (s +:+ ".jpg")).
    cbn [rfind_dot String.length]. rewrite IH by exact H. f_equal. lia.
Qed.

Lemma substring_prefix (s t : string) :
  substring 0 (String.length s) (s +:+ t) = s.
Proof.
  induction s as [|c s IH].
  - by destruct t.
  - change (String c s +:+ t) with (String c (s +:+ t)).
    cbn [String.length substring]. by rewrite IH.
Qed.

Lemma stem_jpg (s : string) :
  no_dot s = true -> s <> EmptyString -> stem (s +:+ ".jpg") = s.
Proof.
  intros Hs Hne. unfold stem. rewrite rfind_dot_jpg by exact Hs.
  rewrite string_length_app. cbn [String.length Nat.add].
  destruct s as [|c s]; [done|]. cbn [String.length].
  replace (Nat.ltb 0 (S (String.length s))) with true
    by (symmetry; apply Nat.ltb_lt; lia).
  replace (Nat.ltb _ _) with true by (symmetry; apply Nat.ltb_lt; lia).
  cbn [andb]. apply (substring_prefix (String c s)).
Qed.

Ltac dlia := Z.div_mod_to_equations; lia.

Ltac digit_bounds d :=
  unfold datetime_ok in d;
  repeat (apply andb_true_iff in d as [d ?]);
  repeat match goal with
         | H : (_ <=? _) = true |- _ => apply Z.leb_le in H
         end.

Lemma strftime_id_no_dot (d : datetime) :
  datetime_ok d = true -> no_dot (strftime_id d) = true.
Proof.
  intros Hd. digit_bounds Hd.
  unfold strftime_id, dec4, dec2. cbv [String.append no_dot].
  rewrite !digit_not_dot by (clear -Hd H0 H1 H2 H3 H4 H5 H6 H7 H8 H9 H10 H11; dlia).
  reflexivity.
Qed.

Lemma with_suffix_json (d : datetime) (category : string) :
  datetime_ok d = true ->
  with_suffix (category, strftime_jpg d) ".json"
  = (category, strftime_id d +:+ ".json").
Proof.
  intros Hd. unfold with_suffix, strftime_jpg. cbn [fst snd].
  rewrite stem_jpg; [reflexivity|by apply strftime_id_no_dot|].
  unfold strftime_id, dec4. discriminate.
Qed.

Lemma dec2_inj (a b : Z) :
  0 <= a <= 99 -> 0 <= b <= 99 ->
  digit (a / 10) = digit (b / 10) -> digit (a mod 10) = digit (b mod 10) ->
  a = b.
Proof.
  intros Ha Hb H1 H2.
  apply digit_inj in H1; [|dlia..]. apply digit_inj in H2; [|dlia..]. dlia.
Qed.

Lemma dec4_inj (a b : Z) :
  0 <= a <= 9999 -> 0 <= b <= 9999 ->
  digit (a / 1000) = digit (b / 1000) ->
  digit (a / 100 mod 10) = digit (b / 100 mod 10) ->
  digit (a / 10 mod 10) = digit (b / 10 mod 10) ->
  digit (a mod 10) = digit (b mod 10) ->
  a = b.
Proof.
  intros Ha Hb H1 H2 H3 H4.
  apply digit_inj in H1; [|dlia..]. apply digit_inj in H2; [|dlia..].
  apply digit_inj in H3; [|dlia..]. apply digit_inj in H4; [|dlia..]. dlia.
Qed.

(** The identifier determines the second of the capture. *)
Lemma strftime_id_inj (a b : datetime) :
  datetime_ok a = true -> datetime_ok b = true ->
  strftime_id a = strftime_id b -> same_second a b.
Proof.
  intros Ha Hb H. digit_bounds Ha. digit_bounds Hb.
  unfold strftime_id, dec4, dec2 in H. cbv [String.append] in H.
  injection H as Y1 Y2 Y3 Y4 M1 M2 D1 D2 h1 h2 m1 m2 s1 s2.
  unfold same_second. repeat split.
  - apply (dec4_inj (year a) (year b)); [lia|lia|assumption..].
  - apply (dec2_inj (month a) (month b)); [lia|lia|assumption..].
  - apply (dec2_inj (day a) (day b)); [lia|lia|assumption..].
  - apply (dec2_inj (hour a) (hour b)); [lia|lia|assumption..].
  - apply (dec2_inj (minute a) (minute b)); [lia|lia|assumption..].
  - apply (dec2_inj (second a) (second b)); [lia|lia|assumption..].
Qed.

Lemma strftime_id_same_second (a b : datetime) :
  same_second a b -> strftime_id a = strftime_id b.
Proof.
  intros (Hy & Hm & Hd & Hh & Hmi & Hs). unfold strftime_id.
  by rewrite Hy, Hm, Hd, Hh, Hmi, Hs.
Qed.

Lemma app_jpg_inj (s t : string) : s +:+ ".jpg" = t +:+ ".jpg" -> s = t.
Proof.
  revert t. induction s as [|c s IH]; intros [|c' t] H.
  - reflexivity.
  - apply (f_equal String.length) in H.
    rewrite !string_length_app in H. cbn [String.length] in H. lia.
  - apply (f_equal String.length) in H.
    rewrite !string_length_app in H. cbn [String.length] in H. lia.
  - change (String c (s +:+ ".jpg") = String c' (t +:+ ".jpg")) in H.
    injection H as -> H. f_equal. by apply IH.
Qed.

(** C2 (as amended).  The name of an entry is the capture time cut to the
    second, and nothing else goes into it: two writes get the same name
    exactly when their timestamps fall in the same second.  When they do,
    and the category is the same, the second write puts its image and its
    metadata at the paths of the first: what the first write stored there is
    replaced. *)
Theorem same_second_writes_share_files (e1 e2 : tick_env frame)
    (f1 f2 : frame) (pets1 pets2 : list pet) (w : world frame gray)
    (size mtime size' mtime' : _) :
  datetime_ok (datetime_now e1) = true ->
  datetime_ok (datetime_now e2) = true ->
  imwrite_outcome e2 = Written size mtime ->
  json_dump_outcome e2 = Written size' mtime' ->
  let t1 := datetime_now e1 in
  let t2 := datetime_now e2 in
  let w1 := snd (save_detection e1 f1 pets1 w) in
  let w2 := snd (save_detection e2 f2 pets2 w1) in
  (strftime_jpg t1 = strftime_jpg t2 <-> same_second t1 t2) /\
  (same_second t1 t2 -> category_of pets1 = category_of pets2 ->
   storage w2 !! (category_of pets1, strftime_jpg t1)
   = Some {| st_size := size; st_mtime := mtime; body := Jpeg f2 |} /\
   body <$> storage w2 !! (category_of pets1, strftime_id t1 +:+ ".json")
   = Some (JsonDoc {| md_timestamp := isoformat t2;
                      md_category := category_of pets2;
                      md_detections := pets2;
                      md_filename := strftime_jpg t2 |})).
Proof.
  intros Hok1 Hok2 Himg Hjson t1 t2 w1 w2. split.
  - unfold strftime_jpg. split.
    + intros H. apply app_jpg_inj in H. by apply strftime_id_inj.
    + intros H. by rewrite (strftime_id_same_second t1 t2 H).
  - intros Hsame Hcat.
    pose proof (strftime_id_same_second t1 t2 Hsame) as Hid.
    assert (Hjpg : strftime_jpg t1 = strftime_jpg t2)
      by (unfold strftime_jpg; by rewrite Hid).
    unfold w2, save_detection. fold t2.
    rewrite (with_suffix_json t2 (category_of pets2) Hok2).
    rewrite Himg, Hjson. unfold write_file. run.
    rewrite Hcat, Hjpg, Hid. split.
    + rewrite lookup_insert_ne; [by rewrite lookup_insert_eq|].
      unfold strftime_jpg. intros H. apply (f_equal snd) in H. cbn [snd] in H.
      apply (f_equal String.length) in H. rewrite !string_length_app in H.
      cbn [String.length] in H. lia.
    + by rewrite lookup_insert_eq.
Qed.

End WriterFacts.

Lemma same_second_writes_share_files_witness :
  let w1 := snd (save_detection first_write [1] [] (rows_world ∅)) in
  let w2 := snd (save_detection second_write [2] [] w1) in
  storage w2 !! ("unknown", "20240101_120000.jpg")
  = Some {| st_size := 2000; st_mtime := 1009 # 10; body := Jpeg [2] |} /\
  body <$> storage w2 !! ("unknown", "20240101_120000.json")
  = Some (JsonDoc {| md_timestamp := "2024-01-01T12:00:00.900000";
                     md_category := "unknown";
                     md_detections := [];
                     md_filename := "20240101_120000.jpg" |}).
Proof.
  apply (same_second_writes_share_files first_write second_write
           [1] [2] [] [] (rows_world ∅) 2000 (1009 # 10) 300 (1009 # 10)).
  - reflexivity.
  - reflexivity.
  - reflexivity.
  - reflexivity.
  - repeat split.
  - reflexivity.
Defined.

(** C2 as stated fails.  Two writes at 12:00:00.1 and 12:00:00.9 of the
    same category return the same path; the image that the first one stored
    is replaced by the image of the second, and the directory holds one
    pair, not two. *)
Lemma same_second_write_overwrites_counterexample :
  let w0 := rows_world ∅ in
  let w1 := snd (save_detection first_write [1] [] w0) in
  let w2 := snd (save_detection second_write [2] [] w1) in
  same_second (datetime_now first_write) (datetime_now second_write) /\
  strftime_id (datetime_now first_write)
  = strftime_id (datetime_now second_write) /\
  fst (save_detection first_write [1] [] w0)
  = Ok ("unknown", "20240101_120000.jpg") /\
  fst (save_detection second_write [2] [] w1)
  = Ok ("unknown", "20240101_120000.jpg") /\
  body <$> storage w1 !! ("unknown", "20240101_120000.jpg") = Some (Jpeg [1]) /\
  body <$> storage w2 !! ("unknown", "20240101_120000.jpg") = Some (Jpeg [2]) /\
  size (storage w2) = 2%nat.
Proof.
  vm_compute. repeat apply conj; reflexivity.
Qed.

Section WriterHelpers.
Context {frame gray : Type} {cv : CV2 frame gray}.

Lemma jpg_path_ne_json (category s t : string) :
  (category, s +:+ ".json") <> ((category, t +:+ ".jpg") : path).
Proof.
  intros H. apply (f_equal snd) in H. cbn [snd] in H.
  pose proof (endswith_json_not_jpg s) as Hj. rewrite H in Hj.
  assert (Ht : endswith (t +:+ ".jpg") ".jpg" = true).
  { clear. induction t as [|c t IH]; [reflexivity|].
    change (String c t +:+ ".jpg") with (String c (t +:+ ".jpg")).
    cbn [endswith]. rewrite IH. by destruct (String.eqb _ _). }
  rewrite Ht in Hj. discriminate.
Qed.

(** The directory after a write whose two files are both written. *)
Lemma save_detection_written (e : tick_env frame) (f : frame)
    (pets : list pet) (w : world frame gray) (size size' : Z) (mtime mtime' : Q) :
  datetime_ok (datetime_now e) = true ->
  imwrite_outcome e = Written size mtime ->
  json_dump_outcome e = Written size' mtime' ->
  let category := category_of pets in
  let name := strftime_id (datetime_now e) in
  let w' := snd (save_detection e f pets w) in
  fst (save_detection e f pets w) = Ok (category, name +:+ ".jpg") /\
  storage w'
  = <[(category, name +:+ ".json") :=
        {| st_size := size'; st_mtime := mtime';
           body := JsonDoc {| md_timestamp := isoformat (datetime_now e);
                              md_category := category;
                              md_detections := pets;
                              md_filename := name +:+ ".jpg" |} |}]>
      (<[(category, name +:+ ".jpg") :=
           {| st_size := size; st_mtime := mtime; body := Jpeg f |}]>
         (storage w)) /\
  trace w' = trace w ++ [PrintSaved category (name +:+ ".jpg") (length pets)] /\
  same_globals w w'.
Proof.
  intros Hok Himg Hjson category name w'.
  unfold w', save_detection.
  rewrite (with_suffix_json (datetime_now e) (category_of pets) Hok).
  rewrite Himg, Hjson. unfold write_file. run.
  by repeat split.
Qed.

End WriterHelpers.

Section LoopFacts.
Context {frame gray : Type} {cv : CV2 frame gray}.

(** ** The stages of one pass *)

Lemma detect_motion_frame (f : frame) (w : world frame gray) :
  same_but_background w (snd (detect_motion f w)).
Proof.
  unfold detect_motion. run.
  destruct (background_frame w); run; [|by repeat split].
  destruct (_ =? 0); run; by repeat split.
Qed.

Lemma detect_pets_box_world (r : yolo_result) (b : box) (acc : list pet)
    (w : world frame gray) :
  snd (detect_pets_box r b acc w) = w.
Proof.
  unfold detect_pets_box.
  destruct (names r !! cls b); [|reflexivity].
  destruct (_ || _); reflexivity.
Qed.

Lemma detect_pets_boxes_world (r : yolo_result) (bs : list box) (acc : list pet)
    (w : world frame gray) :
  snd (detect_pets_boxes r bs acc w) = w.
Proof.
  revert acc. induction bs as [|b bs IH]; intros acc; [reflexivity|].
  cbn [detect_pets_boxes]. unfold bind.
  pose proof (detect_pets_box_world r b acc w) as Hb.
  destruct (detect_pets_box r b acc w) as [[acc'|ex] w1]; simpl in Hb; subst w1.
  - apply IH.
  - reflexivity.
Qed.

Lemma detect_pets_results_world (results : list yolo_result) (acc : list pet)
    (w : world frame gray) :
  snd (detect_pets_results results acc w) = w.
Proof.
  revert acc. induction results as [|r rs IH]; intros acc; [reflexivity|].
  cbn [detect_pets_results]. unfold bind.
  pose proof (detect_pets_boxes_world r (boxes r) acc w) as Hb.
  destruct (detect_pets_boxes r (boxes r) acc w) as [[acc'|ex] w1];
    simpl in Hb; subst w1.
  - apply IH.
  - reflexivity.
Qed.

(** [detect_pets] reads the globals and changes nothing. *)
Lemma detect_pets_world (e : tick_env frame) (f : frame) (w : world frame gray) :
  snd (detect_pets e f w) = w.
Proof.
  unfold detect_pets. run.
  destruct (model_call e f _) as [results|ex]; [|reflexivity].
  apply detect_pets_results_world.
Qed.

Lemma save_detection_globals (e : tick_env frame) (f : frame) (pets : list pet)
    (w : world frame gray) :
  same_globals w (snd (save_detection e f pets w)).
Proof.
  unfold save_detection, write_file. run.
  destruct (imwrite_outcome e); destruct (json_dump_outcome e); run;
    by repeat split.
Qed.

Lemma save_detection_write_raises (e : tick_env frame) (f : frame)
    (pets : list pet) (w : world frame gray) :
  write_raises e -> exists ex, fst (save_detection e f pets w) = Raise ex.
Proof.
  unfold save_detection, write_file, write_raises.
  intros [[ex H]|[ex H]].
  - destruct (imwrite_outcome e); try discriminate H; run; eauto.
  - destruct (json_dump_outcome e); try discriminate H;
      destruct (imwrite_outcome e); run; eauto.
Qed.

(** The two sleeps of the loop touch nothing but the printed output. *)
Lemma time_sleep_frame (x : Q) (w : world frame gray) :
  same_globals w (snd (time_sleep x w)) /\
  storage (snd (time_sleep x w)) = storage w.
Proof. run. destruct (Qle_bool 0 x); run; by repeat split. Qed.

Lemma sleep_one_frame_frame (w : world frame gray) :
  same_globals w (snd (sleep_one_frame w)) /\
  storage (snd (sleep_one_frame w)) = storage w.
Proof.
  run. destruct (fps (CONFIG w) =? 0); run; [by repeat split|].
  destruct (Qle_bool 0 _); run; by repeat split.
Qed.

(** The handler of the loop: print, sleep one second; it cannot raise. *)
Lemma handler_ok (ex : exn) (w : world frame gray) :
  bind (print (PrintLoopError ex)) (fun _ => time_sleep 1) w
  = (Ok tt, with_trace (trace w ++ [PrintLoopError ex; Sleep 1]) w).
Proof.
  unfold time_sleep. change (Qle_bool 0 1) with true. run.
  by rewrite <- app_assoc.
Qed.

(** ** One pass of the loop *)

Ltac run0 :=
  unfold print, bind, try_except, gets, modify, ret, raise, of_result in *;
  cbn [fst snd storage CONFIG last_detection_time detection_active
       background_frame trace with_trace with_storage with_CONFIG
       with_last_detection_time with_background_frame
       with_detection_active negb] in *.

Lemma sleep_one_frame_cases (w : world frame gray) :
  (exists ex, sleep_one_frame w = (Raise ex, w)) \/
  (exists d, sleep_one_frame w = (Ok tt, with_trace (trace w ++ [Sleep d]) w)).
Proof.
  run. destruct (fps (CONFIG w) =? 0); [left; eauto|].
  destruct (Qle_bool 0 _); [right; eauto|left; eauto].
Qed.

Lemma time_sleep_1 (w : world frame gray) :
  time_sleep 1 w = (Ok tt, with_trace (trace w ++ [Sleep 1]) w).
Proof. reflexivity. Qed.

Lemma iteration_paused (e : tick_env frame) (w : world frame gray) :
  detection_active w = false ->
  iteration e w = (Ok tt, with_trace (trace w ++ [Sleep 1]) w).
Proof. intros H. unfold iteration. run0. by rewrite H. Qed.

Lemma iteration_active (e : tick_env frame) (w : world frame gray) :
  detection_active w = true ->
  iteration e w =
    match try_block e w with
    | (Ok a, w1) => (Ok a, w1)
    | (Raise ex, w1) =>
        (Ok tt, with_trace (trace w1 ++ [PrintLoopError ex; Sleep 1]) w1)
    end.
Proof.
  intros H. unfold iteration. unfold bind at 1, gets at 1. rewrite H. cbn [negb].
  unfold try_except. destruct (try_block e w) as [[[]|ex] w1]; [reflexivity|].
  apply handler_ok.
Qed.

(** The [try] block never touches [CONFIG] or [detection_active].  Either
    it leaves the cooldown timestamp and the directory alone, or it reached
    [save_detection]: the camera returned a frame, motion was detected, the
    cooldown had elapsed and [detect_pets] returned.  Then, if
    [save_detection] raised, the timestamp is unchanged; if it returned, the
    timestamp is the time of this pass and the cleanup has run. *)
Lemma try_block_cases (e : tick_env frame) (w : world frame gray) :
  let w' := snd (try_block e w) in
  CONFIG w' = CONFIG w /\
  detection_active w' = detection_active w /\
  ((last_detection_time w' = last_detection_time w /\ storage w' = storage w) \/
   exists f pets wm r ws,
     capture_array e = Ok f /\
     detect_motion (cvtColor_RGB2BGR f) w = (Ok true, wm) /\
     in_cooldown (time_time e) (last_detection_time w) (CONFIG w) = false /\
     detect_pets e (cvtColor_RGB2BGR f) wm = (Ok pets, wm) /\
     save_detection e (cvtColor_RGB2BGR f) pets wm = (r, ws) /\
     match r with
     | Raise _ =>
         last_detection_time w' = last_detection_time w /\
         storage w' = storage ws
     | Ok _ =>
         last_detection_time w' = time_time e /\
         storage w' =
           storage (snd (cleanup_old_files e
                           (with_last_detection_time (time_time e) ws)))
     end).
Proof.
  cbv zeta. destruct (try_block e w) as [r w'] eqn:Hit. cbn [fst snd].
  unfold try_block in Hit. run0.
  destruct (capture_array e) as [f|ex] eqn:Hcap.
  2:{ injection Hit as <- <-. do 2 (split; [congruence|]). left. by split. }
  pose proof (detect_motion_frame (cvtColor_RGB2BGR f) w) as Hmf.
  destruct (detect_motion (cvtColor_RGB2BGR f) w) as [[motion|ex] wm] eqn:Hm;
    cbn [snd] in Hmf; destruct Hmf as (Hc & Hl & Ha & Hs & Ht).
  2:{ injection Hit as <- <-. do 2 (split; [congruence|]). left. by split. }
  assert (Hsleep : forall (w1 : world frame gray) r1 w2,
            sleep_one_frame w1 = (r1, w2) ->
            CONFIG w2 = CONFIG w1 /\ detection_active w2 = detection_active w1 /\
            last_detection_time w2 = last_detection_time w1 /\
            storage w2 = storage w1).
  { intros w1 r1 w2 H. pose proof (sleep_one_frame_frame w1) as [(?&?&?&?) ?].
    rewrite H in *. by cbn [snd] in *. }
  destruct motion.
  2:{ apply Hsleep in Hit as (?&?&?&?).
      do 2 (split; [congruence|]). left. split; congruence. }
  destruct (in_cooldown (time_time e) (last_detection_time wm) (CONFIG wm)) eqn:Hcool.
  { apply Hsleep in Hit as (?&?&?&?).
    do 2 (split; [congruence|]). left. split; congruence. }
  rewrite Hl, Hc in Hcool.
  pose proof (detect_pets_world e (cvtColor_RGB2BGR f) wm) as Hpw.
  destruct (detect_pets e (cvtColor_RGB2BGR f) wm) as [[pets|ex] wp] eqn:Hp;
    cbn [snd] in Hpw; subst wp.
  2:{ injection Hit as <- <-. do 2 (split; [congruence|]). left. split; congruence. }
  rewrite orb_true_r in Hit.
  pose proof (save_detection_globals e (cvtColor_RGB2BGR f) pets wm) as Hsg.
  destruct (save_detection e (cvtColor_RGB2BGR f) pets wm) as [[p|ex] ws] eqn:Hsave;
    cbn [snd] in Hsg; destruct Hsg as (Hc2 & Hl2 & Ha2 & _).
  2:{ injection Hit as <- <-. do 2 (split; [congruence|]). right.
      exists f, pets, wm, (Raise ex), ws. repeat split; congruence. }
  pose proof (cleanup_never_raises e (with_last_detection_time (time_time e) ws)) as Hcr.
  pose proof (cleanup_same_globals e (with_last_detection_time (time_time e) ws)) as Hcg.
  destruct (cleanup_old_files e (with_last_detection_time (time_time e) ws))
    as [rc wc] eqn:Hclean.
  cbn [fst snd] in Hcr, Hcg. subst rc. destruct Hcg as (Hc3 & Hl3 & Ha3 & _).
  cbn [CONFIG last_detection_time detection_active with_last_detection_time]
    in Hc3, Hl3, Ha3.
  apply Hsleep in Hit as (?&?&?&?).
  do 2 (split; [congruence|]). right.
  exists f, pets, wm, (Ok p), ws. rewrite Hclean. cbn [snd].
  repeat split; congruence.
Qed.

(** What a pass can do.  It never raises and never touches [CONFIG] or
    [detection_active].  Either it leaves the cooldown timestamp and the
    directory alone, or it reached [save_detection] as described in
    [try_block_cases]. *)
Lemma iteration_cases (e : tick_env frame) (w : world frame gray) :
  let w' := snd (iteration e w) in
  fst (iteration e w) = Ok tt /\
  CONFIG w' = CONFIG w /\
  detection_active w' = detection_active w /\
  ((last_detection_time w' = last_detection_time w /\ storage w' = storage w) \/
   exists f pets wm r ws,
     detection_active w = true /\
     capture_array e = Ok f /\
     detect_motion (cvtColor_RGB2BGR f) w = (Ok true, wm) /\
     in_cooldown (time_time e) (last_detection_time w) (CONFIG w) = false /\
     detect_pets e (cvtColor_RGB2BGR f) wm = (Ok pets, wm) /\
     save_detection e (cvtColor_RGB2BGR f) pets wm = (r, ws) /\
     match r with
     | Raise _ =>
         last_detection_time w' = last_detection_time w /\
         storage w' = storage ws
     | Ok _ =>
         last_detection_time w' = time_time e /\
         storage w' =
           storage (snd (cleanup_old_files e
                           (with_last_detection_time (time_time e) ws)))
     end).
Proof.
  cbv zeta. destruct (detection_active w) eqn:Hactive.
  2:{ rewrite iteration_paused by done. cbn.
      split; [reflexivity|]. do 2 (split; [congruence|]). left. by split. }
  rewrite iteration_active by done.
  pose proof (try_block_cases e w) as Hb. cbv zeta in Hb.
  destruct (try_block e w) as [[[]|ex] w1];
    cbn [fst snd CONFIG detection_active last_detection_time storage
         with_trace] in *.
  - split; [reflexivity|]. destruct Hb as (Hc & Ha & Hrest).
    do 2 (split; [congruence|]).
    destruct Hrest as [?|(f & pets & wm & r & ws & H)]; [by left|right].
    exists f, pets, wm, r, ws. split; [reflexivity|]. exact H.
  - split; [reflexivity|]. destruct Hb as (Hc & Ha & Hrest).
    do 2 (split; [congruence|]).
    destruct Hrest as [?|(f & pets & wm & r & ws & H)]; [by left|right].
    exists f, pets, wm, r, ws. split; [reflexivity|]. exact H.
Qed.

(** ** The first observation *)

Lemma detect_motion_first (f : frame) (w : world frame gray) :
  detect_motion f (with_background_frame None w)
  = (Ok false,
     with_background_frame (Some (GaussianBlur (cvtColor_BGR2GRAY f) 21)) w).
Proof. reflexivity. Qed.

(** C6.  With no background yet, [detect_motion] returns [False] for
    every frame and makes the grayscale, blurred frame the background.  So
    the pass of the loop that makes the first observation records nothing,
    whatever the camera shows: the directory and the cooldown timestamp are
    as before. *)
Theorem first_observation_is_baseline (e : tick_env frame) (f : frame)
    (w : world frame gray) :
  let w0 := with_background_frame None w in
  detect_motion f w0
  = (Ok false,
     with_background_frame (Some (GaussianBlur (cvtColor_BGR2GRAY f) 21)) w) /\
  background_frame (snd (detect_motion f w0))
  = Some (GaussianBlur (cvtColor_BGR2GRAY f) 21) /\
  storage (snd (iteration e w0)) = storage w /\
  last_detection_time (snd (iteration e w0)) = last_detection_time w.
Proof.
  intros w0. split; [apply detect_motion_first|]. split; [reflexivity|].
  destruct (iteration_cases e w0) as (_ & _ & _ & Hcases).
  destruct Hcases as [[Hl Hs]|(f' & pets & wm & r & ws & _ & _ & Hm & _)].
  - split; [exact Hs|exact Hl].
  - unfold w0 in Hm. rewrite detect_motion_first in Hm. discriminate.
Qed.

(** ** The loop *)

Lemma iteration_never_raises (e : tick_env frame) (w : world frame gray) :
  fst (iteration e w) = Ok tt.
Proof. apply iteration_cases. Qed.

Lemma monitoring_loop_cons (e : tick_env frame) (rest : list (tick_env frame))
    (w : world frame gray) :
  monitoring_loop (e :: rest) w = monitoring_loop rest (snd (iteration e w)).
Proof.
  cbn [monitoring_loop]. pose proof (iteration_never_raises e w) as H.
  destruct (iteration e w) as [r w1] eqn:Hit. cbn [fst snd] in *. subst r.
  by rewrite (bind_ok _ _ _ _ _ Hit).
Qed.

Lemma monitoring_loop_never_raises (envs : list (tick_env frame))
    (w : world frame gray) :
  fst (monitoring_loop envs w) = Ok tt.
Proof.
  revert w. induction envs as [|e envs IH]; intros w; [reflexivity|].
  rewrite monitoring_loop_cons. apply IH.
Qed.

Lemma Qlt_bool_iff (a b : Q) : Qlt_bool a b = true <-> (a < b)%Q.
Proof.
  unfold Qlt_bool. rewrite negb_true_iff. split.
  - intros H. apply Qnot_le_lt. intros Hle. apply Qle_bool_iff in Hle. congruence.
  - intros H. destruct (Qle_bool b a) eqn:Hb; [|reflexivity].
    apply Qle_bool_iff in Hb. exfalso. eapply Qlt_not_le; eassumption.
Qed.

Lemma in_cooldown_false_iff (now last : Q) (c : config) :
  in_cooldown now last c = false <->
  (inject_Z (cooldown_seconds c) <= now - last)%Q.
Proof.
  unfold in_cooldown, Qlt_bool. rewrite negb_false_iff. apply Qle_bool_iff.
Qed.

(** While the cooldown runs, passes change neither the timestamp nor the
    directory, whatever else happens in them. *)
Lemma monitoring_loop_in_cooldown (envs : list (tick_env frame))
    (w : world frame gray) :
  Forall (fun e => in_cooldown (time_time e) (last_detection_time w) (CONFIG w)
                   = true) envs ->
  let w' := snd (monitoring_loop envs w) in
  last_detection_time w' = last_detection_time w /\
  storage w' = storage w /\
  CONFIG w' = CONFIG w.
Proof.
  cbv zeta. revert w. induction envs as [|e envs IH]; intros w H; [done|].
  apply Forall_cons in H as [He H]. rewrite monitoring_loop_cons.
  destruct (iteration_cases e w) as (_ & Hc & _ & Hcases). cbv zeta in *.
  destruct Hcases as [[Hl Hs]|(f & pets & wm & r & ws & _ & _ & _ & Hcool & _)];
    [|congruence].
  destruct (IH (snd (iteration e w))) as (Hl' & Hs' & Hc').
  { rewrite Hl, Hc. exact H. }
  repeat split; congruence.
Qed.

(** A pass in which every stage up to [save_detection] works. *)
Lemma try_block_recorded (e : tick_env frame) (w wm ws : world frame gray)
    (f : frame) (pets : list pet) (p : path) :
  capture_array e = Ok f ->
  detect_motion (cvtColor_RGB2BGR f) w = (Ok true, wm) ->
  in_cooldown (time_time e) (last_detection_time w) (CONFIG w) = false ->
  detect_pets e (cvtColor_RGB2BGR f) wm = (Ok pets, wm) ->
  save_detection e (cvtColor_RGB2BGR f) pets wm = (Ok p, ws) ->
  try_block e w =
    sleep_one_frame
      (snd (cleanup_old_files e (with_last_detection_time (time_time e) ws))).
Proof.
  intros Hcap Hm Hcool Hp Hsave.
  pose proof (detect_motion_frame (cvtColor_RGB2BGR f) w) as Hmf.
  rewrite Hm in Hmf. destruct Hmf as (Hc & Hl & _).
  cbn [snd] in Hc, Hl.
  unfold try_block. run0. rewrite Hcap, Hm, Hl, Hc, Hcool, Hp, orb_true_r, Hsave.
  pose proof (cleanup_never_raises e (with_last_detection_time (time_time e) ws)) as Hcr.
  destruct (cleanup_old_files e _) as [rc wc]. cbn [fst snd] in *. by subst rc.
Qed.

Lemma iteration_recorded (e : tick_env frame) (w wm ws : world frame gray)
    (f : frame) (pets : list pet) (p : path) :
  detection_active w = true ->
  capture_array e = Ok f ->
  detect_motion (cvtColor_RGB2BGR f) w = (Ok true, wm) ->
  in_cooldown (time_time e) (last_detection_time w) (CONFIG w) = false ->
  detect_pets e (cvtColor_RGB2BGR f) wm = (Ok pets, wm) ->
  save_detection e (cvtColor_RGB2BGR f) pets wm = (Ok p, ws) ->
  last_detection_time (snd (iteration e w)) = time_time e /\
  storage (snd (iteration e w)) =
    storage (snd (cleanup_old_files e (with_last_detection_time (time_time e) ws))).
Proof.
  intros Ha Hcap Hm Hcool Hp Hsave.
  rewrite iteration_active by done.
  rewrite (try_block_recorded e w wm ws f pets p) by done.
  pose proof (cleanup_same_globals e (with_last_detection_time (time_time e) ws))
    as (_ & Hl & _).
  set (wc := snd (cleanup_old_files e (with_last_detection_time (time_time e) ws))) in *.
  cbn [last_detection_time with_last_detection_time] in Hl.
  pose proof (sleep_one_frame_frame wc) as [(_ & Hl2 & _) Hs2].
  destruct (sleep_one_frame wc) as [[[]|ex] w2];
    cbn [fst snd last_detection_time storage with_trace] in *;
    split; congruence.
Qed.

(** ** Failures inside a pass *)

Lemma detect_pets_call_raises (e : tick_env frame) (f : frame) (ex : exn)
    (w : world frame gray) :
  model_call e f (detection_confidence (CONFIG w)) = Raise ex ->
  detect_pets e f w = (Raise ex, w).
Proof. intros H. unfold detect_pets. run. by rewrite H. Qed.

(** A pass in which the call of the model raises, whether or not the pass
    gets as far as the call. *)
Lemma iteration_model_raises (e : tick_env frame) (f : frame) (ex : exn)
    (w : world frame gray) :
  capture_array e = Ok f ->
  model_call e (cvtColor_RGB2BGR f) (detection_confidence (CONFIG w)) = Raise ex ->
  last_detection_time (snd (iteration e w)) = last_detection_time w /\
  storage (snd (iteration e w)) = storage w.
Proof.
  intros Hcap Hraise.
  destruct (iteration_cases e w) as (_ & _ & _ & Hcases).
  destruct Hcases as [?|(f' & pets & wm & r & ws & _ & Hcap' & Hm & _ & Hp & _)];
    [done|].
  rewrite Hcap in Hcap'. injection Hcap' as <-.
  pose proof (detect_motion_frame (cvtColor_RGB2BGR f) w) as Hmf.
  rewrite Hm in Hmf. destruct Hmf as (Hc & _). cbn [snd] in Hc.
  rewrite <- Hc in Hraise.
  rewrite (detect_pets_call_raises _ _ _ _ Hraise) in Hp. discriminate.
Qed.

(** The pass that reaches the call of the model, when the call raises: the
    error is printed, the loop sleeps one second. *)
Lemma iteration_model_raises_logged (e : tick_env frame) (f : frame) (ex : exn)
    (w wm : world frame gray) :
  detection_active w = true ->
  capture_array e = Ok f ->
  detect_motion (cvtColor_RGB2BGR f) w = (Ok true, wm) ->
  in_cooldown (time_time e) (last_detection_time w) (CONFIG w) = false ->
  model_call e (cvtColor_RGB2BGR f) (detection_confidence (CONFIG w)) = Raise ex ->
  iteration e w = (Ok tt, with_trace (trace wm ++ [PrintLoopError ex; Sleep 1]) wm).
Proof.
  intros Ha Hcap Hm Hcool Hraise.
  pose proof (detect_motion_frame (cvtColor_RGB2BGR f) w) as Hmf.
  rewrite Hm in Hmf. destruct Hmf as (Hc & Hl & _). cbn [snd] in Hc, Hl.
  rewrite <- Hc in Hraise.
  rewrite iteration_active by done.
  unfold try_block. run0. rewrite Hcap, Hm, Hl, Hc, Hcool.
  by rewrite (detect_pets_call_raises _ _ _ _ Hraise).
Qed.

(** C5.  When the call of the model raises in a pass, the pass writes
    nothing: the directory, the cooldown timestamp, [CONFIG] and
    [detection_active] are as before and the pass ends normally; when the
    pass got as far as the call, the error is printed and the loop sleeps
    one second.  The loop goes on: a following pass in which every stage
    works (motion, the cooldown over, the model and both writes succeed)
    writes its image and its metadata, sets the timestamp and runs the
    cleanup, as if the failed pass had not been; the cooldown is still
    counted from the timestamp before the failed pass.  No pass makes the
    loop end: whatever the environments of the passes, no exception leaves
    the loop. *)
Theorem classifier_failure_is_survived (e : tick_env frame) (f : frame)
    (ex : exn) (w : world frame gray) :
  capture_array e = Ok f ->
  model_call e (cvtColor_RGB2BGR f) (detection_confidence (CONFIG w)) = Raise ex ->
  let w1 := snd (iteration e w) in
  fst (iteration e w) = Ok tt /\
  storage w1 = storage w /\
  last_detection_time w1 = last_detection_time w /\
  CONFIG w1 = CONFIG w /\
  detection_active w1 = detection_active w /\
  (forall wm,
     detection_active w = true ->
     detect_motion (cvtColor_RGB2BGR f) w = (Ok true, wm) ->
     in_cooldown (time_time e) (last_detection_time w) (CONFIG w) = false ->
     iteration e w
     = (Ok tt, with_trace (trace wm ++ [PrintLoopError ex; Sleep 1]) wm)) /\
  (forall (e2 : tick_env frame) (rest : list (tick_env frame)) (f2 : frame)
          (wm2 : world frame gray) (pets2 : list pet)
          (size size' : Z) (mtime mtime' : Q),
     detection_active w = true ->
     capture_array e2 = Ok f2 ->
     detect_motion (cvtColor_RGB2BGR f2) w1 = (Ok true, wm2) ->
     in_cooldown (time_time e2) (last_detection_time w) (CONFIG w) = false ->
     detect_pets e2 (cvtColor_RGB2BGR f2) wm2 = (Ok pets2, wm2) ->
     datetime_ok (datetime_now e2) = true ->
     imwrite_outcome e2 = Written size mtime ->
     json_dump_outcome e2 = Written size' mtime' ->
     let category := category_of pets2 in
     let name := strftime_id (datetime_now e2) in
     let ws := snd (save_detection e2 (cvtColor_RGB2BGR f2) pets2 wm2) in
     let w2 := snd (iteration e2 w1) in
     monitoring_loop (e :: e2 :: rest) w = monitoring_loop rest w2 /\
     storage ws !! (category, name +:+ ".jpg")
     = Some {| st_size := size; st_mtime := mtime;
               body := Jpeg (cvtColor_RGB2BGR f2) |} /\
     storage ws !! (category, name +:+ ".json")
     = Some {| st_size := size'; st_mtime := mtime';
               body := JsonDoc {| md_timestamp := isoformat (datetime_now e2);
                                  md_category := category;
                                  md_detections := pets2;
                                  md_filename := name +:+ ".jpg" |} |} /\
     last_detection_time w2 = time_time e2 /\
     storage w2
     = storage (snd (cleanup_old_files e2
                       (with_last_detection_time (time_time e2) ws)))) /\
  (forall (envs : list (tick_env frame)) (w0 : world frame gray),
     fst (monitoring_loop envs w0) = Ok tt).
Proof.
  intros Hcap Hraise w1.
  destruct (iteration_cases e w) as (Hok & Hc & Ha & _). fold w1 in Hc, Ha.
  destruct (iteration_model_raises e f ex w Hcap Hraise) as [Hl Hs].
  fold w1 in Hl, Hs.
  split; [exact Hok|]. split; [exact Hs|]. split; [exact Hl|].
  split; [exact Hc|]. split; [exact Ha|]. split.
  { intros wm Hact Hm Hcool. by apply (iteration_model_raises_logged e f). }
  split; [|apply monitoring_loop_never_raises].
  intros e2 rest f2 wm2 pets2 size size' mtime mtime'
         Hact Hcap2 Hm2 Hcool2 Hp2 Hdt Himg Hjson category name ws w2.
  destruct (save_detection_written e2 (cvtColor_RGB2BGR f2) pets2 wm2
              size size' mtime mtime' Hdt Himg Hjson) as (Hr & Hst & _).
  fold category name ws in Hr, Hst.
  assert (Hsave : save_detection e2 (cvtColor_RGB2BGR f2) pets2 wm2
                  = (Ok (category, name +:+ ".jpg"), ws)).
  { unfold ws. destruct (save_detection e2 _ pets2 wm2) as [r0 w0].
    cbn [fst snd] in *. by subst r0. }
  destruct (iteration_recorded e2 w1 wm2 ws f2 pets2 (category, name +:+ ".jpg"))
    as [Hl2 Hs2]; try done.
  { congruence. } { by rewrite Hl, Hc. }
  fold w2 in Hl2, Hs2.
  split; [by rewrite !monitoring_loop_cons|].
  split.
  { rewrite Hst, lookup_insert_ne by apply jpg_path_ne_json.
    apply lookup_insert_eq. }
  split; [rewrite Hst; apply lookup_insert_eq|]. by split.
Qed.

(** C10 (as amended).  If the call of the model or one of the two writes
    raises in a pass, the pass leaves [last_detection_time] as it was.  In
    every pass the timestamp either stays, or it becomes the time of the
    pass, and then the pass went through motion and debounce, the model
    returned, and [save_detection] returned normally: neither write raised.
    What [cv2.imwrite] returned is not looked at. *)
Theorem cooldown_timestamp_follows_write (e : tick_env frame)
    (w : world frame gray) :
  let w' := snd (iteration e w) in
  (forall f ex,
     capture_array e = Ok f ->
     model_call e (cvtColor_RGB2BGR f) (detection_confidence (CONFIG w))
     = Raise ex ->
     last_detection_time w' = last_detection_time w) /\
  (write_raises e -> last_detection_time w' = last_detection_time w) /\
  (last_detection_time w' = last_detection_time w \/
   exists f pets (wm : world frame gray) p (ws : world frame gray),
     detection_active w = true /\
     capture_array e = Ok f /\
     detect_motion (cvtColor_RGB2BGR f) w = (Ok true, wm) /\
     in_cooldown (time_time e) (last_detection_time w) (CONFIG w) = false /\
     detect_pets e (cvtColor_RGB2BGR f) wm = (Ok pets, wm) /\
     save_detection e (cvtColor_RGB2BGR f) pets wm = (Ok p, ws) /\
     outcome_raised (imwrite_outcome e) = None /\
     outcome_raised (json_dump_outcome e) = None /\
     last_detection_time w' = time_time e).
Proof.
  intros w'. split; [|split].
  - intros f ex Hcap Hraise. by apply (iteration_model_raises e f ex).
  - intros Hraise.
    destruct (iteration_cases e w) as (_ & _ & _ & Hcases). fold w' in Hcases.
    destruct Hcases as [[Hl _]|(f & pets & wm & r & ws & _ & _ & _ & _ & _ & Hsave & Hr)];
      [done|].
    destruct (save_detection_write_raises e (cvtColor_RGB2BGR f) pets wm Hraise)
      as [ex Hex].
    rewrite Hsave in Hex. cbn [fst] in Hex. subst r. by destruct Hr.
  - destruct (iteration_cases e w) as (_ & _ & _ & Hcases). fold w' in Hcases.
    destruct Hcases
      as [[Hl _]|(f & pets & wm & r & ws & Ha & Hcap & Hm & Hcool & Hp & Hsave & Hr)];
      [by left|].
    destruct r as [p|ex]; [|left; by destruct Hr].
    right. exists f, pets, wm, p, ws. destruct Hr as [Hl _].
    assert (Hno : outcome_raised (imwrite_outcome e) = None /\
                  outcome_raised (json_dump_outcome e) = None).
    { destruct (outcome_raised (imwrite_outcome e)) as [ex|] eqn:Hi.
      - destruct (save_detection_write_raises e (cvtColor_RGB2BGR f) pets wm)
          as [ex' Hex]; [left; by eexists|].
        rewrite Hsave in Hex. discriminate.
      - destruct (outcome_raised (json_dump_outcome e)) as [ex|] eqn:Hj; [|done].
        destruct (save_detection_write_raises e (cvtColor_RGB2BGR f) pets wm)
          as [ex' Hex]; [right; by eexists|].
        rewrite Hsave in Hex. discriminate. }
    destruct Hno. by repeat split.
Qed.

(** ** The debounce *)

(** C7 (as amended).  Take a pass in which motion is detected and neither
    the model nor the write raises.  The pass is let through exactly when
    [now - last_detection_time >= cooldown_seconds].  When it is held back,
    the timestamp and the directory are as before.  When it is let through,
    the timestamp becomes [now], and in all later passes that come less than
    [cooldown_seconds] after it nothing more is recorded: the timestamp and
    the directory stay as this pass left them. *)
Theorem debounce_one_event_per_window (e : tick_env frame)
    (envs : list (tick_env frame)) (w wm ws : world frame gray)
    (f : frame) (pets : list pet) (p : path) :
  detection_active w = true ->
  capture_array e = Ok f ->
  detect_motion (cvtColor_RGB2BGR f) w = (Ok true, wm) ->
  detect_pets e (cvtColor_RGB2BGR f) wm = (Ok pets, wm) ->
  save_detection e (cvtColor_RGB2BGR f) pets wm = (Ok p, ws) ->
  Forall (fun e' => (time_time e' - time_time e
                     < inject_Z (cooldown_seconds (CONFIG w)))%Q) envs ->
  let now := time_time e in
  let last := last_detection_time w in
  let w1 := snd (iteration e w) in
  let w2 := snd (monitoring_loop envs w1) in
  (in_cooldown now last (CONFIG w) = false <->
   (inject_Z (cooldown_seconds (CONFIG w)) <= now - last)%Q) /\
  (in_cooldown now last (CONFIG w) = true ->
   last_detection_time w1 = last /\ storage w1 = storage w) /\
  (in_cooldown now last (CONFIG w) = false ->
   last_detection_time w1 = now /\
   last_detection_time w2 = now /\
   storage w2 = storage w1).
Proof.
  intros Ha Hcap Hm Hp Hsave Hwin now last w1 w2.
  split; [apply in_cooldown_false_iff|]. split.
  - intros Hcool.
    destruct (iteration_cases e w) as (_ & _ & _ & Hcases). fold w1 in Hcases.
    destruct Hcases as [?|(f' & pets' & wm' & r & ws' & _ & _ & _ & Hc & _)]; [done|].
    unfold now, last in Hcool. rewrite Hc in Hcool. discriminate.
  - intros Hcool.
    destruct (iteration_recorded e w wm ws f pets p) as [Hl Hs]; try done.
    fold w1 in Hl, Hs.
    destruct (iteration_cases e w) as (_ & Hc & _). fold w1 in Hc.
    destruct (monitoring_loop_in_cooldown envs w1) as (Hl2 & Hs2 & _).
    { rewrite Hl, Hc. eapply Forall_impl; [exact Hwin|].
      intros e' He'. cbn beta in He'. by apply Qlt_bool_iff. }
    fold w2 in Hl2, Hs2. unfold now. repeat split; congruence.
Qed.

End LoopFacts.

(** ** Runs of the loop on the example passes *)

Lemma classifier_failure_is_survived_witness :
  let w1 := snd (iteration (cv := cv_rows) pass_model_raises dark_world) in
  let pets := [ {| type := "cat"; confidence := 5 # 8;
                   bbox := [10; 20; 110; 170]%Q |} ] in
  let ws := snd (save_detection pass_100_5 bright pets
                   (with_background_frame (Some [38; 38; 38; 38]) w1)) in
  storage w1 = storage dark_world /\
  body <$> storage ws !! ("cats", "20240101_120000.jpg") = Some (Jpeg bright) /\
  last_detection_time
    (snd (iteration (cv := cv_rows) pass_100_5 w1)) = (201 # 2)%Q.
Proof.
  pose proof (classifier_failure_is_survived (cv := cv_rows)
                pass_model_raises bright (RuntimeError "inference failed")
                dark_world eq_refl eq_refl) as H.
  cbv zeta in H.
  destruct H as (_ & Hs & _ & _ & _ & _ & H2 & _).
  specialize (H2 pass_100_5 [] bright
                (with_background_frame (Some [38; 38; 38; 38])
                   (snd (iteration (cv := cv_rows) pass_model_raises dark_world)))
                [ {| type := "cat"; confidence := 5 # 8;
                     bbox := [10; 20; 110; 170]%Q |} ]
                1000 300 (201 # 2)%Q (201 # 2)%Q).
  cbv zeta in H2.
  destruct H2 as (_ & Hi & _ & Hl & _).
  - reflexivity.
  - reflexivity.
  - vm_compute. reflexivity.
  - vm_compute. reflexivity.
  - vm_compute. reflexivity.
  - reflexivity.
  - reflexivity.
  - reflexivity.
  - cbv zeta. split; [exact Hs|]. split; [|exact Hl].
    exact (eq_trans (f_equal (fmap body) Hi) eq_refl).
Defined.

Lemma cooldown_timestamp_follows_write_witness :
  last_detection_time (snd (iteration (cv := cv_rows) pass_model_raises dark_world))
  = last_detection_time dark_world.
Proof.
  exact (proj1 (cooldown_timestamp_follows_write (cv := cv_rows)
                  pass_model_raises dark_world)
           bright (RuntimeError "inference failed") eq_refl eq_refl).
Defined.

(** C10 as stated fails.  In a pass at time 100 motion is detected, the
    cooldown is over, the model returns a cat, [cv2.imwrite] returns [False]
    and the metadata is written.  No image is in the directory after the
    pass, and [last_detection_time] has become 100. *)
Lemma cooldown_timestamp_without_image_counterexample :
  let w := dark_world in
  let w1 := snd (iteration (cv := cv_rows) pass_imwrite_false w) in
  imwrite_outcome pass_imwrite_false = NotWritten /\
  last_detection_time w = 0%Q /\
  last_detection_time w1 = 100%Q /\
  storage w1 !! ("cats", "20240101_120000.jpg") = None /\
  jpg_files (storage w1) = [] /\
  body <$> storage w1 !! ("cats", "20240101_120000.json")
  = Some (JsonDoc {| md_timestamp := "2024-01-01T12:00:00";
                     md_category := "cats";
                     md_detections :=
                       [ {| type := "cat"; confidence := 5 # 8;
                            bbox := [10; 20; 110; 170]%Q |} ];
                     md_filename := "20240101_120000.jpg" |}).
Proof.
  vm_compute. repeat apply conj; reflexivity.
Qed.

Lemma debounce_one_event_per_window_witness :
  let w1 := snd (iteration (cv := cv_rows) pass_100 dark_world) in
  let w2 := snd (monitoring_loop (cv := cv_rows) [pass_100_5; pass_104] w1) in
  last_detection_time w1 = 100%Q /\
  last_detection_time w2 = 100%Q /\
  storage w2 = storage w1.
Proof.
  eapply (debounce_one_event_per_window (cv := cv_rows)
            pass_100 [pass_100_5; pass_104] dark_world).
  - reflexivity.
  - reflexivity.
  - vm_compute. reflexivity.
  - vm_compute. reflexivity.
  - vm_compute. reflexivity.
  - repeat constructor.
  - vm_compute. reflexivity.
Defined.

(** C7 as stated fails.  In a pass at time 100 motion is detected and
    [now - last_detection_time = 100 >= 5], so the pass is let through; the
    model raises, and [last_detection_time] is still 0, not 100.  The pass
    that follows half a second later is let through as well: two passes in
    one cooldown window go on to the classifier. *)
Lemma debounce_accept_updates_counterexample :
  let w := dark_world in
  let w1 := snd (iteration (cv := cv_rows) pass_model_raises w) in
  fst (detect_motion (cv := cv_rows) bright w) = Ok true /\
  (inject_Z (cooldown_seconds (CONFIG w))
   <= time_time pass_model_raises - last_detection_time w)%Q /\
  in_cooldown (time_time pass_model_raises) (last_detection_time w) (CONFIG w)
  = false /\
  ~ (last_detection_time w1 == time_time pass_model_raises)%Q /\
  fst (detect_motion (cv := cv_rows) bright w1) = Ok true /\
  (time_time pass_100_5 - time_time pass_model_raises
   < inject_Z (cooldown_seconds (CONFIG w1)))%Q /\
  in_cooldown (time_time pass_100_5) (last_detection_time w1) (CONFIG w1)
  = false.
Proof.
  vm_compute. repeat apply conj; try reflexivity; discriminate.
Qed.

Section BoundaryFacts.
Context {frame gray : Type} {cv : CV2 frame gray}.

(** ** [detect_pets] *)

Lemma detect_pets_box_spec (r : yolo_result) (b : box) (acc acc' : list pet)
    (w w' : world frame gray) :
  detect_pets_box r b acc w = (Ok acc', w') ->
  acc' = acc ++ option_list (pet_of_box r b).
Proof.
  unfold detect_pets_box, pet_of_box.
  destruct (names r !! cls b) as [n|]; [|discriminate].
  destruct (_ || _); run; intros H; injection H as <- _; [reflexivity|].
  by rewrite app_nil_r.
Qed.

Lemma detect_pets_boxes_spec (r : yolo_result) (bs : list box)
    (acc acc' : list pet) (w w' : world frame gray) :
  detect_pets_boxes r bs acc w = (Ok acc', w') ->
  acc' = acc ++ omap (pet_of_box r) bs.
Proof.
  revert acc w. induction bs as [|b bs IH]; intros acc w.
  - run. intros H. injection H as <- _. by rewrite app_nil_r.
  - cbn [detect_pets_boxes]. unfold bind.
    destruct (detect_pets_box r b acc w) as [[acc1|ex] w1] eqn:Hb; [|discriminate].
    apply detect_pets_box_spec in Hb. intros H. apply IH in H. subst.
    rewrite <- app_assoc. f_equal.
    cbn [omap list_omap]. by destruct (pet_of_box r b).
Qed.

Lemma detect_pets_results_spec (results : list yolo_result)
    (acc acc' : list pet) (w w' : world frame gray) :
  detect_pets_results results acc w = (Ok acc', w') ->
  acc' = acc ++ pets_of_results results.
Proof.
  revert acc w. induction results as [|r rs IH]; intros acc w.
  - run. intros H. injection H as <- _. by rewrite app_nil_r.
  - cbn [detect_pets_results]. unfold bind.
    destruct (detect_pets_boxes r (boxes r) acc w) as [[acc1|ex] w1] eqn:Hb;
      [|discriminate].
    apply detect_pets_boxes_spec in Hb. intros H. apply IH in H. subst.
    rewrite <- app_assoc. reflexivity.
Qed.

Lemma elem_of_pets_of_results (results : list yolo_result) (p : pet) :
  p ∈ pets_of_results results ->
  exists r b, r ∈ results /\ b ∈ boxes r /\ pet_of_box r b = Some p.
Proof.
  unfold pets_of_results. intros H.
  apply list_elem_of_In, in_concat in H as (l & Hl & Hp).
  apply list_elem_of_In in Hl. apply list_elem_of_In in Hp.
  apply list_elem_of_fmap in Hl as (r & -> & Hr).
  apply list_elem_of_omap in Hp as (b & Hb & Hpb). eauto.
Qed.

(** C9 (as amended).  When [detect_pets] returns, the model had returned
    some results for the frame and the configured threshold, the list is
    made of exactly the boxes of these results whose class is cat or dog,
    in order, so every detection in it has type cat or dog; the world is
    unchanged.  [detect_pets] compares no confidence itself: the detections
    have at least the threshold when the model returned only such boxes. *)
Theorem detect_pets_keeps_cats_and_dogs (e : tick_env frame) (f : frame)
    (w : world frame gray) (pets : list pet) :
  fst (detect_pets e f w) = Ok pets ->
  let c := detection_confidence (CONFIG w) in
  exists results,
    model_call e f c = Ok results /\
    pets = pets_of_results results /\
    snd (detect_pets e f w) = w /\
    Forall (fun p => type p = "cat" \/ type p = "dog") pets /\
    (model_honours c results -> Forall (fun p => (c <= confidence p)%Q) pets).
Proof.
  intros H c. pose proof (detect_pets_world e f w) as Hw.
  unfold detect_pets in H. run. fold c in H.
  destruct (model_call e f c) as [results|ex] eqn:Hmodel; [|discriminate].
  exists results. split; [reflexivity|].
  destruct (detect_pets_results results [] w) as [r w1] eqn:Hres.
  cbn [fst] in H. subst r. apply detect_pets_results_spec in Hres.
  cbn [app] in Hres. subst pets.
  split; [reflexivity|]. split; [exact Hw|]. split.
  - apply Forall_forall. intros p Hp.
    apply elem_of_pets_of_results in Hp as (r & b & _ & _ & Hpb).
    unfold pet_of_box in Hpb. destruct (names r !! cls b) as [n|]; [|discriminate].
    destruct (String.eqb n "cat") eqn:Hcat; cbn [orb] in Hpb.
    { apply String.eqb_eq in Hcat. injection Hpb as <-. by left. }
    destruct (String.eqb n "dog") eqn:Hdog; [|discriminate].
    apply String.eqb_eq in Hdog. injection Hpb as <-. by right.
  - intros Hhon. apply Forall_forall. intros p Hp.
    apply elem_of_pets_of_results in Hp as (r & b & Hr & Hb & Hpb).
    unfold model_honours in Hhon. rewrite Forall_forall in Hhon.
    specialize (Hhon r Hr). rewrite Forall_forall in Hhon. specialize (Hhon b Hb).
    unfold pet_of_box in Hpb. destruct (names r !! cls b) as [n|]; [|discriminate].
    destruct (_ || _); [|discriminate]. injection Hpb as <-. exact Hhon.
Qed.

(** ** [handle_config] *)

Lemma jsonify_CONFIG (c : config) : jsonify (CONFIG_items c) = Raise TypeError.
Proof. reflexivity. Qed.

Lemma with_CONFIG_same (w : world frame gray) : with_CONFIG (CONFIG w) w = w.
Proof. by destruct w. Qed.

(** C3 (as amended).  For every POST, whatever the request holds: the keys
    [fps], [high_water_mark_gb] and [detection_confidence] that it names are
    taken in this order; the value of each is converted with [int()]
    ([fps], [high_water_mark_gb]) or [float()] ([detection_confidence]) and
    the result is stored whatever it is, nothing compares it with a range.
    A value is turned down only when its conversion raises: then the
    exception is the answer, the setting and those of the later keys keep
    their values, and the values of the keys before it have been stored.  A
    setting that the request does not name keeps its value, so a request
    that names none of the three changes nothing.  When no conversion
    raises, the answer is the [TypeError] that [jsonify(CONFIG)] raises on
    [storage_path], after the values have been stored. *)
Theorem handle_config_stores_converted_value
    (int_of_str : string -> option Z) (float_of_str : string -> option Q)
    (data : gmap string json) (w : world frame gray) :
  let r := handle_config int_of_str float_of_str POST data w in
  let f := py_int int_of_str <$> data !! "fps" in
  let h := py_int int_of_str <$> data !! "high_water_mark_gb" in
  let d := py_float float_of_str <$> data !! "detection_confidence" in
  match f with
  | Some (Raise ex) => r = (Raise ex, w)
  | _ =>
      let c1 := match f with Some (Ok n) => set_fps n (CONFIG w) | _ => CONFIG w end in
      match h with
      | Some (Raise ex) => r = (Raise ex, with_CONFIG c1 w)
      | _ =>
          let c2 := match h with
                    | Some (Ok n) => set_high_water_mark_gb n c1
                    | _ => c1
                    end in
          match d with
          | Some (Raise ex) => r = (Raise ex, with_CONFIG c2 w)
          | _ =>
              let c3 := match d with
                        | Some (Ok x) => set_detection_confidence x c2
                        | _ => c2
                        end in
              r = (Raise TypeError, with_CONFIG c3 w) /\
              (f = None -> h = None -> d = None -> snd r = w)
          end
      end
  end.
Proof.
  cbv zeta. unfold handle_config.
  destruct (data !! "fps") as [v1|]; cbn [fmap option_fmap option_map];
    [destruct (py_int int_of_str v1)|];
    (destruct (data !! "high_water_mark_gb") as [v2|];
       cbn [fmap option_fmap option_map];
       [destruct (py_int int_of_str v2)|]);
    (destruct (data !! "detection_confidence") as [v3|];
       cbn [fmap option_fmap option_map];
       [destruct (py_float float_of_str v3)|]);
    unfold bind, ret, gets, of_result, modify;
    cbn [fst snd CONFIG with_CONFIG fmap option_fmap option_map];
    rewrite ?with_CONFIG_same;
    first [ reflexivity
          | split; [reflexivity | intros; try discriminate; reflexivity] ].
Qed.

End BoundaryFacts.

(** C9 as stated fails.  After a request has raised the threshold to 0.75,
    the mock model draws one cat with confidence 0.625 (a value that
    [np.random.uniform(0.5, 0.95)] can return); [detect_pets] returns it. *)
Lemma detect_pets_threshold_counterexample :
  let w := snd (handle_config no_int no_float POST threshold_request dark_world) in
  mock_camera.draws_ok one_cat = true /\
  detection_confidence (CONFIG w) = (3 # 4)%Q /\
  fst (detect_pets pass_100 bright w)
  = Ok [ {| type := "cat"; confidence := 5 # 8;
            bbox := [10; 20; 110; 170]%Q |} ] /\
  (5 # 8 < detection_confidence (CONFIG w))%Q.
Proof.
  vm_compute. repeat apply conj; reflexivity.
Qed.

Lemma detect_pets_keeps_cats_and_dogs_witness :
  exists results,
    model_call pass_100 bright (detection_confidence (CONFIG dark_world))
    = Ok results /\
    [ {| type := "cat"; confidence := 5 # 8; bbox := [10; 20; 110; 170]%Q |} ]
    = pets_of_results results /\
    snd (detect_pets pass_100 bright dark_world) = dark_world /\
    Forall (fun p => type p = "cat" \/ type p = "dog")
      [ {| type := "cat"; confidence := 5 # 8; bbox := [10; 20; 110; 170]%Q |} ] /\
    (model_honours (detection_confidence (CONFIG dark_world)) results ->
     Forall (fun p => (detection_confidence (CONFIG dark_world) <= confidence p)%Q)
       [ {| type := "cat"; confidence := 5 # 8; bbox := [10; 20; 110; 170]%Q |} ]).
Proof.
  apply (detect_pets_keeps_cats_and_dogs pass_100 bright dark_world).
  vm_compute. reflexivity.
Defined.

(** C3 as stated fails.  A request with a frame rate of -3, a mark of -1
    and a confidence of 7.5 stores all three values in place of 2, 10 and
    0.5; the answer is the [TypeError] of [jsonify(CONFIG)], raised after the
    values have been stored. *)
Lemma handle_config_rejects_counterexample :
  let r := handle_config no_int no_float POST bad_request dark_world in
  fps_in_range (-3) = false /\
  high_water_mark_in_range (-1) = false /\
  confidence_in_range (15 # 2) = false /\
  fps (CONFIG dark_world) = 2 /\
  high_water_mark_gb (CONFIG dark_world) = 10 /\
  detection_confidence (CONFIG dark_world) = (5 # 10)%Q /\
  fst r = Raise TypeError /\
  fps (CONFIG (snd r)) = -3 /\
  high_water_mark_gb (CONFIG (snd r)) = -1 /\
  detection_confidence (CONFIG (snd r)) = (15 # 2)%Q.
Proof.
  vm_compute. repeat apply conj; reflexivity.
Qed.

Lemma handle_config_stores_converted_value_witness :
  snd (handle_config no_int no_float POST ∅ dark_world) = dark_world.
Proof.
  exact (proj2 (handle_config_stores_converted_value
                  no_int no_float ∅ dark_world) eq_refl eq_refl eq_refl).
Defined.


(* ===================================================================== *)
(** * Part III.  Further properties of the handlers and the loop          *)
(* ===================================================================== *)

(** ** Rounding to the nearest double *)

Ltac qcompare H :=
  first [apply Qeq_alt in H | apply Qlt_alt in H | apply Qgt_alt in H].

Section FloatsMore.
Local Open Scope Q_scope.

Lemma round_half_even_cases (x : Q) :
  (round_half_even x = Qfloor x /\ x - inject_Z (Qfloor x) <= 1 # 2) \/
  (round_half_even x = (Qfloor x + 1)%Z /\ 1 # 2 <= x - inject_Z (Qfloor x)).
Proof.
  unfold round_half_even. cbv zeta.
  destruct (Qcompare (x - inject_Z (Qfloor x)) (1 # 2)) eqn:Hc.
  - apply Qeq_alt in Hc. destruct (Z.even _); [left|right]; split; try reflexivity; lra.
  - apply Qlt_alt in Hc. left. split; [reflexivity|lra].
  - apply Qgt_alt in Hc. right. split; [reflexivity|lra].
Qed.

Lemma round_half_even_mono (x y : Q) :
  x <= y -> (round_half_even x <= round_half_even y)%Z.
Proof.
  intros Hxy.
  pose proof (Qfloor_resp_le _ _ Hxy) as Hf.
  destruct (Z.eq_dec (Qfloor x) (Qfloor y)) as [Heq|Hne].
  - unfold round_half_even. cbv zeta. rewrite <- Heq.
    destruct (Qcompare (x - inject_Z (Qfloor x)) (1 # 2)) eqn:Hcx;
      destruct (Qcompare (y - inject_Z (Qfloor x)) (1 # 2)) eqn:Hcy;
      qcompare Hcx; qcompare Hcy;
      try (destruct (Z.even (Qfloor x))); try lia; exfalso; lra.
  - destruct (round_half_even_cases x) as [[-> _]|[-> _]];
      destruct (round_half_even_cases y) as [[-> _]|[-> _]]; lia.
Qed.

Lemma round_half_even_le_int (x : Q) (m : Z) :
  x <= inject_Z m -> (round_half_even x <= m)%Z.
Proof.
  intros H. pose proof (Qfloor_resp_le _ _ H) as Hf. rewrite Qfloor_Z in Hf.
  destruct (round_half_even_cases x) as [[-> _]|[-> Hh]]; [exact Hf|].
  destruct (Z.eq_dec (Qfloor x) m) as [Heq|Hne]; [|lia].
  exfalso. rewrite Heq in Hh. lra.
Qed.

Lemma ilog2_upper (x : Q) : 0 < x -> x < Qpower 2 (ilog2 x + 1).
Proof.
  intros Hx. unfold ilog2. cbv zeta.
  destruct x as [p q]. simpl Qnum. simpl Qden.
  assert (Hp : (0 < p)%Z).
  { unfold Qlt in Hx. simpl in Hx. lia. }
  set (a := Z.log2 p). set (b := Z.log2 (Z.pos q)).
  destruct (Qle_bool (Qpower 2 (a - b)) (p # q)) eqn:Hb.
  - (* p/q < 2^(a-b+1) since p < 2^(a+1) and q >= 2^b *)
    assert (Ha : (0 <= a)%Z) by apply Z.log2_nonneg.
    assert (Hb' : (0 <= b)%Z) by apply Z.log2_nonneg.
    destruct (Z.log2_spec p Hp) as [_ Hpa]. fold a in Hpa.
    destruct (Z.log2_spec (Z.pos q) eq_refl) as [Hqb _]. fold b in Hqb.
    replace (a - b + 1)%Z with ((a + 1) - b)%Z by lia.
    rewrite Qpower_minus by discriminate.
    change (2 : Q) with (inject_Z 2).
    rewrite <- !Zpower_Qpower by lia.
    rewrite (Qmake_Qdiv p q).
    assert (H1 : 0 < inject_Z (2 ^ b)).
    { replace 0 with (inject_Z 0) by reflexivity. rewrite <- Zlt_Qlt. lia. }
    assert (H2 : 0 < inject_Z (Z.pos q)).
    { replace 0 with (inject_Z 0) by reflexivity. rewrite <- Zlt_Qlt. lia. }
    apply Qlt_shift_div_r; [assumption|].
    assert (Heq : inject_Z (2 ^ (a + 1)) / inject_Z (2 ^ b) * inject_Z (Z.pos q)
                  == inject_Z (2 ^ (a + 1) * Z.pos q) / inject_Z (2 ^ b)).
    { rewrite inject_Z_mult. field. lra. }
    rewrite Heq. apply Qlt_shift_div_l; [assumption|].
    rewrite <- inject_Z_mult, <- Zlt_Qlt.
    replace (Z.succ a) with (a + 1)%Z in Hpa by lia.
    nia.
  - replace (a - b - 1 + 1)%Z with (a - b)%Z by lia.
    apply Qnot_le_lt. intros H. apply Qle_bool_iff in H. congruence.
Qed.

Lemma ilog2_mono (x y : Q) : 0 < x -> x <= y -> (ilog2 x <= ilog2 y)%Z.
Proof.
  intros Hx Hxy.
  assert (Hy : 0 < y) by lra.
  apply Z.lt_succ_r. unfold Z.succ.
  apply (Qpower_lt_compat_l_inv 2); [|reflexivity].
  eapply Qle_lt_trans; [apply ilog2_lower, Hx|].
  eapply Qle_lt_trans; [exact Hxy|]. by apply ilog2_upper.
Qed.

Lemma pow2_split (e : Z) : Qpower 2 e == inject_Z (2 ^ 52) * Qpower 2 (e - 52).
Proof.
  rewrite Zpower_Qpower by lia. change (inject_Z 2) with (2 : Q).
  rewrite <- Qpower_plus by discriminate. by replace (52 + (e - 52))%Z with e by lia.
Qed.

Lemma pow2_split' (e : Z) : Qpower 2 (e + 1) == inject_Z (2 ^ 53) * Qpower 2 (e - 52).
Proof.
  rewrite Zpower_Qpower by lia. change (inject_Z 2) with (2 : Q).
  rewrite <- Qpower_plus by discriminate.
  by replace (53 + (e - 52))%Z with (e + 1)%Z by lia.
Qed.

(** A positive value and its double lie in the same binade. *)
Lemma binary64_pos_binade (x : Q) :
  0 < x ->
  Qpower 2 (ilog2 x) <= binary64_pos x /\ binary64_pos x <= Qpower 2 (ilog2 x + 1).
Proof.
  intros Hx. split.
  - rewrite pow2_split. apply binary64_pos_lower.
    rewrite <- pow2_split. by apply ilog2_lower.
  - unfold binary64_pos. cbv zeta. rewrite pow2_split'.
    pose proof (pow2_pos (ilog2 x - 52)) as HP.
    apply Qmult_le_compat_r; [|lra].
    rewrite <- Zle_Qle. apply round_half_even_le_int.
    apply Qle_shift_div_r; [assumption|].
    rewrite <- pow2_split'. apply Qlt_le_weak. by apply ilog2_upper.
Qed.

Lemma binary64_pos_mono (x y : Q) :
  0 < x -> x <= y -> binary64_pos x <= binary64_pos y.
Proof.
  intros Hx Hxy. assert (Hy : 0 < y) by lra.
  pose proof (ilog2_mono x y Hx Hxy) as Hl.
  destruct (Z.eq_dec (ilog2 x) (ilog2 y)) as [Heq|Hne].
  - unfold binary64_pos. cbv zeta. rewrite Heq.
    pose proof (pow2_pos (ilog2 y - 52)) as HP.
    apply Qmult_le_compat_r; [|lra].
    rewrite <- Zle_Qle. apply round_half_even_mono.
    apply Qmult_le_compat_r; [assumption|].
    apply Qlt_le_weak, Qinv_lt_0_compat. exact HP.
  - destruct (binary64_pos_binade x Hx) as [_ Hux].
    destruct (binary64_pos_binade y Hy) as [Hly _].
    eapply Qle_trans; [exact Hux|]. eapply Qle_trans; [|exact Hly].
    apply Qpower_le_compat_l; [lia|discriminate].
Qed.

Lemma binary64_pos_positive (x : Q) : 0 < x -> 0 < binary64_pos x.
Proof.
  intros Hx. destruct (binary64_pos_binade x Hx) as [Hl _].
  eapply Qlt_le_trans; [apply (pow2_pos (ilog2 x))|exact Hl].
Qed.

(** Rounding to the nearest double is monotone. *)
Lemma binary64_mono (x y : Q) : x <= y -> binary64 x <= binary64 y.
Proof.
  intros Hxy. unfold binary64.
  destruct (Qcompare x 0) eqn:Hcx; destruct (Qcompare y 0) eqn:Hcy;
    qcompare Hcx; qcompare Hcy; try lra.
  - pose proof (binary64_pos_positive y Hcy). lra.
  - pose proof (binary64_pos_positive (- x)). lra.
  - apply Qopp_le_compat. apply binary64_pos_mono; lra.
  - pose proof (binary64_pos_positive (- x)).
    pose proof (binary64_pos_positive y Hcy). lra.
  - apply binary64_pos_mono; lra.
Qed.

(** ** The sleep of one frame *)

Lemma round_half_even_below_half (z : Q) :
  z < - (1 # 2) -> (round_half_even z <= -1)%Z.
Proof.
  intros Hz. pose proof (Qfloor_le z) as Hf.
  destruct (round_half_even_cases z) as [[-> _]|[-> Hh]].
  - assert (H : inject_Z (Qfloor z) < inject_Z 0) by (change (inject_Z 0) with 0; lra).
    rewrite <- Zlt_Qlt in H. lia.
  - assert (H : inject_Z (Qfloor z) < inject_Z (-1))
      by (change (inject_Z (-1)) with (-1); lra).
    rewrite <- Zlt_Qlt in H. lia.
Qed.

Lemma round_half_even_small (z : Q) :
  - (1 # 2) <= z -> z <= 1 # 2 -> round_half_even z = 0%Z.
Proof.
  intros Hl Hu. unfold round_half_even. cbv zeta.
  pose proof (Qfloor_le z) as Hf. pose proof (Qlt_floor z) as Hg.
  rewrite inject_Z_plus in Hg. change (inject_Z 1) with 1 in Hg.
  assert (Hcases : Qfloor z = (-1)%Z \/ Qfloor z = 0%Z).
  { assert (H1 : inject_Z (-2) < inject_Z (Qfloor z))
      by (change (inject_Z (-2)) with (-2); lra).
    assert (H2 : inject_Z (Qfloor z) < inject_Z 1)
      by (change (inject_Z 1) with 1; lra).
    rewrite <- Zlt_Qlt in H1, H2. lia. }
  destruct Hcases as [-> | ->]; change (inject_Z (-1)) with (-1);
    change (inject_Z 0) with 0;
    destruct (Qcompare _ (1 # 2)) eqn:Hc; qcompare Hc;
    try reflexivity; exfalso; lra.
Qed.

Lemma Qlt_bool_true (a b : Q) : a < b -> Qlt_bool a b = true.
Proof. intros H. by apply Qlt_bool_iff. Qed.

Lemma Qlt_bool_false (a b : Q) : b <= a -> Qlt_bool a b = false.
Proof.
  intros H. unfold Qlt_bool. apply negb_false_iff. by apply Qle_bool_iff.
Qed.

Lemma pow2_1075 : Qpower 2 1075 == 2 * Qpower 2 1074.
Proof.
  change 1075%Z with (1 + 1074)%Z. rewrite Qpower_plus by discriminate. reflexivity.
Qed.

Lemma pow2_1022_1074 : Qpower 2 (-1022) * Qpower 2 1074 == Qpower 2 52.
Proof. rewrite <- Qpower_plus by discriminate. reflexivity. Qed.

Lemma binary64_full_0 (x : Q) : x == 0 -> binary64_full x == 0.
Proof.
  intros Hx. unfold binary64_full.
  pose proof (pow2_pos (-1022)) as HQ.
  rewrite Qlt_bool_true.
  2:{ rewrite Hx. exact HQ. }
  rewrite round_half_even_small.
  - unfold Qdiv. by rewrite Qmult_0_l.
  - rewrite Hx, Qmult_0_l. discriminate.
  - rewrite Hx, Qmult_0_l. discriminate.
Qed.

(** For a positive rate the delay is not negative. *)
Lemma frame_delay_nonneg (n : Z) : (0 < n)%Z -> 0 <= frame_delay n.
Proof.
  intros Hn. unfold frame_delay, binary64_full.
  assert (Hq : 0 < inject_Z n) by (change 0 with (inject_Z 0); by rewrite <- Zlt_Qlt).
  assert (Hx : 0 < 1 / inject_Z n).
  { apply Qlt_shift_div_l; [exact Hq|]. lra. }
  pose proof (pow2_pos 1074) as HP.
  destruct (Qlt_bool _ _).
  - apply Qle_shift_div_l; [exact HP|]. rewrite Qmult_0_l.
    change 0 with (inject_Z 0). rewrite <- Zle_Qle.
    apply round_half_even_lower. change (inject_Z 0) with 0.
    apply Qmult_le_0_compat; lra.
  - unfold binary64. apply Qgt_alt in Hx as Hc. rewrite Hc.
    apply Qlt_le_weak. by apply binary64_pos_positive.
Qed.

(** For a negative rate above [-2^1075] the delay is negative. *)
Lemma frame_delay_negative (n : Z) :
  (- 2 ^ 1075 < n < 0)%Z -> frame_delay n < 0.
Proof.
  intros [Hl Hn]. unfold frame_delay, binary64_full.
  set (m := inject_Z (- n)).
  assert (Hm : 0 < m) by (unfold m; change 0 with (inject_Z 0); rewrite <- Zlt_Qlt; lia).
  assert (Hmn : inject_Z n == - m) by (unfold m; by rewrite inject_Z_opp, Qopp_involutive).
  assert (Hm2 : m < Qpower 2 1075).
  { unfold m. change (2 : Q) with (inject_Z 2). rewrite <- Zpower_Qpower by lia.
    rewrite <- Zlt_Qlt. lia. }
  pose proof (pow2_pos 1074) as HP. pose proof pow2_1075 as H75.
  assert (Hx : 1 / inject_Z n == - (1 / m)).
  { rewrite Hmn. field. lra. }
  assert (Hpos : 0 < 1 / m) by (apply Qlt_shift_div_l; [exact Hm|lra]).
  destruct (Qlt_bool _ _).
  - apply Qlt_shift_div_r; [exact HP|]. rewrite Qmult_0_l.
    change 0 with (inject_Z 0). rewrite <- Zlt_Qlt.
    assert (Hr : (round_half_even (1 / inject_Z n * Qpower 2 1074) <= -1)%Z).
    { apply round_half_even_below_half. rewrite Hx.
      assert (Hh : 1 # 2 < 1 / m * Qpower 2 1074).
      { assert (Heq : 1 / m * Qpower 2 1074 == Qpower 2 1074 / m) by (field; lra).
        rewrite Heq. apply Qlt_shift_div_l; [exact Hm|]. lra. }
      lra. }
    lia.
  - unfold binary64.
    assert (Hneg : 1 / inject_Z n < 0) by lra.
    pose proof (binary64_pos_positive (- (1 / inject_Z n))) as Hb.
    assert (H0 : 0 < - (1 / inject_Z n)) by lra. specialize (Hb H0).
    destruct (Qcompare (1 / inject_Z n) 0) eqn:Hc; qcompare Hc; lra.
Qed.

(** For a rate of [-2^1075] or below the delay is [-0.0]. *)
Lemma frame_delay_zero (n : Z) :
  (n <= - 2 ^ 1075)%Z -> frame_delay n == 0.
Proof.
  intros Hn. unfold frame_delay, binary64_full.
  set (m := inject_Z (- n)).
  assert (Hm2 : Qpower 2 1075 <= m).
  { unfold m. change (2 : Q) with (inject_Z 2). rewrite <- Zpower_Qpower by lia.
    rewrite <- Zle_Qle. lia. }
  pose proof (pow2_pos 1074) as HP. pose proof (pow2_pos (-1022)) as HQ.
  pose proof (pow2_pos 1075) as HR. pose proof pow2_1075 as H75.
  assert (Hm : 0 < m) by lra.
  assert (Hmn : inject_Z n == - m) by (unfold m; by rewrite inject_Z_opp, Qopp_involutive).
  assert (Hx : 1 / inject_Z n == - (1 / m)).
  { rewrite Hmn. field. lra. }
  assert (Hpos : 0 < 1 / m) by (apply Qlt_shift_div_l; [exact Hm|lra]).
  assert (Hsmall : 1 / m * Qpower 2 1074 <= 1 # 2).
  { assert (Heq : 1 / m * Qpower 2 1074 == Qpower 2 1074 / m) by (field; lra).
    rewrite Heq. apply Qle_shift_div_r; [exact Hm|]. lra. }
  assert (Habs : Qabs (1 / inject_Z n) == 1 / m).
  { rewrite Hx, Qabs_opp. apply Qabs_pos. lra. }
  rewrite Qlt_bool_true.
  2:{ rewrite Habs. pose proof pow2_1022_1074 as H52.
      assert (H1 : 1 # 2 < Qpower 2 52) by reflexivity.
      apply (Qmult_lt_r _ _ (Qpower 2 1074)); [exact HP|]. lra. }
  rewrite round_half_even_small.
  - unfold Qdiv. by rewrite Qmult_0_l.
  - rewrite Hx. lra.
  - rewrite Hx. lra.
Qed.

End FloatsMore.

(** The doubles of the model on values that Python was asked for:
    [float(10**400)] raises; [1 / -10**400] is [-0.0]; [7 / 100 * 100] is
    7.000000000000001, above 7; [(2**53 + 1) / 1024**3] is 8388608.0. *)
Lemma float_model_examples :
  py_float no_float (JInt (10 ^ 400)) = Raise OverflowError /\
  (frame_delay (- 10 ^ 400) == 0)%Q /\
  (frame_delay 2 == 1 # 2)%Q /\
  (binary64_full (binary64_full (7 / 100) * 100)
   == 7881299347898369 # 1125899906842624)%Q /\
  (binary64 (inject_Z (2 ^ 53 + 1) / inject_Z (1024 ^ 3)) == 8388608)%Q.
Proof.
  vm_compute. repeat apply conj; reflexivity.
Qed.
Section WriterMore.
Context {frame gray : Type} {cv : CV2 frame gray}.

(** ** [save_detection]: what a write leaves in the directory *)

(** X1.  When both writes succeed, [save_detection] returns the path of the
    image, the directory holds the image and, beside it, the metadata whose
    [filename] names the image and whose [category] is the directory; every
    other file is as before, one line is printed and no global changes. *)
Theorem save_detection_stores_pair (e : tick_env frame) (f : frame)
    (pets : list pet) (w : world frame gray) (size size' : Z) (mtime mtime' : Q) :
  datetime_ok (datetime_now e) = true ->
  imwrite_outcome e = Written size mtime ->
  json_dump_outcome e = Written size' mtime' ->
  let category := category_of pets in
  let name := strftime_id (datetime_now e) in
  let img : path := (category, name +:+ ".jpg") in
  let meta : path := (category, name +:+ ".json") in
  let w' := snd (save_detection e f pets w) in
  fst (save_detection e f pets w) = Ok img /\
  storage w' !! img
  = Some {| st_size := size; st_mtime := mtime; body := Jpeg f |} /\
  storage w' !! meta
  = Some {| st_size := size'; st_mtime := mtime';
            body := JsonDoc {| md_timestamp := isoformat (datetime_now e);
                               md_category := category;
                               md_detections := pets;
                               md_filename := name +:+ ".jpg" |} |} /\
  (forall p, p <> img -> p <> meta -> storage w' !! p = storage w !! p) /\
  trace w' = trace w ++ [PrintSaved category (name +:+ ".jpg") (length pets)] /\
  same_globals w w'.
Proof.
  intros Hok Himg Hjson category name img meta w'.
  destruct (save_detection_written e f pets w size size' mtime mtime'
              Hok Himg Hjson) as (Hr & Hs & Ht & Hg).
  fold category name img meta w' in Hr, Hs, Ht, Hg.
  split; [exact Hr|]. rewrite Hs. split.
  { rewrite lookup_insert_ne by apply jpg_path_ne_json. apply lookup_insert_eq. }
  split; [apply lookup_insert_eq|]. split.
  { intros p Hp1 Hp2. by rewrite !lookup_insert_ne. }
  by split.
Qed.

(** X2.  The failures of the two writes.  When the writing of the image
    raises before its file is opened, the world is untouched.  When the
    image is written and [open(meta_filepath, 'w')] raises, the exception
    leaves [save_detection] with the image stored and the metadata path as
    it was.  When the image is written and the metadata file was opened
    before the exception, the image is stored and the metadata path holds a
    file cut short, which [json.load] cannot read; what was there before is
    lost.  Nothing is printed in any of these cases. *)
Theorem save_detection_failed_writes (e : tick_env frame) (f : frame)
    (pets : list pet) (w : world frame gray) :
  let img : path := (category_of pets, strftime_jpg (datetime_now e)) in
  let meta : path := with_suffix img ".json" in
  (forall ex, imwrite_outcome e = WriteRaised ex ->
     save_detection e f pets w = (Raise ex, w)) /\
  (forall ex size mtime,
     imwrite_outcome e = Written size mtime ->
     json_dump_outcome e = WriteRaised ex ->
     save_detection e f pets w
     = (Raise ex,
        with_storage
          (<[img := {| st_size := size; st_mtime := mtime; body := Jpeg f |}]>
             (storage w)) w) /\
     storage (snd (save_detection e f pets w)) !! meta = storage w !! meta) /\
  (forall ex size mtime size' mtime',
     imwrite_outcome e = Written size mtime ->
     json_dump_outcome e = WriteTruncated size' mtime' ex ->
     save_detection e f pets w
     = (Raise ex,
        with_storage
          (<[meta := {| st_size := size'; st_mtime := mtime'; body := Blob |}]>
             (<[img := {| st_size := size; st_mtime := mtime; body := Jpeg f |}]>
                (storage w))) w) /\
     storage (snd (save_detection e f pets w)) !! meta
     = Some {| st_size := size'; st_mtime := mtime'; body := Blob |} /\
     json_load {| st_size := size'; st_mtime := mtime';
                  body := (Blob : file_body frame) |}
     = Raise ValueError).
Proof.
  intros img meta. split; [|split].
  - intros ex H. unfold save_detection, write_file. rewrite H. reflexivity.
  - intros ex size mtime Himg Hjson.
    assert (Heq : save_detection e f pets w
                  = (Raise ex,
                     with_storage
                       (<[img := {| st_size := size; st_mtime := mtime;
                                    body := Jpeg f |}]> (storage w)) w)).
    { unfold save_detection, write_file. rewrite Himg, Hjson. reflexivity. }
    split; [exact Heq|]. rewrite Heq. cbn [snd storage with_storage].
    apply lookup_insert_ne. unfold meta, with_suffix, img. cbn [fst snd].
    intros H. symmetry in H. revert H. unfold strftime_jpg.
    apply jpg_path_ne_json.
  - intros ex size mtime size' mtime' Himg Hjson.
    assert (Heq : save_detection e f pets w
                  = (Raise ex,
                     with_storage
                       (<[meta := {| st_size := size'; st_mtime := mtime';
                                     body := Blob |}]>
                          (<[img := {| st_size := size; st_mtime := mtime;
                                       body := Jpeg f |}]> (storage w))) w)).
    { unfold save_detection, write_file. rewrite Himg, Hjson. reflexivity. }
    split; [exact Heq|]. split; [|reflexivity].
    rewrite Heq. cbn [snd storage with_storage]. apply lookup_insert_eq.
Qed.

(** ** [delete_detection] and [get_image] *)

Lemma delete_detection_ok (e : tick_env frame) (category image_id : string)
    (w : world frame gray) :
  let img : path := (category, image_id +:+ ".jpg") in
  let meta : path := (category, image_id +:+ ".json") in
  os_remove_raises e img = None ->
  os_remove_raises e meta = None ->
  delete_detection e category image_id w
  = (Ok true, with_storage (delete meta (delete img (storage w))) w).
Proof.
  intros img meta Hi Hm. unfold delete_detection. fold img meta.
  unfold os_remove. rewrite Hi, Hm. run.
  destruct (storage w !! img) as [fi|] eqn:Hli.
  - rewrite bool_decide_eq_true_2 by eauto. run. rewrite Hli. run.
    destruct (delete img (storage w) !! meta) as [fm|] eqn:Hlm.
    + rewrite bool_decide_eq_true_2 by eauto. run. rewrite Hlm. reflexivity.
    + rewrite bool_decide_eq_false_2 by (intros [? ?]; congruence). run.
      rewrite (delete_id _ _ Hlm). reflexivity.
  - rewrite bool_decide_eq_false_2 by (intros [? ?]; congruence). run.
    rewrite (delete_id _ _ Hli).
    destruct (storage w !! meta) as [fm|] eqn:Hlm.
    + rewrite bool_decide_eq_true_2 by eauto. run. rewrite Hlm. reflexivity.
    + rewrite bool_decide_eq_false_2 by (intros [? ?]; congruence). run.
      rewrite (delete_id _ _ Hlm). destruct w; reflexivity.
Qed.

(** X3.  When neither removal raises, [delete_detection] answers with
    success, the image and the metadata of the entry are gone, every other
    file is as before and no global changes.  This holds whether or not the
    two files existed: deleting an absent entry succeeds and changes
    nothing. *)
Theorem delete_detection_removes_pair (e : tick_env frame)
    (category image_id : string) (w : world frame gray) :
  let img : path := (category, image_id +:+ ".jpg") in
  let meta : path := (category, image_id +:+ ".json") in
  os_remove_raises e img = None ->
  os_remove_raises e meta = None ->
  let w' := snd (delete_detection e category image_id w) in
  fst (delete_detection e category image_id w) = Ok true /\
  storage w' !! img = None /\
  storage w' !! meta = None /\
  (forall p, p <> img -> p <> meta -> storage w' !! p = storage w !! p) /\
  (storage w !! img = None -> storage w !! meta = None -> storage w' = storage w) /\
  same_globals w w' /\ trace w' = trace w.
Proof.
  intros img meta Hi Hm w'. unfold w'.
  rewrite (delete_detection_ok e category image_id w Hi Hm).
  cbn [fst snd storage with_storage]. fold img meta.
  split; [reflexivity|]. split.
  { rewrite lookup_delete. case_decide; [done|]. apply lookup_delete_eq. }
  split; [apply lookup_delete_eq|]. split.
  { intros p H1 H2. by rewrite !lookup_delete_ne. }
  split.
  { intros H1 H2. rewrite (delete_id _ _ H1). by apply delete_id. }
  by repeat split.
Qed.

(** X4.  The failures of the two removals.  When the image exists and its
    removal raises, the answer is the error response and nothing is removed:
    the metadata is not tried.  When the image is removed and the removal of
    the existing metadata raises, the answer is the error response, the
    image is gone and the metadata is still there. *)
Theorem delete_detection_failed_removals (e : tick_env frame)
    (category image_id : string) (w : world frame gray) :
  let img : path := (category, image_id +:+ ".jpg") in
  let meta : path := (category, image_id +:+ ".json") in
  (forall ex, is_Some (storage w !! img) -> os_remove_raises e img = Some ex ->
     delete_detection e category image_id w = (Ok false, w)) /\
  (forall ex, is_Some (storage w !! img) -> is_Some (storage w !! meta) ->
     os_remove_raises e img = None -> os_remove_raises e meta = Some ex ->
     delete_detection e category image_id w
     = (Ok false, with_storage (delete img (storage w)) w) /\
     delete img (storage w) !! meta = storage w !! meta).
Proof.
  intros img meta. split.
  - intros ex Hs Hr. unfold delete_detection. fold img meta.
    unfold os_remove. rewrite Hr. run.
    rewrite bool_decide_eq_true_2 by exact Hs. reflexivity.
  - intros ex Hsi Hsm Hri Hrm.
    assert (Hne : img <> meta).
    { unfold meta, img. intros H. apply (f_equal snd) in H. cbn [snd] in H.
      pose proof (endswith_json_not_jpg image_id) as Hj. rewrite <- H in Hj.
      assert (Ht : forall s, endswith (s +:+ ".jpg") ".jpg" = true).
      { clear. induction s as [|c s IH]; [reflexivity|].
        change (String c s +:+ ".jpg") with (String c (s +:+ ".jpg")).
        cbn [endswith]. rewrite IH. by destruct (String.eqb _ _). }
      rewrite Ht in Hj. discriminate. }
    split; [|by apply lookup_delete_ne].
    unfold delete_detection. fold img meta.
    unfold os_remove. rewrite Hri, Hrm. run.
    rewrite bool_decide_eq_true_2 by exact Hsi.
    destruct Hsi as [fi Hfi]. rewrite Hfi. run.
    rewrite bool_decide_eq_true_2; [reflexivity|].
    by rewrite lookup_delete_ne.
Qed.

(** X5.  Writing an entry and deleting it by its identifier restores the
    directory, when the two paths were free before; in between,
    [get_image] serves the image that was written, and afterwards it
    answers 404. *)
Theorem save_then_delete_restores (e : tick_env frame) (f : frame)
    (pets : list pet) (w : world frame gray) (size size' : Z) (mtime mtime' : Q) :
  datetime_ok (datetime_now e) = true ->
  imwrite_outcome e = Written size mtime ->
  json_dump_outcome e = Written size' mtime' ->
  let category := category_of pets in
  let image_id := strftime_id (datetime_now e) in
  os_remove_raises e (category, image_id +:+ ".jpg") = None ->
  os_remove_raises e (category, image_id +:+ ".json") = None ->
  storage w !! (category, image_id +:+ ".jpg") = None ->
  storage w !! (category, image_id +:+ ".json") = None ->
  let w1 := snd (save_detection e f pets w) in
  let w2 := snd (delete_detection e category image_id w1) in
  fst (get_image category (image_id +:+ ".jpg") w1)
  = Ok (Some {| st_size := size; st_mtime := mtime; body := Jpeg f |}) /\
  storage w2 = storage w /\
  fst (get_image category (image_id +:+ ".jpg") w2) = Ok None.
Proof.
  intros Hok Himg Hjson category image_id Hri Hrm Hfi Hfm w1 w2.
  destruct (save_detection_written e f pets w size size' mtime mtime'
              Hok Himg Hjson) as (_ & Hs & _).
  fold category image_id w1 in Hs.
  assert (Hi : storage w1 !! (category, image_id +:+ ".jpg")
               = Some {| st_size := size; st_mtime := mtime; body := Jpeg f |}).
  { rewrite Hs, lookup_insert_ne by apply jpg_path_ne_json.
    apply lookup_insert_eq. }
  assert (Hs2 : storage w2 = storage w).
  { unfold w2. rewrite (delete_detection_ok e category image_id w1 Hri Hrm).
    cbn [snd storage with_storage]. apply map_eq. intros p.
    destruct (decide (p = (category, image_id +:+ ".json"))) as [->|Hn1].
    { rewrite lookup_delete_eq. symmetry. exact Hfm. }
    rewrite lookup_delete_ne by done.
    destruct (decide (p = (category, image_id +:+ ".jpg"))) as [->|Hn2].
    { rewrite lookup_delete_eq. symmetry. exact Hfi. }
    rewrite lookup_delete_ne by done. rewrite Hs. by rewrite !lookup_insert_ne. }
  split.
  { unfold get_image, bind, gets, ret. cbn [fst]. f_equal. exact Hi. }
  split; [exact Hs2|].
  unfold get_image, bind, gets, ret. cbn [fst]. rewrite Hs2. f_equal. exact Hfi.
Qed.

End WriterMore.

Lemma save_detection_stores_pair_witness :
  fst (save_detection first_write ([1] : list Z) [] (rows_world ∅))
  = Ok ("unknown", "20240101_120000.jpg").
Proof.
  apply (save_detection_stores_pair first_write ([1] : list Z) []
           (rows_world ∅) 1000 300 100 100); reflexivity.
Defined.

Lemma save_detection_failed_writes_witness :
  storage (snd (save_detection write_json_truncated ([1] : list Z) []
                  (rows_world ∅)))
    !! with_suffix ("unknown", "20240101_120000.jpg") ".json"
  = Some {| st_size := 0; st_mtime := 100; body := Blob |}.
Proof.
  exact (proj1 (proj2 (proj2 (proj2 (save_detection_failed_writes
                                       write_json_truncated
                                       ([1] : list Z) [] (rows_world ∅)))
                         OSError 1000 100%Q 0 100%Q eq_refl eq_refl))).
Defined.

Lemma delete_detection_removes_pair_witness :
  storage (snd (delete_detection env_quiet "unknown" "20240101_120000"
                  (rows_world one_pair)))
    !! ("unknown", "20240101_120000.json") = None.
Proof.
  apply (delete_detection_removes_pair env_quiet "unknown" "20240101_120000"
           (rows_world one_pair)); reflexivity.
Defined.

Lemma delete_detection_failed_removals_witness :
  delete_detection env_meta_locked "unknown" "20240101_120000" (rows_world one_pair)
  = (Ok false,
     with_storage (delete ("unknown", "20240101_120000.jpg") one_pair)
       (rows_world one_pair)).
Proof.
  apply (proj2 (delete_detection_failed_removals env_meta_locked
                  "unknown" "20240101_120000" (rows_world one_pair)) OSError).
  - eexists. vm_compute. reflexivity.
  - eexists. vm_compute. reflexivity.
  - reflexivity.
  - reflexivity.
Defined.

Lemma save_then_delete_restores_witness :
  storage (snd (delete_detection first_write "unknown" "20240101_120000"
                  (snd (save_detection first_write ([1] : list Z) []
                          (rows_world ∅)))))
  = storage (rows_world ∅).
Proof.
  apply (save_then_delete_restores first_write ([1] : list Z) []
           (rows_world ∅) 1000 300 100 100); reflexivity.
Defined.

Section ListingFacts.
Context {frame gray : Type} {cv : CV2 frame gray}.

(** ** [get_detections] *)

Lemma insert_by_timestamp_perm (x : listed) (l : list listed) :
  Permutation (insert_by_timestamp x l) (x :: l).
Proof.
  induction l as [|y l IH]; simpl; [reflexivity|].
  destruct (String.leb _ _); [reflexivity|].
  rewrite IH. apply perm_swap.
Qed.

Lemma sort_by_timestamp_perm (l : list listed) :
  Permutation (sort_by_timestamp l) l.
Proof.
  induction l as [|x l IH]; simpl; [reflexivity|].
  rewrite insert_by_timestamp_perm. by rewrite IH.
Qed.

Lemma insert_by_timestamp_sorted (x : listed) (l : list listed) :
  Sorted timestamp_ge l -> Sorted timestamp_ge (insert_by_timestamp x l).
Proof.
  induction l as [|y l IH]; simpl; intros Hl.
  - repeat constructor.
  - destruct (String.leb (timestamp_string y) (timestamp_string x)) eqn:Hyx.
    + constructor; [exact Hl|]. constructor. exact Hyx.
    + assert (Hxy : timestamp_ge y x).
      { unfold timestamp_ge.
        destruct (String.leb_total (timestamp_string x)
                                   (timestamp_string y)); congruence. }
      apply Sorted_inv in Hl as [Hl Hhd]. constructor; [by apply IH|].
      destruct l as [|z l]; simpl.
      * by constructor.
      * destruct (String.leb (timestamp_string z) (timestamp_string x));
          constructor; [exact Hxy|].
        by apply HdRel_inv in Hhd.
Qed.

Lemma sort_by_timestamp_sorted (l : list listed) :
  Sorted timestamp_ge (sort_by_timestamp l).
Proof.
  induction l as [|x l IH]; simpl; [constructor|].
  by apply insert_by_timestamp_sorted.
Qed.

Lemma Sorted_take {A : Type} (R : A -> A -> Prop) (l : list A) (n : nat) :
  Sorted R l -> Sorted R (take n l).
Proof.
  revert n. induction l as [|x l IH]; intros n Hl; [by destruct n|].
  destruct n as [|n]; [constructor|]. simpl.
  apply Sorted_inv in Hl as [Hl Hhd]. constructor; [by apply IH|].
  destruct l as [|y l]; [destruct n; constructor|].
  destruct n; constructor. by apply HdRel_inv in Hhd.
Qed.

Lemma slice_to_take {A : Type} (l : list A) (limit : Z) :
  exists n, slice_to l limit = take n l /\
            n = if 0 <=? limit then Z.to_nat limit
                else (length l - Z.to_nat (- limit))%nat.
Proof. unfold slice_to. destruct (0 <=? limit); eauto. Qed.

Lemma elem_of_glob_json (s : gmap path (file frame)) (dir_name : string)
    (p : path) (f : file frame) :
  (p, f) ∈ glob_json s dir_name <->
  s !! p = Some f /\ fst p = dir_name /\ endswith (snd p) ".json" = true.
Proof.
  unfold glob_json. rewrite elem_of_map_to_list, map_lookup_filter_Some.
  reflexivity.
Qed.

Lemma elem_of_collect_detections (s : gmap path (file frame))
    (dirs : list string) (x : listed) :
  x ∈ collect_detections s dirs <->
  exists d n f data,
    d ∈ dirs /\ s !! (d, n) = Some f /\ endswith n ".json" = true /\
    json_load f = Ok data /\
    x = {| listed_data := data; listed_id := stem n;
           listed_image_url :=
             "/api/image/" +:+ d +:+ "/" +:+ stem n +:+ ".jpg" |}.
Proof.
  unfold collect_detections. rewrite list_elem_of_In, in_concat. split.
  - intros (l & Hl & Hx). apply list_elem_of_In in Hl, Hx.
    apply list_elem_of_fmap in Hl as (d & -> & Hd).
    apply list_elem_of_omap in Hx as ([[d' n] f] & Hin & Hlisted).
    apply elem_of_glob_json in Hin as (Hs & Hdir & He). cbn [fst snd] in *. subst d'.
    unfold listed_of in Hlisted. cbn [fst snd] in Hlisted.
    destruct (json_load f) as [data|ex] eqn:Hb; [|discriminate].
    injection Hlisted as <-. exists d, n, f, data. by repeat split.
  - intros (d & n & f & data & Hd & Hs & He & Hb & ->).
    exists (omap (listed_of d) (glob_json s d)). split.
    + apply in_map_iff. exists d. split; [reflexivity|]. by apply list_elem_of_In.
    + apply list_elem_of_In, list_elem_of_omap. exists ((d, n), f). split.
      * by apply elem_of_glob_json.
      * unfold listed_of. cbn [fst snd]. by rewrite Hb.
Qed.

Lemma json_load_JsonDoc (f : file frame) (md : metadata) :
  body f = JsonDoc md -> json_load f = Ok (DocMetadata md).
Proof. intros H. unfold json_load. by rewrite H. Qed.

Lemma forallb_Forall_is_Some {A B : Type} (g : A -> option B) (l : list A) :
  forallb (fun x => bool_decide (is_Some (g x))) l = true <->
  Forall (fun x => is_Some (g x)) l.
Proof.
  induction l as [|x l IH]; cbn [forallb]; [by split; [constructor|]|].
  by rewrite andb_true_iff, IH, Forall_cons, bool_decide_eq_true.
Qed.

Lemma string_key_timestamp_key (x : listed) :
  is_Some (string_key x) -> is_Some (timestamp_key x).
Proof.
  unfold string_key. destruct (timestamp_key x) as [v|]; [by eexists|].
  by intros [t H].
Qed.

(** [sort_detections] on entries whose keys are all strings. *)
Lemma sort_detections_strings (sort_other : list listed -> result (list listed))
    (l : list listed) :
  Forall (fun x => is_Some (string_key x)) l ->
  sort_detections sort_other l = Ok (sort_by_timestamp l).
Proof.
  intros H. unfold sort_detections.
  rewrite (proj2 (forallb_Forall_is_Some timestamp_key l)).
  2:{ eapply Forall_impl; [exact H|]. apply string_key_timestamp_key. }
  by rewrite (proj2 (forallb_Forall_is_Some string_key l)).
Qed.

(** [sort_detections] when an entry has no timestamp. *)
Lemma sort_detections_missing (sort_other : list listed -> result (list listed))
    (l : list listed) :
  Exists (fun x => timestamp_key x = None) l ->
  sort_detections sort_other l = Raise KeyError.
Proof.
  intros H. unfold sort_detections.
  destruct (forallb _ l) eqn:Hall; [|reflexivity].
  apply forallb_Forall_is_Some in Hall. exfalso.
  apply Exists_exists in H as (x & Hx & Hnone).
  rewrite Forall_forall in Hall. destruct (Hall x Hx) as [v Hv]. congruence.
Qed.

(** X6.  With a limit that converts to [k], when every metadata file that
    could be read in the visited directories has a string under
    ['timestamp'], [get_detections] answers with [total] their number and
    with the leading part of these entries in descending order of
    timestamps: followed by some rest, the list returned is all the entries,
    in descending order throughout.  It holds [min k total] entries for
    [k >= 0], and all but the last [-k] for a negative [k].  When one of the
    files read is a JSON object without ['timestamp'], the sort raises
    [KeyError] and the answer is the error.  A limit that does not convert
    gives the error before a file is read. *)
Theorem get_detections_sorted_and_cut (int_of_str : string -> option Z)
    (sort_other : list listed -> result (list listed))
    (category limit : option string) (s : gmap path (file frame)) :
  let dirs := listed_dirs (default "all" category) in
  let found := collect_detections s dirs in
  let answer := get_detections int_of_str sort_other category limit s in
  match limit_arg int_of_str limit with
  | Raise ex => answer = (Raise ex, [])
  | Ok k =>
      (Exists (fun x => timestamp_key x = None) found ->
       fst answer = Raise KeyError) /\
      (Forall (fun x => is_Some (string_key x)) found ->
       exists r rest,
         fst answer = Ok r /\
         total r = length found /\
         Sorted timestamp_ge (detections r ++ rest) /\
         Permutation (detections r ++ rest) found /\
         length (detections r)
         = (if (0 <=? k)%Z then Nat.min (Z.to_nat k) (length found)
            else length found - Z.to_nat (- k))%nat)
  end.
Proof.
  intros dirs found answer. unfold answer, get_detections.
  destruct (limit_arg int_of_str limit) as [k|ex]; [|reflexivity].
  fold dirs found. split.
  - intros H. by rewrite (sort_detections_missing sort_other found H).
  - intros H. rewrite (sort_detections_strings sort_other found H).
    destruct (slice_to_take (sort_by_timestamp found) k) as (n & Hn1 & Hn).
    exists {| detections := slice_to (sort_by_timestamp found) k;
              total := length found |}, (drop n (sort_by_timestamp found)).
    cbn [fst total detections]. split; [reflexivity|]. split; [reflexivity|].
    rewrite Hn1, take_drop.
    split; [apply sort_by_timestamp_sorted|].
    split; [apply sort_by_timestamp_perm|].
    rewrite length_take, Hn.
    rewrite (Permutation_length (sort_by_timestamp_perm found)).
    destruct (0 <=? k); lia.
Qed.

Lemma endswith_inv (n suffix : string) :
  endswith n suffix = true -> exists s, n = s +:+ suffix.
Proof.
  induction n as [|c n IH]; cbn [endswith].
  - destruct (String.eqb_spec "" suffix) as [<-|]; [|discriminate].
    by exists "".
  - destruct (String.eqb_spec (String c n) suffix) as [<-|_].
    + by exists "".
    + intros H. destruct (IH H) as [s ->]. by exists (String c s).
Qed.

Lemma endswith_json_jpg (n : string) :
  endswith n ".json" = true -> endswith n ".jpg" = false.
Proof.
  intros H. destruct (endswith_inv _ _ H) as [s ->]. apply endswith_json_not_jpg.
Qed.

(** X7.  A cleanup pass does not change what [get_detections] answers:
    the metadata of the images that the pass removed stays listed. *)
Theorem cleanup_keeps_listing (int_of_str : string -> option Z)
    (sort_other : list listed -> result (list listed))
    (e : tick_env frame) (w : world frame gray)
    (category limit : option string) :
  get_detections int_of_str sort_other category limit
    (storage (snd (cleanup_old_files e w)))
  = get_detections int_of_str sort_other category limit (storage w).
Proof.
  assert (Hglob : forall d, glob_json (storage (snd (cleanup_old_files e w))) d
                            = glob_json (storage w) d).
  { intros d. unfold glob_json. f_equal. apply map_eq. intros p.
    apply option_eq. intros f. rewrite !map_lookup_filter_Some. cbn [fst snd].
    split; intros (Hs & Hd & He); repeat split; try assumption.
    - rewrite <- Hs. symmetry. by apply cleanup_keeps_other_names, endswith_json_jpg.
    - rewrite <- Hs. by apply cleanup_keeps_other_names, endswith_json_jpg. }
  unfold get_detections, collect_detections.
  destruct (limit_arg int_of_str limit); [|reflexivity].
  rewrite (map_ext _ _ (fun d => f_equal (omap (listed_of d)) (Hglob d))).
  rewrite (map_ext _ _ (fun d => f_equal (omap read_error_of) (Hglob d))).
  reflexivity.
Qed.

Lemma rfind_dot_app (s t : string) (i : nat) :
  rfind_dot (s +:+ t) i =
    match rfind_dot t (i + String.length s) with
    | Some j => Some j
    | None => rfind_dot s i
    end.
Proof.
  revert i. induction s as [|c s IH]; intros i.
  - change ("" +:+ t) with t. cbn [String.length rfind_dot].
    replace (i + 0)%nat with i by lia. by destruct (rfind_dot t i).
  - change (String c s +:+ t) with (String c (s +:+ t)).
    cbn [rfind_dot String.length]. rewrite IH.
    replace (S i + String.length s)%nat with (i + S (String.length s))%nat by lia.
    by destruct (rfind_dot t _).
Qed.

Lemma stem_app_json (s : string) : s <> "" -> stem (s +:+ ".json") = s.
Proof.
  intros Hs. unfold stem. rewrite rfind_dot_app.
  replace (rfind_dot ".json" (0 + String.length s)) with (Some (String.length s))
    by reflexivity.
  rewrite string_length_app. cbn [String.length].
  destruct s as [|c s]; [done|]. cbn [String.length Nat.add].
  replace (Nat.ltb 0 (S (String.length s))) with true
    by (symmetry; apply Nat.ltb_lt; lia).
  replace (Nat.ltb _ _) with true by (symmetry; apply Nat.ltb_lt; lia).
  cbn [andb]. apply (substring_prefix (String c s) ".json").
Qed.

(** The stem of a name that ends in [.json], other than [.json] itself. *)
Lemma stem_json (n : string) :
  endswith n ".json" = true -> n <> ".json" -> stem n +:+ ".json" = n.
Proof.
  intros He Hne. destruct (endswith_inv _ _ He) as [s ->].
  rewrite stem_app_json; [reflexivity|]. intros ->. by apply Hne.
Qed.

(** X8.  The identifier shown in the listing is the one that
    [delete_detection] needs.  A readable metadata file [n] of the directory
    [d] (a name ending in [.json] whose stem is not [.json] itself, a
    directory other than [all]) is listed under the identifier [stem n];
    [delete_detection d (stem n)] removes that file when no removal raises,
    and the entry is no longer listed. *)
Theorem listed_id_deletes_entry (e : tick_env frame) (w : world frame gray)
    (d n : string) (f : file frame) (md : metadata) :
  storage w !! (d, n) = Some f ->
  body f = JsonDoc md ->
  endswith n ".json" = true ->
  stem n <> ".json" ->
  d <> "all" ->
  os_remove_raises e (d, stem n +:+ ".jpg") = None ->
  os_remove_raises e (d, n) = None ->
  let x := entry_of d n md in
  let w' := snd (delete_detection e d (listed_id x) w) in
  x ∈ collect_detections (storage w) (listed_dirs d) /\
  fst (delete_detection e d (listed_id x) w) = Ok true /\
  storage w' !! (d, n) = None /\
  x ∉ collect_detections (storage w') (listed_dirs d).
Proof.
  intros Hs Hb He Hst Hd Hri Hrm x w'.
  assert (Hne : n <> ".json") by (intros ->; by apply Hst).
  pose proof (stem_json n He Hne) as Hstem.
  assert (Hdirs : listed_dirs d = [d]).
  { unfold listed_dirs. by destruct (String.eqb_spec d "all"). }
  assert (Hdel : delete_detection e d (stem n) w
                 = (Ok true,
                    with_storage (delete (d, n) (delete (d, stem n +:+ ".jpg")
                                                   (storage w))) w)).
  { pose proof (delete_detection_ok e d (stem n) w) as H.
    cbn zeta in H. rewrite Hstem in H. by apply H. }
  unfold w'. cbn [listed_id x entry_of]. rewrite Hdel.
  cbn [fst snd storage with_storage]. rewrite Hdirs.
  split.
  { apply elem_of_collect_detections.
    exists d, n, f, (DocMetadata md).
    split; [by apply list_elem_of_singleton|].
    repeat split; try done. by apply json_load_JsonDoc. }
  split; [reflexivity|]. split; [apply lookup_delete_eq|].
  intros Hin.
  apply elem_of_collect_detections in Hin
    as (d' & n' & f' & md' & Hd' & Hs' & He' & Hb' & Hx).
  apply list_elem_of_singleton in Hd'. subst d'.
  unfold x, entry_of in Hx. injection Hx as _ Hst' _.
  destruct (decide (n' = ".json")) as [->|Hn'].
  - apply Hst. rewrite Hst'. reflexivity.
  - pose proof (stem_json n' He' Hn') as Hstem'.
    rewrite <- Hst', Hstem in Hstem'. subst n'.
    by rewrite lookup_delete_eq in Hs'.
Qed.

Lemma category_of_cases (pets : list pet) :
  category_of pets = "cats" \/ category_of pets = "dogs" \/
  category_of pets = "unknown".
Proof.
  unfold category_of. destruct pets as [|p pets]; [auto|].
  destruct (any _ (p :: pets)); [auto|].
  destruct (any _ (p :: pets)); auto.
Qed.

(** X9.  An entry that [save_detection] has written is found by
    [get_detections] in the directory of its category, which is one of the
    directories visited for [all]: under the identifier of the write, with
    the metadata of the write and the URL of the image that [get_image]
    serves. *)
Theorem saved_entry_is_listed (e : tick_env frame) (fr : frame)
    (pets : list pet) (w : world frame gray) (size size' : Z) (mtime mtime' : Q) :
  datetime_ok (datetime_now e) = true ->
  imwrite_outcome e = Written size mtime ->
  json_dump_outcome e = Written size' mtime' ->
  let category := category_of pets in
  let name := strftime_id (datetime_now e) in
  let w' := snd (save_detection e fr pets w) in
  let x := {| listed_data :=
                DocMetadata {| md_timestamp := isoformat (datetime_now e);
                               md_category := category;
                               md_detections := pets;
                               md_filename := name +:+ ".jpg" |};
              listed_id := name;
              listed_image_url :=
                "/api/image/" +:+ category +:+ "/" +:+ name +:+ ".jpg" |} in
  x ∈ collect_detections (storage w') (listed_dirs category) /\
  x ∈ collect_detections (storage w') (listed_dirs "all") /\
  fst (get_image category (name +:+ ".jpg") w')
  = Ok (Some {| st_size := size; st_mtime := mtime; body := Jpeg fr |}).
Proof.
  intros Hok Himg Hjson category name w' x.
  destruct (save_detection_written e fr pets w size size' mtime mtime'
              Hok Himg Hjson) as (_ & Hs & _).
  fold category name w' in Hs.
  assert (Hstem : stem (name +:+ ".json") = name).
  { apply stem_app_json. unfold name, strftime_id, dec4.
    cbv [String.append]. discriminate. }
  assert (Hin : forall dirs, category ∈ dirs -> x ∈ collect_detections (storage w') dirs).
  { intros dirs Hd. apply elem_of_collect_detections.
    eexists category, (name +:+ ".json"), _, _.
    split; [exact Hd|]. split; [rewrite Hs; apply lookup_insert_eq|].
    split; [|split; [reflexivity|]].
    - generalize name. clear. intros s. induction s as [|c s IH]; [reflexivity|].
      change (String c s +:+ ".json") with (String c (s +:+ ".json")).
      cbn [endswith]. rewrite IH. by destruct (String.eqb _ _).
    - unfold entry_of, x. by rewrite Hstem. }
  split; [|split].
  - apply Hin. unfold category.
    destruct (category_of_cases pets) as [-> | [-> | ->]];
      by apply list_elem_of_singleton.
  - apply Hin. unfold category.
    destruct (category_of_cases pets) as [-> | [-> | ->]];
      change (listed_dirs "all") with ["cats"; "dogs"; "unknown"]; set_solver.
  - unfold get_image, bind, gets, ret. cbn [fst]. f_equal.
    rewrite Hs, lookup_insert_ne by apply jpg_path_ne_json.
    apply lookup_insert_eq.
Qed.

End ListingFacts.

Lemma get_detections_sorted_and_cut_witness :
  let found := collect_detections ten_pairs ["unknown"] in
  let answer := get_detections no_int no_sort (Some "unknown") None ten_pairs in
  exists r rest,
    fst answer = Ok r /\
    total r = length found /\
    Sorted timestamp_ge (detections r ++ rest) /\
    Permutation (detections r ++ rest) found /\
    length (detections r) = Nat.min (Z.to_nat 100) (length found).
Proof.
  assert (H : Forall (fun x => is_Some (string_key x))
                (collect_detections ten_pairs ["unknown"])).
  { apply (bool_decide_unpack _). vm_compute. reflexivity. }
  exact (proj2 (get_detections_sorted_and_cut no_int no_sort
                  (Some "unknown") None ten_pairs) H).
Defined.

Lemma listed_id_deletes_entry_witness :
  storage (snd (delete_detection env_quiet "unknown" "20240101_120000"
                  (rows_world one_pair)))
    !! ("unknown", "20240101_120000.json") = None.
Proof.
  refine (proj1 (proj2 (proj2
            (listed_id_deletes_entry env_quiet (rows_world one_pair)
               "unknown" "20240101_120000.json" one_pair_meta_file one_pair_meta
               _ _ _ _ _ _ _)))).
  - vm_compute. reflexivity.
  - reflexivity.
  - reflexivity.
  - intros H. vm_compute in H. discriminate H.
  - discriminate.
  - reflexivity.
  - reflexivity.
Defined.

Lemma saved_entry_is_listed_witness :
  fst (get_image "unknown" "20240101_120000.jpg"
         (snd (save_detection first_write ([1] : list Z) [] (rows_world ∅))))
  = Ok (Some {| st_size := 1000; st_mtime := 100; body := Jpeg [1] |}).
Proof.
  apply (saved_entry_is_listed first_write ([1] : list Z) []
           (rows_world ∅) 1000 300 100 100); reflexivity.
Defined.

Ltac steps :=
  unfold print, bind, try_except, gets, modify, ret, raise, of_result in *;
  cbn [fst snd storage CONFIG last_detection_time detection_active
       background_frame trace with_trace with_storage with_CONFIG
       with_last_detection_time with_background_frame
       with_detection_active negb] in *.

Section LoopMore.
Context {frame gray : Type} {cv : CV2 frame gray}.

(** ** What a pass prints *)

Lemma save_detection_trace_grows (e : tick_env frame) (f : frame)
    (pets : list pet) (w : world frame gray) :
  trace_grows w (snd (save_detection e f pets w)).
Proof.
  unfold save_detection, write_file. run.
  destruct (imwrite_outcome e); destruct (json_dump_outcome e); run;
    first [ by eexists
          | exists []; cbn [trace with_storage]; by rewrite app_nil_r ].
Qed.

(** How the [try] block ends: with an exception, or in the sleep of one
    frame, with [CONFIG] as at the start. *)
Lemma try_block_ends (e : tick_env frame) (w : world frame gray) :
  (exists ex w1, try_block e w = (Raise ex, w1) /\ trace_grows w w1) \/
  (exists w1, try_block e w = sleep_one_frame w1 /\
              CONFIG w1 = CONFIG w /\ trace_grows w w1).
Proof.
  unfold try_block. steps.
  destruct (capture_array e) as [f|ex] eqn:Hcap.
  2:{ left. exists ex, w. split; [done|apply trace_grows_refl]. }
  pose proof (detect_motion_frame (cvtColor_RGB2BGR f) w) as Hmf.
  destruct (detect_motion (cvtColor_RGB2BGR f) w) as [[motion|ex] wm] eqn:Hm;
    cbn [snd] in Hmf; destruct Hmf as (Hc & Hl & Ha & Hs & Ht).
  2:{ left. exists ex, wm. split; [done|]. exists []. by rewrite app_nil_r. }
  assert (Hgm : trace_grows w wm) by (exists []; by rewrite app_nil_r).
  destruct motion; [|right; by exists wm].
  destruct (in_cooldown _ _ _); [right; by exists wm|].
  pose proof (detect_pets_world e (cvtColor_RGB2BGR f) wm) as Hpw.
  destruct (detect_pets e (cvtColor_RGB2BGR f) wm) as [[pets|ex] wp] eqn:Hp;
    cbn [snd] in Hpw; subst wp.
  2:{ left. by exists ex, wm. }
  rewrite orb_true_r.
  pose proof (save_detection_globals e (cvtColor_RGB2BGR f) pets wm) as Hsg.
  pose proof (save_detection_trace_grows e (cvtColor_RGB2BGR f) pets wm) as Hst.
  destruct (save_detection e (cvtColor_RGB2BGR f) pets wm) as [[p|ex] ws] eqn:Hsave;
    cbn [snd] in Hsg, Hst; destruct Hsg as (Hc2 & _).
  2:{ left. exists ex, ws. split; [done|]. by eapply trace_grows_trans. }
  pose proof (cleanup_never_raises e (with_last_detection_time (time_time e) ws)) as Hcr.
  pose proof (cleanup_same_globals e (with_last_detection_time (time_time e) ws)) as Hcg.
  pose proof (cleanup_trace_grows e (with_last_detection_time (time_time e) ws)) as Hct.
  destruct (cleanup_old_files e (with_last_detection_time (time_time e) ws))
    as [rc wc] eqn:Hclean.
  cbn [fst snd] in Hcr, Hcg, Hct. subst rc. destruct Hcg as (Hc3 & _).
  cbn [CONFIG with_last_detection_time] in Hc3.
  right. exists wc. split; [reflexivity|]. split; [congruence|].
  eapply trace_grows_trans; [exact Hgm|].
  eapply trace_grows_trans; [exact Hst|].
  destruct Hct as [evs Hct]. exists evs. exact Hct.
Qed.

(** The sleep of one frame when the delay is not negative. *)
Lemma sleep_one_frame_sleeps (w : world frame gray) :
  fps (CONFIG w) <> 0 ->
  (0 <= frame_delay (fps (CONFIG w)))%Q ->
  sleep_one_frame w
  = (Ok tt, with_trace (trace w ++ [Sleep (frame_delay (fps (CONFIG w)))]) w).
Proof.
  intros Hf Hd. unfold sleep_one_frame, time_sleep. steps.
  destruct (Z.eqb_spec (fps (CONFIG w)) 0) as [H0|_]; [done|].
  apply Qle_bool_iff in Hd. by rewrite Hd.
Qed.

(** The sleep of one frame raises for the rate 0, where [1 / 0] raises, and
    for a negative delay, which [time.sleep] turns down. *)
Lemma sleep_one_frame_raises (w : world frame gray) :
  fps (CONFIG w) = 0 \/ (frame_delay (fps (CONFIG w)) < 0)%Q ->
  exists ex, sleep_one_frame w = (Raise ex, w).
Proof.
  intros Hf. unfold sleep_one_frame, time_sleep. steps.
  destruct (Z.eqb_spec (fps (CONFIG w)) 0) as [H0|Hn0]; [by eexists|].
  destruct Hf as [?|Hd]; [done|].
  replace (Qle_bool 0 (frame_delay (fps (CONFIG w)))) with false; [by eexists|].
  symmetry. apply not_true_is_false. intros H. apply Qle_bool_iff in H.
  eapply Qlt_not_le; eassumption.
Qed.

(** A pass in which no motion is seen. *)
Lemma try_block_quiet (e : tick_env frame) (f : frame) (w wm : world frame gray) :
  capture_array e = Ok f ->
  detect_motion (cvtColor_RGB2BGR f) w = (Ok false, wm) ->
  try_block e w = sleep_one_frame wm.
Proof.
  intros Hcap Hm. unfold try_block. steps. by rewrite Hcap, Hm.
Qed.

(** X10.  Every pass of the loop ends in a sleep, and which sleep it is
    tells how the pass went.  While detection is paused the pass is a sleep
    of one second and nothing else.  While it is active: when a stage of the
    [try] block raised, the pass prints the error and sleeps one second;
    when none did, the last thing the pass does is the sleep of
    [1 / fps] seconds, with a frame rate other than 0 and a delay that is
    not negative.  A pass that sees no motion at a positive frame rate is
    the sleep of [1 / fps] seconds and nothing else.  In each case the pass
    returns normally and only adds to the output. *)
Theorem every_pass_ends_in_a_sleep (e : tick_env frame) (w : world frame gray) :
  let delay := frame_delay (fps (CONFIG w)) in
  (detection_active w = false ->
   iteration e w = (Ok tt, with_trace (trace w ++ [Sleep 1]) w)) /\
  (detection_active w = true ->
   match try_block e w with
   | (Raise ex, w1) =>
       iteration e w
       = (Ok tt, with_trace (trace w1 ++ [PrintLoopError ex; Sleep 1]) w1) /\
       trace_grows w w1
   | (Ok _, w1) =>
       iteration e w = (Ok tt, w1) /\
       fps (CONFIG w) <> 0 /\ (0 <= delay)%Q /\
       exists evs, trace w1 = trace w ++ evs ++ [Sleep delay]
   end) /\
  (forall f wm,
     detection_active w = true ->
     capture_array e = Ok f ->
     detect_motion (cvtColor_RGB2BGR f) w = (Ok false, wm) ->
     0 < fps (CONFIG w) ->
     iteration e w = (Ok tt, with_trace (trace w ++ [Sleep delay]) wm)).
Proof.
  intros delay. split; [apply iteration_paused|]. split.
  - intros Ha. rewrite iteration_active by done.
    destruct (try_block_ends e w)
      as [(ex & w1 & -> & Hg)|(w1 & -> & Hc & [evs Hg])]; [by split|].
    unfold sleep_one_frame, time_sleep. steps. rewrite Hc. fold delay.
    destruct (Z.eqb_spec (fps (CONFIG w)) 0) as [H0|Hn0].
    { split; [reflexivity|]. by exists evs. }
    destruct (Qle_bool 0 delay) eqn:Hd; steps.
    + split; [reflexivity|]. split; [exact Hn0|].
      split; [by apply Qle_bool_iff|]. exists evs.
      by rewrite Hg, <- app_assoc.
    + split; [reflexivity|]. by exists evs.
  - intros f wm Ha Hcap Hm Hf. rewrite iteration_active by done.
    rewrite (try_block_quiet e f w wm Hcap Hm).
    pose proof (detect_motion_frame (cvtColor_RGB2BGR f) w) as Hmf.
    rewrite Hm in Hmf. destruct Hmf as (Hc & _ & _ & _ & Ht). cbn [snd] in Hc, Ht.
    rewrite sleep_one_frame_sleeps; rewrite Hc.
    + by rewrite Ht.
    + lia.
    + by apply frame_delay_nonneg.
Qed.

(** X11.  A frame rate from [-2^1075 + 1] to 0, which [handle_config]
    accepts, makes every pass that is made while detection is active end in
    the handler of the loop: [1 / 0] raises, and [time.sleep] turns down the
    negative delay.  The error is printed and the loop sleeps one second;
    what the pass did before is kept.  From [-2^1075] down the quotient is
    [-0.0], which [time.sleep] accepts: the sleep of one frame returns. *)
Theorem nonpositive_fps_pass_ends_in_handler (e : tick_env frame)
    (w : world frame gray) :
  (- 2 ^ 1075 < fps (CONFIG w) <= 0 ->
   detection_active w = true ->
   exists ex w1,
     try_block e w = (Raise ex, w1) /\
     iteration e w
     = (Ok tt, with_trace (trace w1 ++ [PrintLoopError ex; Sleep 1]) w1)) /\
  (fps (CONFIG w) <= - 2 ^ 1075 ->
   (frame_delay (fps (CONFIG w)) == 0)%Q /\
   sleep_one_frame w
   = (Ok tt, with_trace (trace w ++ [Sleep (frame_delay (fps (CONFIG w)))]) w)).
Proof.
  split.
  - intros Hf Ha. rewrite iteration_active by done.
    destruct (try_block_ends e w) as [(ex & w1 & -> & _)|(w1 & -> & Hc & _)].
    + by exists ex, w1.
    + destruct (sleep_one_frame_raises w1) as [ex ->]; [|by exists ex, w1].
      rewrite Hc. destruct (Z.eq_dec (fps (CONFIG w)) 0) as [?|Hn0]; [by left|].
      right. apply frame_delay_negative. lia.
  - intros Hf. pose proof (frame_delay_zero _ Hf) as Hz.
    split; [exact Hz|]. apply sleep_one_frame_sleeps.
    + assert (0 < 2 ^ 1075) by (apply Z.pow_pos_nonneg; lia). lia.
    + rewrite Hz. apply Qle_refl.
Qed.

(** ** The paused loop and [toggle_detection] *)

Lemma with_trace_with_trace (t1 t2 : list event) (w : world frame gray) :
  with_trace t2 (with_trace t1 w) = with_trace t2 w.
Proof. reflexivity. Qed.

Lemma monitoring_loop_paused (envs : list (tick_env frame))
    (w : world frame gray) :
  detection_active w = false ->
  monitoring_loop envs w
  = (Ok tt, with_trace (trace w ++ repeat (Sleep 1) (length envs)) w).
Proof.
  revert w. induction envs as [|e envs IH]; intros w Ha.
  - cbn. rewrite app_nil_r. by destruct w.
  - rewrite monitoring_loop_cons, iteration_paused by done. cbn [snd].
    rewrite IH by done. cbn [trace with_trace length repeat].
    rewrite with_trace_with_trace, <- app_assoc. reflexivity.
Qed.

(** X12.  [toggle_detection] flips [detection_active], answers with the new
    value and changes nothing else.  After it has switched detection off,
    the loop does nothing but sleep one second in each pass, whatever the
    camera shows; switching detection on again gives back the world in
    which it was switched off, with the sleeps added to the output. *)
Theorem toggle_pauses_the_loop (envs : list (tick_env frame))
    (w : world frame gray) :
  detection_active w = true ->
  let w1 := snd (toggle_detection w) in
  let w2 := snd (monitoring_loop envs w1) in
  toggle_detection w = (Ok false, with_detection_active false w) /\
  monitoring_loop envs w1
  = (Ok tt, with_trace (trace w ++ repeat (Sleep 1) (length envs)) w1) /\
  toggle_detection w2
  = (Ok true, with_trace (trace w ++ repeat (Sleep 1) (length envs)) w).
Proof.
  intros Ha w1 w2.
  assert (Ht : toggle_detection w = (Ok false, with_detection_active false w)).
  { unfold toggle_detection. steps. by rewrite Ha. }
  assert (Hl : monitoring_loop envs w1
               = (Ok tt, with_trace (trace w ++ repeat (Sleep 1) (length envs)) w1)).
  { unfold w1. rewrite Ht. cbn [snd]. by rewrite monitoring_loop_paused. }
  split; [exact Ht|]. split; [exact Hl|].
  unfold w2. rewrite Hl. unfold w1. rewrite Ht. cbn [snd].
  unfold toggle_detection. steps. destruct w. cbn in *. by subst.
Qed.

(** ** A frame without changed pixels *)

Lemma motion_percent_0 (a : Z) :
  (binary64_full (binary64_full (inject_Z 0 / inject_Z a) * 100) == 0)%Q.
Proof.
  apply binary64_full_0. rewrite binary64_full_0; [apply Qmult_0_l|].
  unfold Qdiv. change (inject_Z 0) with 0%Q. apply Qmult_0_l.
Qed.

(** [detect_motion] on a frame that differs from the background in no
    pixel by more than 25. *)
Lemma detect_motion_still (f : frame) (bg : gray) (w : world frame gray) :
  background_frame w = Some bg ->
  countNonZero
    (threshold_binary (absdiff bg (GaussianBlur (cvtColor_BGR2GRAY f) 21)) 25 255)
  = 0 ->
  0 <= motion_threshold (CONFIG w) ->
  fst (detect_motion f w) <> Ok true.
Proof.
  intros Hbg Hcount Hth. unfold detect_motion. steps. rewrite Hbg. steps.
  rewrite Hcount. destruct (_ =? 0); steps; [discriminate|].
  intros H. injection H as H. apply Qlt_bool_iff in H.
  rewrite motion_percent_0 in H.
  apply (Qlt_not_le _ _ H). change 0%Q with (inject_Z 0). by rewrite <- Zle_Qle.
Qed.

(** X13.  A frame that differs from the background in no pixel by more
    than 25 is no motion, for every threshold that is not negative: the pass
    that sees it writes nothing and leaves the cooldown timestamp alone. *)
Theorem still_frame_records_nothing (e : tick_env frame) (f : frame)
    (bg : gray) (w : world frame gray) :
  capture_array e = Ok f ->
  background_frame w = Some bg ->
  countNonZero
    (threshold_binary
       (absdiff bg (GaussianBlur (cvtColor_BGR2GRAY (cvtColor_RGB2BGR f)) 21))
       25 255)
  = 0 ->
  0 <= motion_threshold (CONFIG w) ->
  fst (detect_motion (cvtColor_RGB2BGR f) w) <> Ok true /\
  storage (snd (iteration e w)) = storage w /\
  last_detection_time (snd (iteration e w)) = last_detection_time w.
Proof.
  intros Hcap Hbg Hcount Hth.
  pose proof (detect_motion_still (cvtColor_RGB2BGR f) bg w Hbg Hcount Hth) as Hm.
  split; [exact Hm|].
  destruct (iteration_cases e w) as (_ & _ & _ & Hcases).
  destruct Hcases as [[Hl Hs]|(f' & pets & wm & r & ws & _ & Hcap' & Hm' & _)].
  - by split.
  - rewrite Hcap in Hcap'. injection Hcap' as <-. rewrite Hm' in Hm. by destruct Hm.
Qed.

End LoopMore.

Lemma every_pass_ends_in_a_sleep_witness :
  iteration (cv := cv_rows) pass_still dark_world
  = (Ok tt,
     with_trace (trace dark_world ++ [Sleep (frame_delay 2)])
       (with_background_frame (Some [1; 0; 2; 1]) dark_world)).
Proof.
  exact (proj2 (proj2 (every_pass_ends_in_a_sleep (cv := cv_rows)
                         pass_still dark_world))
           [10; 0; 20; 5] (with_background_frame (Some [1; 0; 2; 1]) dark_world)
           eq_refl eq_refl eq_refl eq_refl).
Defined.

Lemma nonpositive_fps_pass_ends_in_handler_witness :
  exists ex w1,
    try_block (cv := cv_rows) pass_100 stalled_world = (Raise ex, w1) /\
    iteration (cv := cv_rows) pass_100 stalled_world
    = (Ok tt, with_trace (trace w1 ++ [PrintLoopError ex; Sleep 1]) w1).
Proof.
  assert (H : - 2 ^ 1075 < fps (CONFIG stalled_world) <= 0).
  { split; [reflexivity|]. vm_compute. discriminate. }
  exact (proj1 (nonpositive_fps_pass_ends_in_handler (cv := cv_rows)
                  pass_100 stalled_world) H eq_refl).
Defined.

Lemma toggle_pauses_the_loop_witness :
  toggle_detection dark_world = (Ok false, with_detection_active false dark_world).
Proof.
  apply (toggle_pauses_the_loop (cv := cv_rows) [pass_100; pass_104] dark_world).
  reflexivity.
Defined.

Lemma still_frame_records_nothing_witness :
  storage (snd (iteration (cv := cv_rows) pass_still dark_world))
  = storage dark_world.
Proof.
  apply (still_frame_records_nothing (cv := cv_rows) pass_still
           [10; 0; 20; 5] [0; 0; 0; 0] dark_world).
  - reflexivity.
  - reflexivity.
  - reflexivity.
  - vm_compute. discriminate.
Defined.

Section StorageMore.
Context {frame gray : Type} {cv : CV2 frame gray}.

(** ** [cleanup_old_files] on few images *)

(** X14.  With fewer than five images in the directory a cleanup pass
    removes nothing, however far the usage is above the mark:
    [int(len * 0.2)] is 0.  The directory is as before and the usage is
    still above the mark after the pass. *)
Theorem cleanup_needs_five_images (e : tick_env frame) (w : world frame gray) :
  (length (jpg_files (storage w)) < 5)%nat ->
  let w' := snd (cleanup_old_files e w) in
  cleanup_batch (storage w) = [] /\
  storage w' = storage w /\
  over_mark w' = over_mark w.
Proof.
  intros Hlen w'.
  assert (Hbatch : cleanup_batch (storage w) = []).
  { unfold cleanup_batch. cbv zeta. rewrite sort_by_mtime_length.
    rewrite files_to_delete_of_fifth
      by (change (2 ^ 31) with 2147483648; lia).
    by rewrite Nat.div_small. }
  assert (Hs : storage w' = storage w).
  { unfold w'. destruct (over_mark w) eqn:Hover.
    - destruct (cleanup_above_mark e w Hover) as (_ & -> & _).
      by rewrite Hbatch.
    - by rewrite cleanup_below_mark. }
  split; [exact Hbatch|]. split; [exact Hs|].
  destruct (cleanup_same_globals e w) as (Hc & _). fold w' in Hc.
  unfold over_mark. by rewrite Hs, Hc.
Qed.

(** ** The usage of the directory *)

Lemma foldl_add_sizes (l : list (path * file frame)) (a : Z) :
  foldl (fun acc pf => acc + st_size (snd pf)) a l
  = a + foldr Z.add 0 (map (fun pf => st_size (snd pf)) l).
Proof.
  revert a. induction l as [|x l IH]; intros a; cbn [foldl foldr map]; [lia|].
  rewrite IH. lia.
Qed.

Lemma sum_perm (l1 l2 : list Z) :
  Permutation l1 l2 -> foldr Z.add 0 l1 = foldr Z.add 0 l2.
Proof. induction 1; cbn [foldr]; lia. Qed.

Lemma total_size_sum (s : gmap path (file frame)) :
  total_size s = foldr Z.add 0 (map (fun pf => st_size (snd pf)) (map_to_list s)).
Proof. unfold total_size, os_walk. by rewrite foldl_add_sizes. Qed.

Lemma total_size_insert (s : gmap path (file frame)) (p : path) (f : file frame) :
  s !! p = None -> total_size (<[p := f]> s) = total_size s + st_size f.
Proof.
  intros H. rewrite !total_size_sum.
  rewrite (sum_perm _ _ (Permutation_map _ (map_to_list_insert s p f H))).
  cbn [map foldr snd]. lia.
Qed.

Lemma total_size_delete (s : gmap path (file frame)) (p : path) (f : file frame) :
  s !! p = Some f -> total_size (delete p s) = total_size s - st_size f.
Proof.
  intros H. rewrite <- (insert_delete_id s p f H) at 2.
  rewrite total_size_insert by apply lookup_delete_eq. lia.
Qed.

Lemma total_size_delete_le (s : gmap path (file frame)) (p : path) :
  (forall q f, s !! q = Some f -> 0 <= st_size f) ->
  total_size (delete p s) <= total_size s.
Proof.
  intros Hpos. destruct (s !! p) as [f|] eqn:H.
  - rewrite (total_size_delete s p f H). specialize (Hpos p f H). lia.
  - by rewrite delete_id.
Qed.

Lemma remove_all_subseteq (e : tick_env frame) (batch : list path)
    (s : gmap path (file frame)) :
  remove_all e batch s ⊆ s.
Proof.
  revert s. induction batch as [|q batch IH]; intros s; [done|].
  cbn [remove_all foldl]. etrans; [apply IH|].
  destruct (os_remove_raises e q); [done|apply delete_subseteq].
Qed.

Lemma remove_all_total_size (e : tick_env frame) (batch : list path)
    (s : gmap path (file frame)) :
  (forall q f, s !! q = Some f -> 0 <= st_size f) ->
  total_size (remove_all e batch s) <= total_size s.
Proof.
  revert s. induction batch as [|q batch IH]; intros s Hpos; [done|].
  cbn [remove_all foldl].
  destruct (os_remove_raises e q).
  - by apply IH.
  - etrans; [apply IH|by apply total_size_delete_le].
    intros q' f Hq. apply (Hpos q' f).
    eapply lookup_weaken; [exact Hq|apply delete_subseteq].
Qed.

Lemma usage_gb_le (s1 s2 : gmap path (file frame)) :
  total_size s1 <= total_size s2 -> (usage_gb s1 <= usage_gb s2)%Q.
Proof.
  intros H. unfold usage_gb. apply binary64_mono. apply Qmult_le_compat_r.
  - by rewrite <- Zle_Qle.
  - apply Qinv_le_0_compat. by vm_compute.
Qed.

(** X15.  A cleanup pass only removes files: every file that is in the
    directory after the pass was there before, unchanged.  When no file has
    a negative size, the value of [get_storage_usage_gb] after the pass is at
    most its value before: the rounding of the quotient keeps the order. *)
Theorem cleanup_only_removes (e : tick_env frame) (w : world frame gray) :
  let w' := snd (cleanup_old_files e w) in
  storage w' ⊆ storage w /\
  ((forall p f, storage w !! p = Some f -> 0 <= st_size f) ->
   total_size (storage w') <= total_size (storage w) /\
   (fst (get_storage_usage_gb w') = Ok (usage_gb (storage w')) /\
    usage_gb (storage w') <= usage_gb (storage w))%Q).
Proof.
  intros w'. unfold w'.
  change (fst (get_storage_usage_gb (snd (cleanup_old_files e w))))
    with (Ok (usage_gb (storage (snd (cleanup_old_files e w))))).
  destruct (over_mark w) eqn:Hover.
  - destruct (cleanup_above_mark e w Hover) as (_ & -> & _).
    split; [apply remove_all_subseteq|]. intros Hpos.
    pose proof (remove_all_total_size e
                  (map fst (cleanup_batch (storage w))) (storage w) Hpos) as Hle.
    split; [exact Hle|]. split; [reflexivity|by apply usage_gb_le].
  - rewrite cleanup_below_mark by done. cbn [snd]. split; [done|].
    intros _. split; [lia|]. split; [reflexivity|apply Qle_refl].
Qed.

(** X16.  A write to two free paths adds the sizes of the two files to the
    total that [get_storage_usage_gb] sums up; deleting the entry takes them
    off again. *)
Theorem save_detection_adds_sizes (e : tick_env frame) (f : frame)
    (pets : list pet) (w : world frame gray) (size size' : Z) (mtime mtime' : Q) :
  datetime_ok (datetime_now e) = true ->
  imwrite_outcome e = Written size mtime ->
  json_dump_outcome e = Written size' mtime' ->
  let category := category_of pets in
  let image_id := strftime_id (datetime_now e) in
  storage w !! (category, image_id +:+ ".jpg") = None ->
  storage w !! (category, image_id +:+ ".json") = None ->
  os_remove_raises e (category, image_id +:+ ".jpg") = None ->
  os_remove_raises e (category, image_id +:+ ".json") = None ->
  let w1 := snd (save_detection e f pets w) in
  let w2 := snd (delete_detection e category image_id w1) in
  total_size (storage w1) = total_size (storage w) + size + size' /\
  total_size (storage w2) = total_size (storage w).
Proof.
  intros Hok Himg Hjson category image_id Hfi Hfm Hri Hrm w1 w2.
  destruct (save_detection_written e f pets w size size' mtime mtime'
              Hok Himg Hjson) as (_ & Hs & _).
  fold category image_id w1 in Hs.
  assert (H1 : total_size (storage w1) = total_size (storage w) + size + size').
  { rewrite Hs. rewrite total_size_insert.
    - rewrite total_size_insert by exact Hfi. cbn [st_size]. lia.
    - rewrite lookup_insert_ne; [exact Hfm|].
      intros H. symmetry in H. revert H. apply jpg_path_ne_json. }
  split; [exact H1|].
  unfold w2. rewrite (delete_detection_ok e category image_id w1 Hri Hrm).
  cbn [snd storage with_storage]. rewrite Hs.
  erewrite total_size_delete.
  2:{ rewrite lookup_delete_ne
        by (intros H; symmetry in H; revert H; apply jpg_path_ne_json).
      apply lookup_insert_eq. }
  erewrite total_size_delete.
  2:{ rewrite lookup_insert_ne by apply jpg_path_ne_json.
      apply lookup_insert_eq. }
  rewrite Hs in H1. cbn [st_size]. lia.
Qed.

End StorageMore.

Lemma cleanup_needs_five_images_witness :
  over_mark (rows_world four_pairs) = true /\
  storage (snd (cleanup_old_files env_quiet (rows_world four_pairs)))
  = storage (rows_world four_pairs).
Proof.
  assert (H : (length (jpg_files (storage (rows_world four_pairs))) < 5)%nat).
  { vm_compute. lia. }
  split; [vm_compute; reflexivity|].
  exact (proj1 (proj2 (cleanup_needs_five_images env_quiet
                         (rows_world four_pairs) H))).
Defined.

Lemma cleanup_only_removes_witness :
  total_size (storage (snd (cleanup_old_files env_quiet (rows_world ten_pairs))))
  <= total_size (storage (rows_world ten_pairs)).
Proof.
  assert (H0 : map_Forall (fun (_ : path) (f : file (list Z)) => 0 <= st_size f)
                 ten_pairs).
  { apply (bool_decide_unpack _). vm_compute. reflexivity. }
  exact (proj1 (proj2 (cleanup_only_removes env_quiet (rows_world ten_pairs)) H0)).
Defined.

Lemma save_detection_adds_sizes_witness :
  total_size (storage (snd (save_detection first_write ([1] : list Z) []
                              (rows_world ∅))))
  = total_size (storage (rows_world ∅)) + 1000 + 300.
Proof.
  exact (proj1 (save_detection_adds_sizes first_write ([1] : list Z) []
                  (rows_world ∅) 1000 300 100 100
                  eq_refl eq_refl eq_refl eq_refl eq_refl eq_refl eq_refl)).
Defined.

Section ModelMore.
Context {frame gray : Type} {cv : CV2 frame gray}.

(** ** [detect_pets] and the classes of the model *)

Lemma detect_pets_boxes_run (r : yolo_result) (bs : list box) (acc : list pet)
    (w : world frame gray) :
  detect_pets_boxes r bs acc w
  = (if decide (Forall (class_known r) bs)
     then Ok (acc ++ omap (pet_of_box r) bs) else Raise KeyError, w).
Proof.
  revert acc. induction bs as [|b bs IH]; intros acc.
  - cbn [detect_pets_boxes omap list_omap]. unfold ret.
    rewrite decide_True by constructor. by rewrite app_nil_r.
  - cbn [detect_pets_boxes omap list_omap]. unfold bind, detect_pets_box.
    destruct (names r !! cls b) as [n|] eqn:Hn.
    + assert (Hk : class_known r b) by (by exists n).
      assert (Hcons : Forall (class_known r) (b :: bs) <-> Forall (class_known r) bs).
      { split; [by intros [_ ?]%Forall_cons|by constructor]. }
      destruct (String.eqb n "cat" || String.eqb n "dog") eqn:Hc.
      * assert (Hpb : pet_of_box r b
                      = Some {| type := n; confidence := conf b; bbox := xyxy b |}).
        { unfold pet_of_box. by rewrite Hn, Hc. }
        rewrite Hpb. steps. rewrite IH, <- app_assoc. cbn [app].
        destruct (decide (Forall (class_known r) bs)) as [H|H].
        -- by rewrite decide_True by (by apply Hcons).
        -- by rewrite decide_False by (by rewrite Hcons).
      * assert (Hpb : pet_of_box r b = None).
        { unfold pet_of_box. by rewrite Hn, Hc. }
        rewrite Hpb. steps. rewrite IH.
        destruct (decide (Forall (class_known r) bs)) as [H|H].
        -- by rewrite decide_True by (by apply Hcons).
        -- by rewrite decide_False by (by rewrite Hcons).
    + steps. rewrite decide_False; [done|].
      intros H'. apply Forall_cons in H' as [[n Hn'] _]. congruence.
Qed.

Lemma detect_pets_results_run (results : list yolo_result) (acc : list pet)
    (w : world frame gray) :
  detect_pets_results results acc w
  = (if decide (classes_known results)
     then Ok (acc ++ pets_of_results results) else Raise KeyError, w).
Proof.
  unfold classes_known.
  revert acc. induction results as [|r rs IH]; intros acc.
  - cbn [detect_pets_results]. unfold ret, pets_of_results. cbn [map concat].
    rewrite decide_True by constructor. by rewrite app_nil_r.
  - cbn [detect_pets_results]. unfold bind. rewrite detect_pets_boxes_run.
    destruct (decide (Forall (class_known r) (boxes r))) as [Hr|Hr].
    + rewrite IH. destruct (decide (Forall _ rs)) as [H|H].
      * rewrite decide_True by (by constructor).
        unfold pets_of_results. cbn [map concat]. by rewrite <- app_assoc.
      * rewrite decide_False; [done|]. intros H'. by apply Forall_cons in H' as [_ ?].
    + rewrite decide_False; [done|]. intros H'. by apply Forall_cons in H' as [? _].
Qed.

(** X17.  Whether [detect_pets] returns depends on the class ids alone.
    When the model returns results in which the class of every box is a key
    of [names], [detect_pets] returns the cats and dogs among the boxes; when
    some box has a class that is not, it raises [KeyError], also when that
    box comes after cats and dogs.  When the model raises, so does
    [detect_pets].  The world is the same in each case. *)
Theorem detect_pets_returns_or_raises (e : tick_env frame) (f : frame)
    (w : world frame gray) :
  match model_call e f (detection_confidence (CONFIG w)) with
  | Ok results =>
      (classes_known results ->
       detect_pets e f w = (Ok (pets_of_results results), w)) /\
      (~ classes_known results -> detect_pets e f w = (Raise KeyError, w))
  | Raise ex => detect_pets e f w = (Raise ex, w)
  end.
Proof.
  unfold detect_pets. steps.
  destruct (model_call e f (detection_confidence (CONFIG w))) as [results|ex];
    [|reflexivity].
  rewrite detect_pets_results_run. split; intros H.
  - by rewrite decide_True.
  - by rewrite decide_False.
Qed.

(** ** The mock model *)

Lemma MockBoxes_known (d : mock_camera.draws) :
  mock_camera.draws_ok d = true ->
  Forall (fun b =>
            exists bd, b = mock_camera.MockBox bd /\
                       mock_camera.box_draw_ok bd = true)
         (mock_camera.MockBoxes d).
Proof.
  unfold mock_camera.draws_ok, mock_camera.MockBoxes. intros H.
  apply andb_true_iff in H as [_ H]. rewrite forallb_forall in H.
  apply Forall_forall. intros b Hb.
  apply list_elem_of_fmap in Hb as (i & -> & Hi).
  exists (mock_camera.box_draws d i). split; [reflexivity|].
  apply H. by apply list_elem_of_In.
Qed.

Lemma pet_of_MockBox (d : mock_camera.draws) (bd : mock_camera.box_draw) :
  mock_camera.box_draw_ok bd = true ->
  pet_of_box (mock_camera.MockResult d) (mock_camera.MockBox bd)
  = Some {| type := if mock_camera.draw_cls bd =? 15 then "cat" else "dog";
            confidence := mock_camera.draw_conf bd;
            bbox := xyxy (mock_camera.MockBox bd) |}.
Proof.
  unfold mock_camera.box_draw_ok. intros H.
  repeat (apply andb_true_iff in H as [H _]).
  unfold pet_of_box, mock_camera.MockResult, mock_camera.MockBox.
  cbn [names cls conf xyxy].
  apply orb_true_iff in H as [H|H]; apply Z.eqb_eq in H; rewrite H; reflexivity.
Qed.

Lemma omap_pet_of_MockBox (d : mock_camera.draws) (bs : list box) :
  Forall (fun b =>
            exists bd, b = mock_camera.MockBox bd /\
                       mock_camera.box_draw_ok bd = true) bs ->
  length (omap (pet_of_box (mock_camera.MockResult d)) bs) = length bs /\
  Forall (class_known (mock_camera.MockResult d)) bs /\
  Forall (fun p =>
            exists bd, mock_camera.box_draw_ok bd = true /\
              p = {| type := if mock_camera.draw_cls bd =? 15 then "cat" else "dog";
                     confidence := mock_camera.draw_conf bd;
                     bbox := xyxy (mock_camera.MockBox bd) |})
         (omap (pet_of_box (mock_camera.MockResult d)) bs).
Proof.
  induction 1 as [|b bs (bd & -> & Hbd) _ (IH1 & IH2 & IH3)].
  - by repeat split; constructor.
  - pose proof (pet_of_MockBox d bd Hbd) as Hp.
    cbn [omap list_omap]. rewrite Hp. cbn [length]. split; [by rewrite IH1|].
    split.
    + constructor; [|exact IH2]. unfold class_known.
      unfold pet_of_box in Hp.
      destruct (names (mock_camera.MockResult d) !! cls (mock_camera.MockBox bd));
        [by eexists|discriminate].
    + constructor; [|exact IH3]. by exists bd.
Qed.

(** X18.  With the mock model, [detect_pets] never raises and ignores the
    configured threshold: whatever [detection_confidence] is, it returns as
    many detections as the model drew, at most two, each a cat or a dog with
    a confidence in [0.5, 0.95) and a box with 0 <= x1 < 1000, 0 <= y1 < 600
    and sides from 100 to 299, so a box can reach beyond the 1280 x 720
    frame.  The event is saved under [unknown] exactly when nothing was
    drawn. *)
Theorem mock_model_detections (e : tick_env frame) (d : mock_camera.draws)
    (f : frame) (w : world frame gray) :
  model_call e = mock_camera.MockYOLO d ->
  mock_camera.draws_ok d = true ->
  exists pets,
    detect_pets e f w = (Ok pets, w) /\
    length pets = mock_camera.num_detections d /\
    (length pets <= 2)%nat /\
    Forall (fun p =>
              (type p = "cat" \/ type p = "dog") /\
              (1 # 2 <= confidence p)%Q /\ (confidence p < 95 # 100)%Q /\
              exists x1 y1 x2 y2,
                bbox p = [inject_Z x1; inject_Z y1; inject_Z x2; inject_Z y2] /\
                0 <= x1 < 1000 /\ 0 <= y1 < 600 /\
                100 <= x2 - x1 < 300 /\ 100 <= y2 - y1 < 300) pets /\
    (category_of pets = "unknown" <-> mock_camera.num_detections d = 0%nat).
Proof.
  intros Hmodel Hd.
  pose proof (MockBoxes_known d Hd) as Hboxes.
  destruct (omap_pet_of_MockBox d _ Hboxes) as (Hlen & Hknown & Hpets).
  set (pets := omap (pet_of_box (mock_camera.MockResult d))
                    (mock_camera.MockBoxes d)) in *.
  assert (Hnum : length pets = mock_camera.num_detections d).
  { rewrite Hlen. unfold mock_camera.MockBoxes.
    by rewrite length_map, length_seq. }
  exists pets. split.
  { unfold detect_pets. steps. rewrite Hmodel. unfold mock_camera.MockYOLO.
    rewrite detect_pets_results_run.
    rewrite decide_True by (by repeat constructor).
    unfold pets_of_results. cbn [map concat app].
    change (boxes (mock_camera.MockResult d)) with (mock_camera.MockBoxes d).
    fold pets. by rewrite app_nil_r. }
  split; [exact Hnum|]. split.
  { rewrite Hnum. unfold mock_camera.draws_ok in Hd.
    apply andb_true_iff in Hd as [Hd _]. by apply Nat.leb_le in Hd. }
  assert (Htypes : Forall (fun p => type p = "cat" \/ type p = "dog") pets).
  { eapply Forall_impl; [exact Hpets|]. intros p (bd & _ & ->). cbn [type].
    destruct (_ =? 15); auto. }
  split.
  - apply Forall_forall. intros p Hp.
    split; [by apply (proj1 (Forall_forall _ _) Htypes)|].
    apply (proj1 (Forall_forall _ _) Hpets) in Hp as (bd & Hbd & ->).
    unfold mock_camera.box_draw_ok in Hbd.
    repeat match goal with
           | H : _ && _ = true |- _ => apply andb_true_iff in H as [H ?]
           end.
    repeat match goal with
           | H : (_ <=? _) = true |- _ => apply Z.leb_le in H
           | H : (_ <? _) = true |- _ => apply Z.ltb_lt in H
           | H : Qle_bool _ _ = true |- _ => apply Qle_bool_iff in H
           | H : Qlt_bool _ _ = true |- _ => apply Qlt_bool_iff in H
           end.
    cbn [confidence bbox xyxy mock_camera.MockBox].
    split.
    { eapply Qle_trans; [|eassumption]. unfold Qle. cbn. lia. }
    split; [assumption|].
    exists (mock_camera.draw_x1 bd), (mock_camera.draw_y1 bd),
           (mock_camera.draw_x1 bd + mock_camera.draw_dx bd),
           (mock_camera.draw_y1 bd + mock_camera.draw_dy bd).
    split; [reflexivity|]. lia.
  - rewrite <- Hnum, category_of_spec. unfold spec_category.
    destruct pets as [|p pets']; [by rewrite !decide_False by (by intros ?%Exists_nil)|].
    apply Forall_cons in Htypes as [[Hp|Hp] _].
    + rewrite decide_True by (by left). split; [discriminate|discriminate].
    + destruct (decide (Exists _ _)); [split; discriminate|].
      rewrite decide_True by (by left). split; discriminate.
Qed.

End ModelMore.

Lemma mock_model_detections_witness :
  exists pets,
    detect_pets pass_100 bright dark_world = (Ok pets, dark_world) /\
    length pets = 1%nat.
Proof.
  destruct (mock_model_detections pass_100 one_cat bright
              dark_world eq_refl eq_refl) as (pets & H1 & H2 & _).
  exists pets. split; [exact H1|exact H2].
Defined.

Lemma detect_pets_returns_or_raises_witness :
  detect_pets pass_100 bright dark_world
  = (Ok (pets_of_results [mock_camera.MockResult one_cat]), dark_world).
Proof.
  assert (H : classes_known [mock_camera.MockResult one_cat]).
  { repeat constructor. by eexists. }
  exact (proj1 (detect_pets_returns_or_raises pass_100 bright dark_world) H).
Defined.

Section ConfigMore.
Context {frame gray : Type} {cv : CV2 frame gray}.
Variable int_of_str : string -> option Z.
Variable float_of_str : string -> option Q.

(** ** [handle_config] *)

(** X19.  [handle_config] touches three settings and nothing else: the
    directory, the printed output, the cooldown timestamp,
    [detection_active] and the background are as before, and so are
    [resolution], [storage_path], [motion_threshold] and [cooldown_seconds],
    whatever the request holds.  No request is answered normally: a GET
    changes nothing and is answered with the [TypeError] that
    [jsonify(CONFIG)] raises on [storage_path], and a POST is answered with
    that error or with the one of a conversion. *)
Theorem handle_config_touches_three_settings (method : http_method)
    (data : gmap string json) (w : world frame gray) :
  let r := handle_config int_of_str float_of_str method data w in
  let w' := snd r in
  storage w' = storage w /\
  trace w' = trace w /\
  last_detection_time w' = last_detection_time w /\
  detection_active w' = detection_active w /\
  background_frame w' = background_frame w /\
  resolution (CONFIG w') = resolution (CONFIG w) /\
  storage_path (CONFIG w') = storage_path (CONFIG w) /\
  motion_threshold (CONFIG w') = motion_threshold (CONFIG w) /\
  cooldown_seconds (CONFIG w') = cooldown_seconds (CONFIG w) /\
  (exists ex, fst r = Raise ex) /\
  handle_config int_of_str float_of_str GET data w = (Raise TypeError, w).
Proof.
  cbv zeta. unfold handle_config. destruct method.
  - steps. repeat split; by eexists.
  - destruct (data !! "fps") as [v1|]; [destruct (py_int int_of_str v1)|];
      (destruct (data !! "high_water_mark_gb") as [v2|];
         [destruct (py_int int_of_str v2)|]);
      (destruct (data !! "detection_confidence") as [v3|];
         [destruct (py_float float_of_str v3)|]);
      steps; repeat split; by eexists.
Qed.

(** X20.  A POST is not applied as a whole.  When the request holds a
    frame rate that converts and a mark whose conversion raises, the
    request is answered with the error, and the frame rate has been stored
    all the same. *)
Theorem handle_config_partial_update (data : gmap string json)
    (v1 v2 : json) (n : Z) (ex : exn) (w : world frame gray) :
  data !! "fps" = Some v1 ->
  py_int int_of_str v1 = Ok n ->
  data !! "high_water_mark_gb" = Some v2 ->
  py_int int_of_str v2 = Raise ex ->
  handle_config int_of_str float_of_str POST data w
  = (Raise ex, with_CONFIG (set_fps n (CONFIG w)) w).
Proof.
  intros H1 Hn H2 Hex. unfold handle_config. rewrite H1, H2. steps.
  by rewrite Hn, Hex.
Qed.

End ConfigMore.

Lemma handle_config_partial_update_witness :
  handle_config no_int no_float POST partial_request dark_world
  = (Raise ValueError, with_CONFIG (set_fps 5 (CONFIG dark_world)) dark_world).
Proof.
  exact (handle_config_partial_update no_int no_float partial_request
           (JInt 5) (JString "ten") 5 ValueError dark_world
           eq_refl eq_refl eq_refl eq_refl).
Defined.

(** ** The mock camera *)

(** X21.  The mock camera returns a frame exactly when it has been
    started: a new or a stopped camera raises "Camera not started", a
    started one and the one that [init_camera] leaves return the image.
    With draws that the generators can return, every value of the image is
    either the noise, below 50, or, with a chance above 0.7, the colour
    200, 150 or 100 of the rectangle of 100 rows and 150 columns, which lies
    inside the 720 x 1280 frame. *)
Theorem mock_capture_array (c : mock_camera.Picamera2)
    (d : mock_camera.image_draw) :
  mock_camera.image_draw_ok d ->
  mock_camera.Picamera2_capture_array mock_camera.Picamera2_new d
  = Raise (RuntimeError "Camera not started") /\
  mock_camera.Picamera2_capture_array (mock_camera.stop c) d
  = Raise (RuntimeError "Camera not started") /\
  mock_camera.Picamera2_capture_array (mock_camera.start c) d
  = Ok (mock_camera.capture_image d) /\
  fst init_camera = true /\
  mock_camera.Picamera2_capture_array (snd init_camera) d
  = Ok (mock_camera.capture_image d) /\
  forall y x ch, 0 <= ch < 3 ->
    let v := mock_camera.capture_image d y x ch in
    (v = mock_camera.noise d y x ch /\ 0 <= v < 50) \/
    ((7 # 10 < mock_camera.chance d)%Q /\
     mock_camera.rect_y d <= y < mock_camera.rect_y d + 100 /\
     mock_camera.rect_x d <= x < mock_camera.rect_x d + 150 /\
     0 <= y < mock_camera.height /\ 0 <= x < mock_camera.width /\
     v = nth (Z.to_nat ch) [200; 150; 100] 0).
Proof.
  intros (Hnoise & Hc0 & Hc1 & Hx & Hy).
  do 5 (split; [reflexivity|]).
  intros y x ch Hch v. unfold v, mock_camera.capture_image. cbv zeta.
  specialize (Hnoise y x ch).
  destruct (Qlt_bool (7 # 10) (mock_camera.chance d)) eqn:Hchance; cbn [andb].
  2:{ left. rewrite Z.add_0_l, Z.mod_small by lia. split; [reflexivity|lia]. }
  destruct (Z.leb_spec (mock_camera.rect_y d) y); cbn [andb];
    [|left; rewrite Z.add_0_l, Z.mod_small by lia; split; [reflexivity|lia]].
  destruct (Z.ltb_spec y (mock_camera.rect_y d + 100)); cbn [andb];
    [|left; rewrite Z.add_0_l, Z.mod_small by lia; split; [reflexivity|lia]].
  destruct (Z.leb_spec (mock_camera.rect_x d) x); cbn [andb];
    [|left; rewrite Z.add_0_l, Z.mod_small by lia; split; [reflexivity|lia]].
  destruct (Z.ltb_spec x (mock_camera.rect_x d + 150)); cbn [andb];
    [|left; rewrite Z.add_0_l, Z.mod_small by lia; split; [reflexivity|lia]].
  right. apply Qlt_bool_iff in Hchance.
  unfold mock_camera.height, mock_camera.width in *.
  split; [exact Hchance|]. repeat split; try lia.
  unfold mock_camera.rect_colour.
  assert (Hcases : ch = 0 \/ ch = 1 \/ ch = 2) by lia.
  destruct Hcases as [-> | [-> | ->]]; reflexivity.
Qed.

Lemma mock_capture_array_witness :
  mock_camera.Picamera2_capture_array (snd init_camera) rect_draw
  = Ok (mock_camera.capture_image rect_draw).
Proof.
  assert (H : mock_camera.image_draw_ok rect_draw).
  { unfold mock_camera.image_draw_ok, rect_draw. cbn.
    repeat split; try lia; try (intros; lia); by vm_compute. }
  exact (proj1 (proj2 (proj2 (proj2 (proj2
           (mock_capture_array mock_camera.Picamera2_new rect_draw H)))))).
Defined.

Section LoopInvariant.
Context {frame gray : Type} {cv : CV2 frame gray}.

(** ** What the loop leaves alone *)

(** X22.  However many passes the loop makes and whatever happens in them,
    it returns normally from each, it never changes [CONFIG] or
    [detection_active], which only the handlers set, and the cooldown
    timestamp afterwards is the one before or the time of one of the
    passes. *)
Theorem monitoring_loop_keeps_settings (envs : list (tick_env frame))
    (w : world frame gray) :
  let w' := snd (monitoring_loop envs w) in
  fst (monitoring_loop envs w) = Ok tt /\
  CONFIG w' = CONFIG w /\
  detection_active w' = detection_active w /\
  (last_detection_time w' = last_detection_time w \/
   exists e, e ∈ envs /\ last_detection_time w' = time_time e).
Proof.
  cbv zeta. revert w. induction envs as [|e envs IH]; intros w.
  - cbn. auto.
  - rewrite monitoring_loop_cons.
    destruct (IH (snd (iteration e w))) as (Hr & Hc & Ha & Hl).
    destruct (iteration_cases e w) as (_ & Hc1 & Ha1 & Hcases). cbv zeta in *.
    split; [exact Hr|]. split; [congruence|]. split; [congruence|].
    destruct Hl as [Hl|(e' & He' & Hl)].
    2:{ right. exists e'. split; [by right|exact Hl]. }
    rewrite Hl.
    destruct Hcases as [[Hl1 _]|(f & pets & wm & r & ws & _ & _ & _ & _ & _ & _ & Hr1)].
    + by left.
    + destruct r as [p|ex]; destruct Hr1 as [Hl1 _].
      * right. exists e. split; [by left|exact Hl1].
      * by left.
Qed.

End LoopInvariant.
